(** * inspector-kickstarter: the scan-lifecycle script [run.py]

    A shallow embedding of [src/run.py].  The script talks to three boto3
    clients (EC2, Inspector, SNS); here each client is a record of
    functions over an abstract [World], every call may answer or raise,
    and every call, log line and sleep is appended to a trace, so that the
    properties of the script can be stated on what it did. *)

From Stdlib Require Import List ZArith Lia String Ascii Bool Arith DecimalString.
From Equations Require Import Equations.
Import ListNotations.

Local Open Scope string_scope.
Local Open Scope list_scope.
Local Open Scope Z_scope.

Declare Scope py_scope.
Delimit Scope py_scope with py.
Infix "+s+" := String.append (at level 60, right associativity) : py_scope.
Local Open Scope py_scope.

(** ** The Python primitives the script relies on *)

Module Py.

(** [len(l)], a Python int. *)
Definition len {A} (l : list A) : Z := Z.of_nat (List.length l).

(** Truth value of a list: [bool(l)] is [len(l) != 0]. *)
Definition truthy_list {A} (l : list A) : bool :=
  match l with [] => false | _ :: _ => true end.

(** Truth value of a string: the empty string is false. *)
Definition truthy_str (s : string) : bool :=
  match s with EmptyString => false | String _ _ => true end.

(** Truth value of [d.get(key)] for a string-valued key: [None] is false
    and so is the empty string. *)
Definition truthy_opt_str (o : option string) : bool :=
  match o with None => false | Some s => truthy_str s end.

(** [str(n)] for an int. *)
Definition str_int (n : Z) : string := NilZero.string_of_int (Z.to_int n).

(** [repr(s)] for a string without quotes or escapes: single-quoted. *)
Definition repr_str (s : string) : string := "'" +s+ s +s+ "'".

(** [', '.join(l)]. *)
Definition join_comma (l : list string) : string := String.concat ", " l.

(** [repr(l)] for a list of strings. *)
Definition repr_list_str (l : list string) : string :=
  "[" +s+ join_comma (map repr_str l) +s+ "]".

(** [repr(d)] for a dict from strings to lists of strings, in insertion
    order; an association list keeps that order. *)
Definition repr_dict (d : list (string * list string)) : string :=
  "{" +s+ join_comma (map (fun kv => repr_str (fst kv) +s+ ": " +s+ repr_list_str (snd kv)) d) +s+ "}".

(** Normalisation of a slice bound against a length: a negative bound
    counts from the end, and both are clamped to [0, n]. *)
Definition slice_bound (n i : Z) : Z :=
  if i <? 0 then Z.max 0 (i + n) else Z.min i n.

(** [l[a:b]]: the elements at indices [a], ..., [b - 1] (half-open). *)
Definition slice {A} (l : list A) (a b : Z) : list A :=
  let n := len l in
  let a' := slice_bound n a in
  let b' := slice_bound n b in
  firstn (Z.to_nat (b' - a')) (skipn (Z.to_nat a') l).

(** [range(0, n)]. *)
Definition range0 (n : Z) : list Z := map Z.of_nat (seq 0 (Z.to_nat n)).

(** [math.ceil(a / b)] for ints [a >= 0], [b > 0].  The source divides in
    floating point; for list lengths (far below 2^45) the rounded
    quotient has the same ceiling as the exact one, which is this. *)
Definition ceil_div (a b : Z) : Z := (a + b - 1) / b.

(** [filter(f, l)] in Python 3 is a lazy iterator object, not a list. *)
Record filter_object (A : Type) := mk_filter { filter_items : list A }.
Arguments mk_filter {A} _.
Arguments filter_items {A} _.

Definition filter {A} (f : A -> bool) (l : list A) : filter_object A :=
  mk_filter (List.filter f l).

(** Truth value of a filter object: the class defines neither [__bool__]
    nor [__len__], so every instance is true, whatever it would yield. *)
Definition truthy_filter {A} (_ : filter_object A) : bool := true.

(** [x in l] for strings. *)
Definition str_in (x : string) (l : list string) : bool :=
  existsb (String.eqb x) l.

End Py.

(** ** Dates *)

Record date := mk_date { year : Z; month : Z; day_of_month : Z }.

Definition date_eqb (a b : date) : bool :=
  (year a =? year b) && (month a =? month b) && (day_of_month a =? day_of_month b).

(** Zero padding of [{:0w d}]. *)
Fixpoint pad_zeros (missing : nat) (s : string) : string :=
  match missing with O => s | S k => "0" +s+ pad_zeros k s end.

Definition zfill (width : nat) (s : string) : string :=
  pad_zeros (width - String.length s)%nat s.

(** [str(d)] for a date: ISO format, YYYY-MM-DD. *)
Definition date_str (d : date) : string :=
  zfill 4 (Py.str_int (year d)) +s+ "-" +s+ zfill 2 (Py.str_int (month d))
    +s+ "-" +s+ zfill 2 (Py.str_int (day_of_month d)).

Record datetime := mk_datetime { dt_date : date; dt_seconds : Z }.

(** ** Exceptions and answers of the cloud APIs *)

Inductive exn :=
| ClientError (code : string)
| WaiterError (reason : string)
| SystemExit (code : Z).

Inductive reply (A : Type) :=
| Ok (a : A)
| Err (e : exn).
Arguments Ok {A} _.
Arguments Err {A} _.

(** ** Request and response shapes (the fields the script reads or sets) *)

Record instance_description := { ImageId : string }.
Record reservation := { Instances : list instance_description }.
Record describe_instances_response := { Reservations : list reservation }.

Record tag := { Key : string; Value : string }.
Record tag_specification := { ResourceType : string; Tags : list tag }.

Record run_instances_request := {
  req_ImageId : string;
  req_InstanceType : string;
  req_UserData : string;
  req_DryRun : bool;
  req_MaxCount : Z;
  req_MinCount : Z;
  req_SecurityGroupIds : list (option string);
  req_SubnetId : option string;
  req_TagSpecifications : list tag_specification }.

Record launched_instance := { InstanceId : string }.
Record run_instances_response := { launched : list launched_instance }.

Record assessment_run := { createdAt : datetime; state : string }.
Record describe_assessment_runs_response := { assessmentRuns : list assessment_run }.

Definition finding_filter_t := list (string * list string).

Record list_findings_request := {
  lf_assessmentRunArns : list string;
  lf_maxResults : Z;
  lf_filter : finding_filter_t;
  lf_nextToken : option string }.

Record list_findings_response := {
  findingArns : list string;
  nextToken : option string }.

Record finding := { finding_arn : string; finding_title : string }.
Record describe_findings_response := { findings : list finding }.

(** ** What a run does: the trace *)

Inductive level := INFO | ERROR | CRITICAL.

Inductive event :=
| EDescribeInstances (r : reply describe_instances_response)
| ERunInstances (req : run_instances_request) (r : reply run_instances_response)
| ETerminateInstances (ids : list string) (r : reply unit)
| EWaitStatusOk (ids : list string) (r : reply unit)
| EStartAssessmentRun (template : option string) (name : string) (r : reply string)
| EDescribeAssessmentRuns (arns : list string) (r : reply describe_assessment_runs_response)
| EListFindings (req : list_findings_request) (r : reply list_findings_response)
| EDescribeFindings (arns : list string) (r : reply describe_findings_response)
| EPublish (topic : option string) (message : string) (r : reply unit)
| ESleep (seconds : Z)
| ELog (l : level) (message : string)
| EPrint (text : string).

(** ** The boto3 clients and the process environment

    A client method takes the world to a new world and an answer.  Nothing
    is assumed about the services: they may answer anything of the right
    shape, change state on every call, or raise. *)

Definition api (World A : Type) := World -> World * reply A.

Record ec2_client (World : Type) := {
  describe_instances : api World describe_instances_response;
  run_instances : run_instances_request -> api World run_instances_response;
  terminate_instances : list string -> api World unit;
  (** [ec2.get_waiter('instance_status_ok').wait(InstanceIds=...)] *)
  wait_instance_status_ok : list string -> api World unit }.

Record inspector_client (World : Type) := {
  start_assessment_run : option string -> string -> api World string;
  describe_assessment_runs : list string -> api World describe_assessment_runs_response;
  list_findings : list_findings_request -> api World list_findings_response;
  describe_findings : list string -> api World describe_findings_response }.

Record sns_client (World : Type) := {
  publish : option string -> string -> api World unit }.

Arguments describe_instances {World} _.
Arguments run_instances {World} _ _.
Arguments terminate_instances {World} _ _.
Arguments wait_instance_status_ok {World} _ _.
Arguments start_assessment_run {World} _ _ _.
Arguments describe_assessment_runs {World} _ _.
Arguments list_findings {World} _ _.
Arguments describe_findings {World} _ _.
Arguments publish {World} _ _ _.

(** What the process gets from its host: [os.environ], [boto3.client],
    the clock and [time.sleep]. *)
Record host (World : Type) := {
  environ : string -> option string;
  boto3_ec2 : string -> ec2_client World;
  boto3_inspector : string -> inspector_client World;
  boto3_sns : string -> sns_client World;
  today : World -> date;
  sleep : Z -> World -> World }.

Arguments environ {World} _ _.
Arguments boto3_ec2 {World} _ _.
Arguments boto3_inspector {World} _ _.
Arguments boto3_sns {World} _ _.
Arguments today {World} _ _.
Arguments sleep {World} _ _ _.

(** ** The monad of the script: state, trace, exceptions, divergence *)

Inductive outcome (A : Type) :=
| Return (a : A)
| Raise (e : exn)
| OutOfFuel.
Arguments Return {A} _.
Arguments Raise {A} _.
Arguments OutOfFuel {A}.

Section Monad.

Context {World : Type}.

Record State := mk_state { world : World; trace : list event }.

Definition M (A : Type) := State -> State * outcome A.

Definition ret {A} (a : A) : M A := fun s => (s, Return a).

Definition bind {A B} (m : M A) (k : A -> M B) : M B :=
  fun s =>
    match m s with
    | (s1, Return a) => k a s1
    | (s1, Raise e) => (s1, Raise e)
    | (s1, OutOfFuel) => (s1, OutOfFuel)
    end.

Definition raise {A} (e : exn) : M A := fun s => (s, Raise e).

Definition out_of_fuel {A} : M A := fun s => (s, OutOfFuel).

(** One more event at the end of the trace. *)
Definition record_event (ev : event) (s : State) : State :=
  mk_state (world s) (trace s ++ [ev]).

Definition emit (ev : event) : M unit := fun s => (record_event ev s, Return tt).

(** A client call: the world moves, the call and its answer are
    recorded, and an error answer is raised. *)
Definition call {A} (f : api World A) (mk : reply A -> event) : M A :=
  fun s =>
    let (w, r) := f (world s) in
    let s1 := mk_state w (trace s ++ [mk r]) in
    match r with
    | Ok a => (s1, Return a)
    | Err e => (s1, Raise e)
    end.

(** [try: body finally: handler].  The handler runs after the body
    whether it returned or raised; if the handler returns, the body's
    outcome stands, and if it raises, its exception replaces it.  A body
    that never finishes never reaches the handler. *)
Definition try_finally {A} (body : M A) (handler : M unit) : M A :=
  fun s =>
    match body s with
    | (s1, OutOfFuel) => (s1, OutOfFuel)
    | (s1, o) =>
        match handler s1 with
        | (s2, Return _) => (s2, o)
        | (s2, Raise e) => (s2, Raise e)
        | (s2, OutOfFuel) => (s2, OutOfFuel)
        end
    end.

(** [sys.exit(code)] raises [SystemExit]. *)
Definition sys_exit {A} (code : Z) : M A := raise (SystemExit code).

Definition log (l : level) (message : string) : M unit := emit (ELog l message).

Definition print (text : string) : M unit := emit (EPrint text).

End Monad.

Arguments State : clear implicits.
Arguments M : clear implicits.

Notation "x <- m ;; k" := (bind m (fun x => k))
  (at level 61, m at next level, right associativity) : py_scope.
Notation "m ;; k" := (bind m (fun _ => k))
  (at level 61, right associativity) : py_scope.

(** The exit status of the process for an outcome of the script. *)
Definition exit_code {A} (o : outcome A) : option Z :=
  match o with
  | Return _ => Some 0
  | Raise (SystemExit c) => Some c
  | Raise _ => Some 1
  | OutOfFuel => None
  end.

(** ** The functions of [run.py] *)

(** Lines 25-30 of [fetch_amis]: the two nested loops that collect each
    image identifier once, in first-seen order. *)
Definition distinct_images (reservations : list reservation) : list string :=
  fold_left (fun amis reservation =>
    fold_left (fun amis instance =>
      let ami := ImageId instance in
      if negb (Py.str_in ami amis) then amis ++ [ami] else amis)
      (Instances reservation) amis)
    reservations [].

Section Script.

Context {World : Type}.
Variable os : host World.

Local Abbreviation M := (M World).

(** [time.sleep(seconds)] *)
Definition time_sleep (seconds : Z) : M unit :=
  fun s => (mk_state (sleep os seconds (world s)) (trace s ++ [ESleep seconds]), Return tt).

(** [datetime.today().date()] *)
Definition today_date : M date := fun s => (s, Return (today os (world s))).

(** Lines 21-31. *)
Definition fetch_amis (ec2 : ec2_client World) : M (list string) :=
  response <- call (describe_instances ec2) EDescribeInstances ;;
  let reservations := Reservations response in
  ret (distinct_images reservations).

Definition launch_request (instance_type ami user_data : string) (tags : list tag)
    (subnet_id instance_security_group : option string) : run_instances_request :=
  {| req_ImageId := ami;
     req_InstanceType := instance_type;
     req_UserData := user_data;
     req_DryRun := false;
     req_MaxCount := 1;
     req_MinCount := 1;
     req_SecurityGroupIds := [instance_security_group];
     req_SubnetId := subnet_id;
     req_TagSpecifications := [ {| ResourceType := "instance"; Tags := tags |} ] |}.

(** The [for ami in amis] loop of lines 37-50; [instances] is the list
    built so far.  A launch that raises leaves the loop and the
    function, and [instances] with it. *)
Fixpoint launch_each (ec2 : ec2_client World) (instance_type : string) (amis : list string)
    (user_data : string) (tags : list tag) (subnet_id instance_security_group : option string)
    (instances : list run_instances_response) : M (list run_instances_response) :=
  match amis with
  | [] => ret instances
  | ami :: rest =>
      let req := launch_request instance_type ami user_data tags subnet_id instance_security_group in
      instance <- call (run_instances ec2 req) (ERunInstances req) ;;
      launch_each ec2 instance_type rest user_data tags subnet_id instance_security_group
        (instances ++ [instance])
  end.

(** Lines 34-55.  The source reads the client from the module global
    [ec2]; it is the first parameter here. *)
Definition start_ec2_intances (ec2 : ec2_client World) (instance_type : string)
    (amis : list string) (user_data : string) (tags : list tag)
    (subnet_id instance_security_group : option string) : M (list string) :=
  instances <- launch_each ec2 instance_type amis user_data tags subnet_id
                 instance_security_group [] ;;
  let instance_ids :=
    flat_map (fun instance_list => map InstanceId (launched instance_list)) instances in
  print (Py.repr_list_str instance_ids) ;;
  ret instance_ids.

(** Lines 58-59. *)
Definition terminate_ec2_instances (ec2 : ec2_client World) (instance_ids : list string) : M unit :=
  call (terminate_instances ec2 instance_ids) (ETerminateInstances instance_ids).

(** Lines 62-67. *)
Definition start_inspector_scan (inspector : inspector_client World)
    (scan_template : option string) : M string :=
  d <- today_date ;;
  let name := "running-amis-scheduled-scan-" +s+ date_str d in
  call (start_assessment_run inspector scan_template name)
       (EStartAssessmentRun scan_template name).

(** *** The poll loop, lines 70-97 *)

Definition max_total_wait : Z := 7260.
Definition sleep_time : Z := 60.

Definition is_terminal_state (st : string) : bool :=
  String.eqb st "COMPLETED" || String.eqb st "COMPLETED_WITH_ERRORS".

(** The [for run in runs] loop of lines 83-88: [Some b] when the loop
    body executed [return b], [None] when the loop ran to its end. *)
Fixpoint for_run_in (runs : list assessment_run) : M (option bool) :=
  match runs with
  | [] => ret None
  | run :: rest =>
      let st := state run in
      if is_terminal_state st then
        log INFO "Inspector scan completed" ;;
        let assessment_completed := true in
        ret (Some assessment_completed)
      else for_run_in rest
  end.

(** Lines 76-88, the first half of the body of the while loop: one poll.
    [Some b] when it executed [return b], [None] when control reaches
    line 90. *)
Definition poll_once (inspector : inspector_client World) (assessment_run_arn : string)
    (day : date) : M (option bool) :=
  response <- call (describe_assessment_runs inspector [assessment_run_arn])
                   (EDescribeAssessmentRuns [assessment_run_arn]) ;;
  let runs := Py.filter (fun x => date_eqb day (dt_date (createdAt x)))
                        (assessmentRuns response) in
  (if negb (Py.truthy_filter runs)
   then log CRITICAL "No assessment runs found!"
   else ret tt) ;;
  for_run_in (Py.filter_items runs).

(** Lines 90-92: the log line and the sleep.  Neither can raise. *)
Definition wait_a_while (s : State World) : State World :=
  fst ((log INFO ("Inspector scan not completed yet. Waiting " +s+ Py.str_int sleep_time
                  +s+ " seconds.") ;;
        time_sleep sleep_time) s).

Definition inspect {A} (a : A) : {b : A | a = b} := exist _ a eq_refl.

(** What is left of the wait budget, the measure of the loop. *)
Definition budget_left (total_wait : Z) : nat := Z.to_nat (max_total_wait - total_wait).
Arguments budget_left : simpl never.

(** The while loop of lines 75-96.  Its condition is true at every test,
    since [assessment_completed] is only set on the line before a
    [return]; the loop ends by one of the two [return]s inside.  It
    terminates because [total_wait] grows by [sleep_time] on each round
    and the loop is left once it reaches [max_total_wait]. *)
Equations? await_loop (inspector : inspector_client World) (assessment_run_arn : string)
    (day : date) (total_wait : Z) (s : State World) : State World * outcome bool
    by wf (budget_left total_wait) lt :=
  await_loop inspector arn day total_wait s with inspect (poll_once inspector arn day s) := {
    | exist _ (s1, Return (Some b)) _ => (s1, Return b)
    | exist _ (s1, Raise e) _ => (s1, Raise e)
    | exist _ (s1, OutOfFuel) _ => (s1, OutOfFuel)
    | exist _ (s1, Return None) _
        with inspect (total_wait + sleep_time >=? max_total_wait) := {
        | exist _ true _ =>
            (log ERROR "Exceeded inspector max wait" ;; ret false) (wait_a_while s1)
        | exist _ false Hbelow =>
            await_loop inspector arn day (total_wait + sleep_time) (wait_a_while s1) } }.
Proof.
  unfold budget_left, sleep_time, max_total_wait in *. lia.
Qed.

(** Lines 70-97. *)
Definition await_inspector_results (inspector : inspector_client World)
    (assessment_run_arn : string) (day : date) : M bool :=
  let total_wait := 0 in
  await_loop inspector assessment_run_arn day total_wait.

(** *** Listing the findings, lines 100-122 *)

Definition list_findings_page (assessment_run_arn : string) (finding_filter : finding_filter_t)
    (next_token : option string) : list_findings_request :=
  {| lf_assessmentRunArns := [assessment_run_arn];
     lf_maxResults := 500;
     lf_filter := finding_filter;
     lf_nextToken := if Py.truthy_opt_str next_token then next_token else None |}.

(** The [while more_findings] loop.  [next_token] starts as the empty
    string and is then whatever [response.get('nextToken')] gave; a false
    [next_token] leaves the [nextToken] argument out of the request.
    Nothing in the source bounds the number of rounds: [fuel] does, and
    running out of it stands for a loop that never ends. *)
Fixpoint list_pages (fuel : nat) (inspector : inspector_client World)
    (assessment_run_arn : string) (finding_filter : finding_filter_t)
    (finding_arns : list string) (next_token : option string) : M (list string) :=
  match fuel with
  | O => out_of_fuel
  | S fuel' =>
      let req := list_findings_page assessment_run_arn finding_filter next_token in
      response <- call (list_findings inspector req) (EListFindings req) ;;
      let next_token := nextToken response in
      let finding_arns := finding_arns ++ findingArns response in
      if negb (Py.truthy_opt_str next_token)
      then (* more_findings = False *) ret finding_arns
      else list_pages fuel' inspector assessment_run_arn finding_filter finding_arns next_token
  end.

Definition retrieve_finding_arns (fuel : nat) (inspector : inspector_client World)
    (assessment_run_arn : string) (finding_filter : finding_filter_t) : M (list string) :=
  let finding_arns := [] in
  let next_token := Some "" in
  list_pages fuel inspector assessment_run_arn finding_filter finding_arns next_token.

(** *** Fetching the finding details, lines 125-136 *)

(** The slice bounds of the batch with number [index], lines 129-132. *)
Definition pagination_start (index : Z) : Z := index * 100.

Definition pagination_end (amount_of_findings index : Z) : Z :=
  let pagination_end := pagination_start index + 99 in
  if pagination_end >? amount_of_findings then amount_of_findings - 1 else pagination_end.

(** The identifiers sent in batch [index]: [finding_arns[start:end]]. *)
Definition batch_of (finding_arns : list string) (index : Z) : list string :=
  Py.slice finding_arns (pagination_start index)
           (pagination_end (Py.len finding_arns) index).

(** The [for index in range(...)] loop over the remaining indices. *)
Fixpoint describe_each (inspector : inspector_client World) (finding_arns : list string)
    (indices : list Z) (findings_so_far : list finding) : M (list finding) :=
  match indices with
  | [] => ret findings_so_far
  | index :: rest =>
      let batch := batch_of finding_arns index in
      response <- call (describe_findings inspector batch) (EDescribeFindings batch) ;;
      describe_each inspector finding_arns rest (findings_so_far ++ findings response)
  end.

Definition retrieve_findings (inspector : inspector_client World) (finding_arns : list string)
    : M (list finding) :=
  let amount_of_findings := Py.len finding_arns in
  describe_each inspector finding_arns (Py.range0 (Py.ceil_div amount_of_findings 100)) [].

(** *** Publishing, lines 139-143 *)

Definition publish_finding_data (sns : sns_client World) (topic : option string)
    (message : string) : M unit :=
  call (publish sns topic message) (EPublish topic message).

(** *** The entry point, lines 146-226 *)

Definition user_data : string :=
"#!/bin/bash -xe
sudo yum install -y awslogs
sudo systemctl start awslogsd
wget https://d1wk0tztpsntt1.cloudfront.net/linux/latest/inspector.gpg
gpg --import inspector.gpg
wget https://inspector-agent.amazonaws.com/linux/latest/install
curl -O https://d1wk0tztpsntt1.cloudfront.net/linux/latest/install.sig
gpg --verify ./install.sig
sudo bash install
sudo systemctl start awsagent
sudo systemctl status awsagent
".

Definition instance_type : string := "t2.micro".
Definition tags : list tag := [ {| Key := "vulnerability-assessment"; Value := "true" |} ].

(** Only alert on high findings. *)
Definition finding_filter : finding_filter_t := [ ("severities", ["High"]) ].

Definition alert_message (amount_of_findings : Z) : string :=
  "Inspector scan resulted in " +s+ Py.str_int amount_of_findings
    +s+ " findings with filter " +s+ Py.repr_dict finding_filter.

(** Lines 213-221: the alerting decision. *)
Definition alert_on (sns : sns_client World) (sns_alert_topic : option string)
    (assessment_run_arn : string) (finding_arns : list string) : M unit :=
  if Py.truthy_list finding_arns then
    let amount_of_findings := Py.len finding_arns in
    log INFO "Publishing amount of high findings" ;;
    let message := alert_message amount_of_findings in
    publish_finding_data sns sns_alert_topic message
  else
    log INFO ("No findings found for assessment run " +s+ assessment_run_arn).

(** Lines 204-221: what follows the poll loop inside the [try]. *)
Definition collect_and_alert (fuel : nat) (inspector : inspector_client World)
    (sns : sns_client World) (sns_alert_topic : option string)
    (assessment_run_arn : string) : M unit :=
  log INFO "Retrieving findings" ;;
  finding_arns <- retrieve_finding_arns fuel inspector assessment_run_arn finding_filter ;;
  alert_on sns sns_alert_topic assessment_run_arn finding_arns.

(** Lines 190-221: the body of the [try]. *)
Definition scan_and_alert (fuel : nat) (ec2 : ec2_client World)
    (inspector : inspector_client World) (sns : sns_client World)
    (sns_alert_topic assessment_template : option string)
    (instance_ids : list string) : M unit :=
  log INFO ("Started instances " +s+ Py.repr_list_str instance_ids) ;;
  log INFO ("Awaiting " +s+ Py.repr_list_str instance_ids) ;;
  call (wait_instance_status_ok ec2 instance_ids) (EWaitStatusOk instance_ids) ;;
  log INFO "Starting Inspector run" ;;
  assessment_run_arn <- start_inspector_scan inspector assessment_template ;;
  log INFO "Awaiting Inspector results" ;;
  day <- today_date ;;
  await_inspector_results inspector assessment_run_arn day ;;
  collect_and_alert fuel inspector sns sns_alert_topic assessment_run_arn.

(** Lines 223-226: the [finally] block. *)
Definition tear_down (ec2 : ec2_client World) (instance_ids : list string) : M unit :=
  log INFO "Tearing down EC2 instances" ;;
  terminate_ec2_instances ec2 instance_ids.

(** [os.environ.get('AWS_DEFAULT_REGION', default='us-east-1')] *)
Definition default_region : string :=
  match environ os "AWS_DEFAULT_REGION" with
  | Some r => r
  | None => "us-east-1"
  end.

(** The [if __name__ == "__main__"] block. *)
Definition main (fuel : nat) : M unit :=
  let sns_alert_topic := environ os "SNS_ALERT_TOPIC_ARN" in
  let subnet_id := environ os "INSTANCE_SUBNET_ID" in
  let instance_security_group := environ os "INSTANCE_SECURITY_GROUP" in
  let assessment_template := environ os "INSPECTOR_ASSESSMENT_TEMPLATE" in
  let region := default_region in
  let ec2 := boto3_ec2 os region in
  let inspector := boto3_inspector os region in
  let sns := boto3_sns os region in
  log INFO "Fetching AMIs in use" ;;
  amis <- fetch_amis ec2 ;;
  (if negb (Py.truthy_list amis) then
     log CRITICAL "No AMIs found" ;;
     sys_exit 1
   else ret tt) ;;
  log INFO ("Starting EC2 instances with AMIs: " +s+ Py.repr_list_str amis) ;;
  instance_ids <- start_ec2_intances ec2 instance_type amis user_data tags
                    subnet_id instance_security_group ;;
  try_finally
    (scan_and_alert fuel ec2 inspector sns sns_alert_topic assessment_template instance_ids)
    (tear_down ec2 instance_ids).

End Script.

(** ** What a trace says *)

Definition run {World A} (m : M World A) (w : World) : State World * outcome A :=
  m (mk_state w []).

(** The launch requests issued, in order. *)
Definition launch_requests (tr : list event) : list run_instances_request :=
  flat_map (fun ev => match ev with ERunInstances req _ => [req] | _ => [] end) tr.

(** The instance identifiers the launches returned, in order. *)
Definition launched_ids (tr : list event) : list string :=
  flat_map (fun ev => match ev with
                      | ERunInstances _ (Ok r) => map InstanceId (launched r)
                      | _ => []
                      end) tr.

(** Whether some launch request was rejected. *)
Definition launch_failed (tr : list event) : bool :=
  existsb (fun ev => match ev with ERunInstances _ (Err _) => true | _ => false end) tr.

(** The arguments of the termination calls, in order. *)
Definition terminate_calls (tr : list event) : list (list string) :=
  flat_map (fun ev => match ev with ETerminateInstances ids _ => [ids] | _ => [] end) tr.

(** The number of polls of the assessment run. *)
Definition polls (tr : list event) : nat :=
  List.length (flat_map (fun ev => match ev with EDescribeAssessmentRuns _ _ => [tt] | _ => [] end) tr).

(** The number of sleeps. *)
Definition sleeps (tr : list event) : nat :=
  List.length (flat_map (fun ev => match ev with ESleep _ => [tt] | _ => [] end) tr).

(** The page requests for finding identifiers, in order. *)
Definition page_requests (tr : list event) : list list_findings_request :=
  flat_map (fun ev => match ev with EListFindings req _ => [req] | _ => [] end) tr.

(** The finding identifiers received, page after page. *)
Definition listed_arns (tr : list event) : list string :=
  flat_map (fun ev => match ev with EListFindings _ (Ok r) => findingArns r | _ => [] end) tr.

(** Whether a page arrived without a continuation token. *)
Definition listing_done (tr : list event) : bool :=
  existsb (fun ev => match ev with
                     | EListFindings _ (Ok r) => negb (Py.truthy_opt_str (nextToken r))
                     | _ => false
                     end) tr.

(** The batches sent to the detail-retrieval call, in order. *)
Definition detail_calls (tr : list event) : list (list string) :=
  flat_map (fun ev => match ev with EDescribeFindings arns _ => [arns] | _ => [] end) tr.

(** The topic and message of each publish call, in order. *)
Definition publish_calls (tr : list event) : list (option string * string) :=
  flat_map (fun ev => match ev with EPublish topic message _ => [(topic, message)] | _ => [] end) tr.

(** The lines logged at a level, in order. *)
Definition logged (l : level) (tr : list event) : list string :=
  flat_map (fun ev => match ev, l with
                      | ELog INFO m, INFO | ELog ERROR m, ERROR | ELog CRITICAL m, CRITICAL => [m]
                      | _, _ => []
                      end) tr.

(** [contains s sub]: [sub] occurs in [s]. *)
Definition contains (s sub : string) : Prop :=
  exists before after, s = before +s+ sub +s+ after.

(** ** A simulated cloud

    A small deterministic stand-in for the three services, for running the
    script on concrete inputs. *)

Record sim := {
  sim_images : list string;          (** ImageId of each running instance *)
  sim_launch_limit : option nat;     (** launches accepted before the next is rejected *)
  sim_launched : nat;                (** instances launched so far *)
  sim_ready : bool;                  (** whether the readiness wait succeeds *)
  sim_today : date;
  sim_run_created : option date;     (** creation date of the assessment run, if listed *)
  sim_slept : Z;                     (** seconds slept so far *)
  sim_completes_after : option Z;    (** seconds until the run is COMPLETED; never if None *)
  sim_findings : list string;        (** what the finding listing holds *)
  sim_page_size : nat;               (** identifiers per page *)
  sim_publish_ok : bool;
  sim_terminated : list (list string) }.

Definition sim_set_launched (n : nat) (w : sim) : sim :=
  {| sim_images := sim_images w; sim_launch_limit := sim_launch_limit w; sim_launched := n;
     sim_ready := sim_ready w; sim_today := sim_today w; sim_run_created := sim_run_created w;
     sim_slept := sim_slept w; sim_completes_after := sim_completes_after w;
     sim_findings := sim_findings w; sim_page_size := sim_page_size w;
     sim_publish_ok := sim_publish_ok w; sim_terminated := sim_terminated w |}.

Definition sim_set_slept (t : Z) (w : sim) : sim :=
  {| sim_images := sim_images w; sim_launch_limit := sim_launch_limit w;
     sim_launched := sim_launched w;
     sim_ready := sim_ready w; sim_today := sim_today w; sim_run_created := sim_run_created w;
     sim_slept := t; sim_completes_after := sim_completes_after w;
     sim_findings := sim_findings w; sim_page_size := sim_page_size w;
     sim_publish_ok := sim_publish_ok w; sim_terminated := sim_terminated w |}.

Definition sim_add_terminated (ids : list string) (w : sim) : sim :=
  {| sim_images := sim_images w; sim_launch_limit := sim_launch_limit w;
     sim_launched := sim_launched w;
     sim_ready := sim_ready w; sim_today := sim_today w; sim_run_created := sim_run_created w;
     sim_slept := sim_slept w; sim_completes_after := sim_completes_after w;
     sim_findings := sim_findings w; sim_page_size := sim_page_size w;
     sim_publish_ok := sim_publish_ok w; sim_terminated := sim_terminated w ++ [ids] |}.

Definition sim_ec2 : ec2_client sim := {|
  describe_instances := fun w =>
    (w, Ok {| Reservations := [ {| Instances := map (fun i => {| ImageId := i |}) (sim_images w) |} ] |});
  run_instances := fun req w =>
    let n := sim_launched w in
    let accepted := match sim_launch_limit w with
                    | Some limit => (n <? limit)%nat
                    | None => true
                    end in
    if accepted
    then (sim_set_launched (S n) w,
          Ok {| launched := [ {| InstanceId := "i-" +s+ Py.str_int (Z.of_nat n) |} ] |})
    else (w, Err (ClientError "InstanceLimitExceeded"));
  terminate_instances := fun ids w => (sim_add_terminated ids w, Ok tt);
  wait_instance_status_ok := fun ids w =>
    if sim_ready w then (w, Ok tt) else (w, Err (WaiterError "Max attempts exceeded")) |}.

(** A continuation token names a page number [p] by [p] letters. *)
Definition sim_token (p : nat) : string := String.concat "" (repeat "x" p).

Definition sim_page_of (t : option string) : nat :=
  match t with None => O | Some s => String.length s end.

Definition sim_run_state (w : sim) : string :=
  match sim_completes_after w with
  | Some t => if t <=? sim_slept w then "COMPLETED" else "COLLECTING_DATA"
  | None => "COLLECTING_DATA"
  end.

Definition sim_arn : string := "arn:aws:inspector:run/0-sim".

Definition sim_inspector : inspector_client sim := {|
  start_assessment_run := fun template name w => (w, Ok sim_arn);
  describe_assessment_runs := fun arns w =>
    (w, Ok {| assessmentRuns :=
                match sim_run_created w with
                | Some d => [ {| createdAt := mk_datetime d 0; state := sim_run_state w |} ]
                | None => []
                end |});
  list_findings := fun req w =>
    let size := Nat.min (Z.to_nat (lf_maxResults req)) (sim_page_size w) in
    let p := sim_page_of (lf_nextToken req) in
    let rest := skipn (p * size) (sim_findings w) in
    (w, Ok {| findingArns := firstn size rest;
              nextToken := if (size <? List.length rest)%nat
                           then Some (sim_token (S p)) else None |});
  describe_findings := fun arns w =>
    (w, Ok {| findings := map (fun a => {| finding_arn := a; finding_title := "finding" |}) arns |}) |}.

Definition sim_sns : sns_client sim := {|
  publish := fun topic message w =>
    if sim_publish_ok w then (w, Ok tt) else (w, Err (ClientError "AuthorizationError")) |}.

Definition sim_environ (name : string) : option string :=
  if String.eqb name "SNS_ALERT_TOPIC_ARN" then Some "arn:aws:sns:alerts"
  else if String.eqb name "INSTANCE_SUBNET_ID" then Some "subnet-1"
  else if String.eqb name "INSTANCE_SECURITY_GROUP" then Some "sg-1"
  else if String.eqb name "INSPECTOR_ASSESSMENT_TEMPLATE" then Some "arn:aws:inspector:template/0-sim"
  else None.

Definition sim_host : host sim := {|
  environ := sim_environ;
  boto3_ec2 := fun _ => sim_ec2;
  boto3_inspector := fun _ => sim_inspector;
  boto3_sns := fun _ => sim_sns;
  today := sim_today;
  sleep := fun seconds w => sim_set_slept (sim_slept w + seconds) w |}.

Definition sim_day : date := mk_date 2021 3 9.

(** [n] identifiers [arn-0], ..., [arn-(n-1)]. *)
Definition sim_arns (n : nat) : list string :=
  map (fun i => "arn-" +s+ Py.str_int (Z.of_nat i)) (seq 0 n).

(** The given images are in use, every launch is accepted, the scan is
    COMPLETED after [completes_after] seconds (or never), and there are
    [n] findings, listed in pages of 500. *)
Definition sim_world (images : list string) (completes_after : option Z) (n : nat) : sim := {|
  sim_images := images;
  sim_launch_limit := None;
  sim_launched := 0;
  sim_ready := true;
  sim_today := sim_day;
  sim_run_created := Some sim_day;
  sim_slept := 0;
  sim_completes_after := completes_after;
  sim_findings := sim_arns n;
  sim_page_size := 500;
  sim_publish_ok := true;
  sim_terminated := [] |}.

(** ** Simulated runs used below *)

(** Two images, the scan completes after one interval, three findings. *)
Definition sim_two_images : sim := sim_world ["ami-1"; "ami-2"] (Some 60) 3.

(** No instance is running, so there is no image. *)
Definition sim_no_images : sim := sim_world [] (Some 60) 3.

(** The second of two launches is rejected. *)
Definition sim_second_launch_rejected : sim := {|
  sim_images := ["ami-1"; "ami-2"]; sim_launch_limit := Some 1%nat; sim_launched := 0;
  sim_ready := true; sim_today := sim_day; sim_run_created := Some sim_day;
  sim_slept := 0; sim_completes_after := Some 60; sim_findings := [];
  sim_page_size := 500; sim_publish_ok := true; sim_terminated := [] |}.

(** Publishing is refused. *)
Definition sim_publish_refused : sim := {|
  sim_images := ["ami-1"; "ami-2"]; sim_launch_limit := None; sim_launched := 0;
  sim_ready := true; sim_today := sim_day; sim_run_created := Some sim_day;
  sim_slept := 0; sim_completes_after := Some 60; sim_findings := sim_arns 3;
  sim_page_size := 500; sim_publish_ok := false; sim_terminated := [] |}.

(** The readiness wait fails. *)
Definition sim_never_ready : sim := {|
  sim_images := ["ami-1"; "ami-2"]; sim_launch_limit := None; sim_launched := 0;
  sim_ready := false; sim_today := sim_day; sim_run_created := Some sim_day;
  sim_slept := 0; sim_completes_after := Some 60; sim_findings := [];
  sim_page_size := 500; sim_publish_ok := true; sim_terminated := [] |}.

(** The assessment run is not listed at all. *)
Definition sim_run_not_listed : sim := {|
  sim_images := ["ami-1"]; sim_launch_limit := None; sim_launched := 0;
  sim_ready := true; sim_today := sim_day; sim_run_created := None;
  sim_slept := 0; sim_completes_after := Some 0; sim_findings := [];
  sim_page_size := 500; sim_publish_ok := true; sim_terminated := [] |}.

(** The only run listed was created the day before, and is COMPLETED. *)
Definition sim_run_of_yesterday : sim := {|
  sim_images := ["ami-1"]; sim_launch_limit := None; sim_launched := 0;
  sim_ready := true; sim_today := sim_day; sim_run_created := Some (mk_date 2021 3 8);
  sim_slept := 0; sim_completes_after := Some 0; sim_findings := [];
  sim_page_size := 500; sim_publish_ok := true; sim_terminated := [] |}.

(** 1200 findings, in pages of 500. *)
Definition sim_1200_findings : sim := sim_world ["ami-1"] (Some 0) 1200.

(** The three pages of the simulated listing of 1200 identifiers. *)
Definition sim_three_pages : list list_findings_response :=
  [ {| findingArns := firstn 500 (sim_arns 1200); nextToken := Some "x" |};
    {| findingArns := firstn 500 (skipn 500 (sim_arns 1200)); nextToken := Some "xx" |};
    {| findingArns := skipn 1000 (sim_arns 1200); nextToken := None |} ].

(** 250 finding identifiers. *)
Definition sim_250_arns : list string := sim_arns 250.

(** ** The vocabulary of the properties *)

(** [emits p m]: whatever [m] does, it only appends events that satisfy
    [p] to the trace. *)
Definition emits {World A} (p : event -> bool) (m : M World A) : Prop :=
  forall s s' o, m s = (s', o) ->
    exists evs, trace s' = trace s ++ evs /\ forallb p evs = true.

Definition any_event (_ : event) : bool := true.

(** Events that are neither a launch nor a termination. *)
Definition no_instance_change (ev : event) : bool :=
  match ev with
  | ERunInstances _ _ | ETerminateInstances _ _ => false
  | _ => true
  end.

(** Events that are neither a page request nor a publish call. *)
Definition no_listing_or_publish (ev : event) : bool :=
  match ev with
  | EListFindings _ _ | EPublish _ _ _ => false
  | _ => true
  end.

(** Events that are not a detail-retrieval call. *)
Definition no_details (ev : event) : bool :=
  match ev with
  | EDescribeFindings _ _ => false
  | _ => true
  end.

(** How a run of [main] went, as far as instances are concerned. *)
Inductive main_shape (tr : list event) (o : outcome unit) : Prop :=
| StoppedBeforeLaunch :
    forallb no_instance_change tr = true ->
    main_shape tr o
| LaunchRejected launches pre :
    tr = pre ++ launches ->
    forallb no_instance_change pre = true ->
    launch_failed launches = true ->
    main_shape tr o
| NeverFinished :
    o = OutOfFuel ->
    main_shape tr o
| ToreDown pre launches body r :
    tr = pre ++ launches ++ body
           ++ [ELog INFO "Tearing down EC2 instances";
               ETerminateInstances (launched_ids launches) r] ->
    forallb no_instance_change pre = true ->
    launch_failed launches = false ->
    terminate_calls launches = [] ->
    forallb no_instance_change body = true ->
    main_shape tr o.

(** A record counts for the poll when it was created on [day] and its
    state is terminal. *)
Definition completed_today (day : date) (x : assessment_run) : bool :=
  date_eqb day (dt_date (createdAt x)) && is_terminal_state (state x).

(** The world in which poll number [n] (counting from 0) is made, when
    the polls before it were answered and the loop went on: each round
    is one call and one sleep. *)
Fixpoint world_at_poll {World} (os : host World) (inspector : inspector_client World)
    (assessment_run_arn : string) (n : nat) (w : World) : World :=
  match n with
  | O => w
  | S n' =>
      world_at_poll os inspector assessment_run_arn n'
        (sleep os sleep_time (fst (describe_assessment_runs inspector [assessment_run_arn] w)))
  end.

(** What poll number [n] observes: [Some true] when a record created on
    [day] is in a terminal state, [Some false] when none is, [None] when
    the call raises. *)
Definition observed_at_poll {World} (os : host World) (inspector : inspector_client World)
    (assessment_run_arn : string) (day : date) (n : nat) (w : World) : option bool :=
  match describe_assessment_runs inspector [assessment_run_arn]
          (world_at_poll os inspector assessment_run_arn n w) with
  | (_, Ok response) => Some (existsb (completed_today day) (assessmentRuns response))
  | (_, Err _) => None
  end.

(** [served inspector arn ff tok w rs w']: starting in world [w] with the
    token [tok] in hand, the service answers the successive page requests
    with the responses [rs], each request carrying the token of the
    response before it; every response but the last has a continuation
    token, the last has none (an absent token and an empty one are the
    same to the script), and the world is then [w']. *)
Fixpoint served {World} (inspector : inspector_client World) (assessment_run_arn : string)
    (ff : finding_filter_t) (tok : option string) (w : World)
    (rs : list list_findings_response) (w' : World) : Prop :=
  match rs with
  | [] => False
  | r :: rest =>
      exists w1,
        list_findings inspector (list_findings_page assessment_run_arn ff tok) w = (w1, Ok r) /\
        match rest with
        | [] => Py.truthy_opt_str (nextToken r) = false /\ w1 = w'
        | _ :: _ =>
            Py.truthy_opt_str (nextToken r) = true /\
            served inspector assessment_run_arn ff (nextToken r) w1 rest w'
        end
  end.

(** The events of such an exchange. *)
Fixpoint page_events (assessment_run_arn : string) (ff : finding_filter_t)
    (tok : option string) (rs : list list_findings_response) : list event :=
  match rs with
  | [] => []
  | r :: rest =>
      EListFindings (list_findings_page assessment_run_arn ff tok) (Ok r)
        :: page_events assessment_run_arn ff (nextToken r) rest
  end.

(** The request that carries the token of a response. *)
Definition request_after (assessment_run_arn : string) (ff : finding_filter_t)
    (r : list_findings_response) : list_findings_request :=
  {| lf_assessmentRunArns := [assessment_run_arn];
     lf_maxResults := 500;
     lf_filter := ff;
     lf_nextToken := nextToken r |}.

(** What the trace of a run must satisfy: a publish call is made exactly
    when the listing was completed and gave at least one identifier, and
    then once, to [topic], with the message for the number of
    identifiers listed. *)
Definition alert_rule (topic : option string) (evs : list event) : Prop :=
  publish_calls evs =
  if listing_done evs && Py.truthy_list (listed_arns evs)
  then [(topic, alert_message (Py.len (listed_arns evs)))]
  else [].

(** [obeys topic m]: whatever [m] does, what it appends obeys the rule. *)
Definition obeys {World A} (topic : option string) (m : M World A) : Prop :=
  forall s s' o, m s = (s', o) ->
    exists evs, trace s' = trace s ++ evs /\ alert_rule topic evs.

(** ** More vocabulary: discovery and provisioning *)

(** The image of every running instance, reservation after reservation,
    with repetitions. *)
Definition images_of (reservations : list reservation) : list string :=
  flat_map (fun reservation => map ImageId (Instances reservation)) reservations.

(** Two reservations that run the same image, and a third image. *)
Definition sim_shared_images : sim :=
  sim_world ["ami-1"; "ami-2"; "ami-1"; "ami-3"; "ami-2"] (Some 0) 0.

(** ** More vocabulary: the poll loop *)

(** The seconds slept in all. *)
Definition slept (tr : list event) : Z :=
  fold_right Z.add 0
    (flat_map (fun ev => match ev with ESleep seconds => [seconds] | _ => [] end) tr).

(** What the poll loop may append: polls of the run [arn], log lines and
    sleeps. *)
Definition poll_event (arn : string) (ev : event) : Prop :=
  match ev with
  | EDescribeAssessmentRuns arns _ => arns = [arn]
  | ELog _ _ | ESleep _ => True
  | _ => False
  end.

(** The events of a round that goes on to the next: a poll that was
    answered without a completed run of [day], the log line and the
    sleep. *)
Definition poll_unfinished (day : date) (ev : event) : Prop :=
  match ev with
  | EDescribeAssessmentRuns _ (Ok response) =>
      existsb (completed_today day) (assessmentRuns response) = false
  | ELog INFO m => m = "Inspector scan not completed yet. Waiting 60 seconds."
  | ESleep z => z = 60
  | _ => False
  end.

(** What a trace of the poll loop looks like for each way it can end:
    rounds that go on, and then the poll that saw a completed run of
    [day], the poll that raised, or the line that gives up. *)
Definition poll_loop_outcome (arn : string) (day : date) (rounds : nat) (evs : list event)
    (o : outcome bool) : Prop :=
  match o with
  | Return true =>
      (polls evs <= rounds)%nat /\ S (sleeps evs) = polls evs /\ logged ERROR evs = [] /\
      exists pre response,
        evs = pre ++ [EDescribeAssessmentRuns [arn] (Ok response);
                      ELog INFO "Inspector scan completed"] /\
        existsb (completed_today day) (assessmentRuns response) = true /\
        Forall (poll_unfinished day) pre
  | Return false =>
      polls evs = rounds /\ sleeps evs = rounds /\
      logged ERROR evs = ["Exceeded inspector max wait"] /\
      exists pre,
        evs = pre ++ [ELog ERROR "Exceeded inspector max wait"] /\
        Forall (poll_unfinished day) pre
  | Raise e =>
      (polls evs <= rounds)%nat /\ S (sleeps evs) = polls evs /\ logged ERROR evs = [] /\
      exists pre,
        evs = pre ++ [EDescribeAssessmentRuns [arn] (Err e)] /\
        Forall (poll_unfinished day) pre
  | OutOfFuel => False
  end.

(** The describe call raises from the third poll on. *)
Definition sim_flaky_inspector : inspector_client sim := {|
  start_assessment_run := start_assessment_run sim_inspector;
  describe_assessment_runs := fun arns w =>
    if 120 <=? sim_slept w then (w, Err (ClientError "ThrottlingException"))
    else describe_assessment_runs sim_inspector arns w;
  list_findings := list_findings sim_inspector;
  describe_findings := describe_findings sim_inspector |}.

(** ** More vocabulary: listing and batches *)

(** What the listing loop may append: page requests for the run [arn]
    with the filter [ff], 500 identifiers at most per page. *)
Definition page_event (arn : string) (ff : finding_filter_t) (ev : event) : Prop :=
  match ev with
  | EListFindings req _ => exists tok, req = list_findings_page arn ff tok
  | _ => False
  end.

(** What a trace of the listing loop looks like for each way it can end,
    [fuel] being the number of rounds allowed. *)
Definition listing_outcome (fuel : nat) (evs : list event) (o : outcome (list string)) : Prop :=
  match o with
  | Return finding_arns =>
      finding_arns = listed_arns evs /\
      exists pre req r,
        evs = pre ++ [EListFindings req (Ok r)] /\
        Py.truthy_opt_str (nextToken r) = false /\ listing_done pre = false
  | Raise e =>
      exists pre req, evs = pre ++ [EListFindings req (Err e)] /\ listing_done pre = false
  | OutOfFuel =>
      listing_done evs = false /\ List.length (page_requests evs) = fuel
  end.

(** A listing that hands out a continuation token with every page. *)
Definition sim_endless_inspector : inspector_client sim := {|
  start_assessment_run := start_assessment_run sim_inspector;
  describe_assessment_runs := describe_assessment_runs sim_inspector;
  list_findings := fun req w => (w, Ok {| findingArns := ["arn-again"]; nextToken := Some "more" |});
  describe_findings := describe_findings sim_inspector |}.

(** A listing whose second page request is refused. *)
Definition sim_refusing_inspector : inspector_client sim := {|
  start_assessment_run := start_assessment_run sim_inspector;
  describe_assessment_runs := describe_assessment_runs sim_inspector;
  list_findings := fun req w =>
    match lf_nextToken req with
    | None => list_findings sim_inspector req w
    | Some _ => (w, Err (ClientError "AccessDeniedException"))
    end;
  describe_findings := describe_findings sim_inspector |}.

(** The batches [retrieve_findings] sends for a list, in order. *)
Definition batches (finding_arns : list string) : list (list string) :=
  map (batch_of finding_arns) (Py.range0 (Py.ceil_div (Py.len finding_arns) 100)).

(** The finding details received, call after call. *)
Definition detail_findings (tr : list event) : list finding :=
  flat_map (fun ev => match ev with EDescribeFindings _ (Ok r) => findings r | _ => [] end) tr.

(** A detail service that refuses its second call. *)
Definition sim_refusing_details : inspector_client sim := {|
  start_assessment_run := start_assessment_run sim_inspector;
  describe_assessment_runs := describe_assessment_runs sim_inspector;
  list_findings := list_findings sim_inspector;
  describe_findings := fun arns w =>
    if Py.str_in "arn-0" arns then describe_findings sim_inspector arns w
    else (w, Err (ClientError "InternalException")) |}.

(** ** More vocabulary: the run as a whole *)

(** Launch events and the line printed after them. *)
Definition launch_or_print (ev : event) : bool :=
  match ev with
  | ERunInstances _ _ | EPrint _ => true
  | _ => false
  end.

(** The distinct images of the discovery answers on a trace. *)
Definition discovered (tr : list event) : list string :=
  flat_map (fun ev => match ev with
                      | EDescribeInstances (Ok r) => distinct_images (Reservations r)
                      | _ => []
                      end) tr.

(** The answers to the termination calls, in order. *)
Definition terminate_replies (tr : list event) : list (reply unit) :=
  flat_map (fun ev => match ev with ETerminateInstances _ r => [r] | _ => [] end) tr.

(** The ways a run of [main] can go, phase by phase: [tr] is its trace
    and [o] its outcome. *)
Inductive main_phases {World : Type} (os : host World) (fuel : nat)
    (tr : list event) (o : outcome unit) : Prop :=
| DiscoveryRaised e :
    tr = [ELog INFO "Fetching AMIs in use"; EDescribeInstances (Err e)] ->
    o = Raise e ->
    main_phases os fuel tr o
| NothingToScan response :
    distinct_images (Reservations response) = [] ->
    tr = [ELog INFO "Fetching AMIs in use"; EDescribeInstances (Ok response);
          ELog CRITICAL "No AMIs found"] ->
    o = Raise (SystemExit 1) ->
    main_phases os fuel tr o
| LaunchRaised response launches accepted req e (n : nat) :
    distinct_images (Reservations response) <> [] ->
    tr = [ELog INFO "Fetching AMIs in use"; EDescribeInstances (Ok response);
          ELog INFO ("Starting EC2 instances with AMIs: "
                     +s+ Py.repr_list_str (distinct_images (Reservations response)))]
         ++ launches ->
    launches = accepted ++ [ERunInstances req (Err e)] ->
    launch_failed accepted = false ->
    forallb launch_or_print launches = true ->
    launch_requests launches =
      map (fun ami => launch_request instance_type ami user_data tags
                        (environ os "INSTANCE_SUBNET_ID")
                        (environ os "INSTANCE_SECURITY_GROUP"))
          (firstn n (distinct_images (Reservations response))) ->
    o = Raise e ->
    main_phases os fuel tr o
| BodyEntered response launches body ob s2 s3 (after : list event) :
    distinct_images (Reservations response) <> [] ->
    tr = [ELog INFO "Fetching AMIs in use"; EDescribeInstances (Ok response);
          ELog INFO ("Starting EC2 instances with AMIs: "
                     +s+ Py.repr_list_str (distinct_images (Reservations response)))]
         ++ launches ++ body ++ after ->
    launch_failed launches = false ->
    forallb launch_or_print launches = true ->
    launch_requests launches =
      map (fun ami => launch_request instance_type ami user_data tags
                        (environ os "INSTANCE_SUBNET_ID")
                        (environ os "INSTANCE_SECURITY_GROUP"))
          (distinct_images (Reservations response)) ->
    scan_and_alert os fuel (boto3_ec2 os (default_region os))
      (boto3_inspector os (default_region os)) (boto3_sns os (default_region os))
      (environ os "SNS_ALERT_TOPIC_ARN") (environ os "INSPECTOR_ASSESSMENT_TEMPLATE")
      (launched_ids launches) s2 = (s3, ob) ->
    trace s3 = trace s2 ++ body ->
    (ob = OutOfFuel /\ after = [] /\ o = OutOfFuel \/
     ob <> OutOfFuel /\
     exists r, after = [ELog INFO "Tearing down EC2 instances";
                        ETerminateInstances (launched_ids launches) r] /\
               o = match r with Ok _ => ob | Err e => Raise e end) ->
    tr = trace s3 ++ after ->
    main_phases os fuel tr o.

(** The exception a call event was answered with, if any. *)
Definition reply_error (ev : event) : option exn :=
  match ev with
  | EDescribeInstances (Err e) | ERunInstances _ (Err e) | ETerminateInstances _ (Err e)
  | EWaitStatusOk _ (Err e) | EStartAssessmentRun _ _ (Err e)
  | EDescribeAssessmentRuns _ (Err e) | EListFindings _ (Err e)
  | EDescribeFindings _ (Err e) | EPublish _ _ (Err e) => Some e
  | _ => None
  end.

(** The exceptions the calls of a trace raised, in order. *)
Definition errors (tr : list event) : list exn :=
  flat_map (fun ev => match reply_error ev with Some e => [e] | None => [] end) tr.

(** Calls to a service, as opposed to log lines, prints and sleeps. *)
Definition is_call (ev : event) : bool :=
  match ev with
  | ELog _ _ | EPrint _ | ESleep _ => false
  | _ => true
  end.

(** The service calls made after the first call that raised. *)
Fixpoint calls_after_first_error (tr : list event) : list event :=
  match tr with
  | [] => []
  | ev :: rest =>
      match reply_error ev with
      | Some _ => List.filter is_call rest
      | None => calls_after_first_error rest
      end
  end.

(** [fails_fast m]: whatever [m] does, it raises exactly when a call
    raised, with the exception of that call, and that call is the last
    thing it did; otherwise no call raised. *)
Definition fails_fast {World A} (m : M World A) : Prop :=
  forall s s' o, m s = (s', o) ->
    exists evs, trace s' = trace s ++ evs /\
      match o with
      | Raise e =>
          exists pre ev, evs = pre ++ [ev] /\ reply_error ev = Some e /\ errors pre = []
      | _ => errors evs = []
      end.

(** The phase of the run a call belongs to; log lines and prints belong
    to none.  [describe_findings] has no place in a run of [main]. *)
Definition phase (ev : event) : option nat :=
  match ev with
  | EDescribeInstances _ => Some 1%nat
  | ERunInstances _ _ => Some 2%nat
  | EWaitStatusOk _ _ => Some 3%nat
  | EStartAssessmentRun _ _ _ => Some 4%nat
  | EDescribeAssessmentRuns _ _ | ESleep _ => Some 5%nat
  | EListFindings _ _ => Some 6%nat
  | EPublish _ _ _ => Some 7%nat
  | ETerminateInstances _ _ => Some 8%nat
  | EDescribeFindings _ _ => Some 0%nat
  | ELog _ _ | EPrint _ => None
  end.

(** The phases made of a loop: launching, polling, listing. *)
Definition repeatable (p : nat) : bool :=
  Nat.eqb p 2 || Nat.eqb p 5 || Nat.eqb p 6.

(** [in_order lo evs]: the phases of [evs] come in increasing order
    above [lo], a phase being repeated only if it is a loop. *)
Fixpoint in_order (lo : nat) (evs : list event) : bool :=
  match evs with
  | [] => true
  | ev :: rest =>
      match phase ev with
      | None => in_order lo rest
      | Some p => (Nat.ltb lo p || (Nat.eqb lo p && repeatable p)) && in_order p rest
      end
  end.

(** The phase a trace ends in, starting from [lo]. *)
Fixpoint last_phase (lo : nat) (evs : list event) : nat :=
  match evs with
  | [] => lo
  | ev :: rest =>
      match phase ev with
      | None => last_phase lo rest
      | Some p => last_phase p rest
      end
  end.

(** [within lo hi m]: whatever [m] does after phase [lo], its calls come
    in phase order and end in phase [hi] at the latest. *)
Definition within {World A} (lo hi : nat) (m : M World A) : Prop :=
  forall s s' o, m s = (s', o) ->
    exists evs, trace s' = trace s ++ evs /\
      in_order lo evs = true /\ (last_phase lo evs <= hi)%nat.

(** The name given to the assessment run started on day [d]. *)
Definition scan_name (d : date) : string := "running-amis-scheduled-scan-" +s+ date_str d.

(** The events of the body of the [try] up to a successful readiness
    wait, and up to a successful scan start. *)
Definition waited (ids : list string) : list event :=
  [ELog INFO ("Started instances " +s+ Py.repr_list_str ids);
   ELog INFO ("Awaiting " +s+ Py.repr_list_str ids);
   EWaitStatusOk ids (Ok tt)].

Definition started (template : option string) (ids : list string) (d : date) (arn : string)
    : list event :=
  waited ids ++
  [ELog INFO "Starting Inspector run";
   EStartAssessmentRun template (scan_name d) (Ok arn);
   ELog INFO "Awaiting Inspector results"].

(** What follows the listing, for each way the listing can end. *)
Definition alert_outcome (topic : option string) (arn : string)
    (listing : outcome (list string)) (alertevs : list event) (o : outcome unit) : Prop :=
  match listing with
  | Return [] =>
      alertevs = [ELog INFO ("No findings found for assessment run " +s+ arn)] /\ o = Return tt
  | Return (a :: l) =>
      exists r,
        alertevs = [ELog INFO "Publishing amount of high findings";
                    EPublish topic (alert_message (Py.len (a :: l))) r] /\
        o = match r with Ok _ => Return tt | Err e => Raise e end
  | Raise e => alertevs = [] /\ o = Raise e
  | OutOfFuel => alertevs = [] /\ o = OutOfFuel
  end.

(** The ways the body of the [try] can go, step by step: [evs] is what
    it appends to the trace and [o] its outcome. *)
Inductive body_phases (fuel : nat) (template topic : option string) (ids : list string)
    (evs : list event) (o : outcome unit) : Prop :=
| WaitRaised e :
    evs = [ELog INFO ("Started instances " +s+ Py.repr_list_str ids);
           ELog INFO ("Awaiting " +s+ Py.repr_list_str ids);
           EWaitStatusOk ids (Err e)] ->
    o = Raise e ->
    body_phases fuel template topic ids evs o
| StartRaised d e :
    evs = waited ids ++ [ELog INFO "Starting Inspector run";
                         EStartAssessmentRun template (scan_name d) (Err e)] ->
    o = Raise e ->
    body_phases fuel template topic ids evs o
| PollRaised d arn day pollevs e :
    evs = started template ids d arn ++ pollevs ->
    Forall (poll_event arn) pollevs ->
    poll_loop_outcome arn day 121 pollevs (Raise e) ->
    o = Raise e ->
    body_phases fuel template topic ids evs o
| Collected d arn day pollevs (polled : bool) listevs listing alertevs :
    evs = started template ids d arn ++ pollevs
          ++ ELog INFO "Retrieving findings" :: listevs ++ alertevs ->
    Forall (poll_event arn) pollevs ->
    poll_loop_outcome arn day 121 pollevs (Return polled) ->
    Forall (page_event arn finding_filter) listevs ->
    listing_outcome fuel listevs listing ->
    alert_outcome topic arn listing alertevs o ->
    body_phases fuel template topic ids evs o.

(** A scan that has failed: the run of the day is listed in state
    FAILED, for ever. *)
Definition sim_failed_inspector : inspector_client sim := {|
  start_assessment_run := start_assessment_run sim_inspector;
  describe_assessment_runs := fun arns w =>
    (w, Ok {| assessmentRuns := [ {| createdAt := mk_datetime sim_day 0; state := "FAILED" |} ] |});
  list_findings := list_findings sim_inspector;
  describe_findings := describe_findings sim_inspector |}.

(** * Properties *)

(** ** Reasoning about runs *)

Section Runs.

Context {World : Type}.

Lemma emits_ret {A} p (a : A) : emits (World := World) p (ret a).
Proof. intros s s' o [= <- <-]. exists []. now rewrite app_nil_r. Qed.

Lemma emits_raise {A} p e : emits p (@raise World A e).
Proof. intros s s' o [= <- <-]. exists []. now rewrite app_nil_r. Qed.

Lemma emits_out_of_fuel {A} p : emits p (@out_of_fuel World A).
Proof. intros s s' o [= <- <-]. exists []. now rewrite app_nil_r. Qed.

Lemma emits_emit p ev : p ev = true -> emits p (@emit World ev).
Proof.
  intros Hp s s' o [= <- <-]. exists [ev]. cbn. now rewrite Hp.
Qed.

Lemma emits_call {A} p (f : api World A) mk :
  (forall r, p (mk r) = true) -> emits p (call f mk).
Proof.
  intros Hp s s' o. unfold call. destruct (f (world s)) as [w r].
  destruct r; intros [= <- <-]; eexists [_]; cbn; now rewrite Hp.
Qed.

Lemma emits_bind {A B} p (m : M World A) (k : A -> M World B) :
  emits p m -> (forall a, emits p (k a)) -> emits p (bind m k).
Proof.
  intros Hm Hk s s' o. unfold bind.
  destruct (m s) as [s1 o1] eqn:E1. destruct (Hm _ _ _ E1) as (evs1 & T1 & F1).
  destruct o1 as [a|e|].
  - intros E2. destruct (Hk a _ _ _ E2) as (evs2 & T2 & F2).
    exists (evs1 ++ evs2). rewrite T2, T1, app_assoc, forallb_app, F1, F2. now split.
  - intros [= <- <-]. now exists evs1.
  - intros [= <- <-]. now exists evs1.
Qed.

Lemma emits_try_finally {A} p (body : M World A) handler :
  emits p body -> emits p handler -> emits p (try_finally body handler).
Proof.
  intros Hb Hh s s' o. unfold try_finally.
  destruct (body s) as [s1 o1] eqn:E1. destruct (Hb _ _ _ E1) as (evs1 & T1 & F1).
  assert (Hrun : forall s2 (oh : outcome unit), handler s1 = (s2, oh) ->
            exists evs, trace s2 = trace s ++ evs /\ forallb p evs = true).
  { intros s2 oh E2. destruct (Hh _ _ _ E2) as (evs2 & T2 & F2).
    exists (evs1 ++ evs2). rewrite T2, T1, app_assoc, forallb_app, F1, F2. now split. }
  destruct (handler s1) as [s2 oh] eqn:E2. specialize (Hrun _ _ eq_refl).
  destruct o1; [ | | intros [= <- <-]; now exists evs1];
    destruct oh; intros [= <- <-]; exact Hrun.
Qed.

Lemma emits_if {A} p (b : bool) (m1 m2 : M World A) :
  emits p m1 -> emits p m2 -> emits p (if b then m1 else m2).
Proof. now destruct b. Qed.

End Runs.

Create HintDb emits.

#[local] Hint Resolve emits_ret emits_raise emits_out_of_fuel emits_emit emits_call
  emits_try_finally emits_if : emits.

Ltac emits_steps :=
  repeat first
    [ solve [ auto with emits ]
    | apply emits_bind; [ | intros ? ]
    | apply emits_if
    | apply emits_call; intros ? ].

(** A projection of the trace is empty when no event of the run has a
    part in it. *)
Lemma flat_map_none {A} (f : event -> list A) (p : event -> bool) evs :
  (forall ev, p ev = true -> f ev = []) ->
  forallb p evs = true -> flat_map f evs = [].
Proof.
  intros Hf. induction evs as [|ev evs IH]; cbn; [reflexivity|].
  intros [Hp Hall]%andb_prop. now rewrite (Hf _ Hp), IH.
Qed.

Lemma existsb_none (q p : event -> bool) evs :
  (forall ev, p ev = true -> q ev = false) ->
  forallb p evs = true -> existsb q evs = false.
Proof.
  intros Hq. induction evs as [|ev evs IH]; cbn; [reflexivity|].
  intros [Hp Hall]%andb_prop. now rewrite (Hq _ Hp), IH.
Qed.

(** ** Which events each function can append *)

Section Emits.

Context {World : Type}.
Variable os : host World.
Variable p : event -> bool.

Hypothesis p_log : forall l m, p (ELog l m) = true.
Hypothesis p_print : forall t, p (EPrint t) = true.
Hypothesis p_sleep : forall z, p (ESleep z) = true.
Hypothesis p_describe_instances : forall r, p (EDescribeInstances r) = true.
Hypothesis p_run_instances : forall req r, p (ERunInstances req r) = true.
Hypothesis p_terminate : forall ids r, p (ETerminateInstances ids r) = true.
Hypothesis p_wait : forall ids r, p (EWaitStatusOk ids r) = true.
Hypothesis p_start : forall t n r, p (EStartAssessmentRun t n r) = true.
Hypothesis p_poll : forall arns r, p (EDescribeAssessmentRuns arns r) = true.
Hypothesis p_list : forall req r, p (EListFindings req r) = true.
Hypothesis p_details : forall arns r, p (EDescribeFindings arns r) = true.
Hypothesis p_publish : forall t m r, p (EPublish t m r) = true.

Lemma log_emits l m : emits p (@log World l m).
Proof. apply emits_emit, p_log. Qed.

Lemma print_emits t : emits p (@print World t).
Proof. apply emits_emit, p_print. Qed.

Lemma time_sleep_emits z : emits p (time_sleep os z).
Proof.
  intros s s' o [= <- <-]. exists [ESleep z]. cbn. now rewrite p_sleep.
Qed.

Lemma today_date_emits : emits p (today_date os).
Proof. intros s s' o [= <- <-]. exists []. now rewrite app_nil_r. Qed.

Hint Resolve log_emits print_emits time_sleep_emits today_date_emits : emits.

Lemma fetch_amis_emits ec2 : emits p (@fetch_amis World ec2).
Proof. unfold fetch_amis. emits_steps. Qed.

Lemma launch_each_emits ec2 ty amis ud tg sn sg acc :
  emits p (@launch_each World ec2 ty amis ud tg sn sg acc).
Proof.
  revert acc. induction amis as [|ami rest IH]; intros acc; cbn [launch_each]; emits_steps.
Qed.

Lemma start_ec2_intances_emits ec2 ty amis ud tg sn sg :
  emits p (@start_ec2_intances World ec2 ty amis ud tg sn sg).
Proof.
  unfold start_ec2_intances. apply emits_bind; [apply launch_each_emits|intros]. emits_steps.
Qed.

Lemma terminate_ec2_instances_emits ec2 ids : emits p (@terminate_ec2_instances World ec2 ids).
Proof. unfold terminate_ec2_instances. emits_steps. Qed.

Lemma start_inspector_scan_emits inspector template :
  emits p (start_inspector_scan os inspector template).
Proof. unfold start_inspector_scan. emits_steps. Qed.

Lemma for_run_in_emits runs : emits p (@for_run_in World runs).
Proof.
  induction runs as [|r rest IH]; cbn [for_run_in]; emits_steps.
Qed.

Lemma poll_once_emits inspector arn day : emits p (@poll_once World inspector arn day).
Proof. pose proof for_run_in_emits. unfold poll_once. emits_steps. Qed.

Lemma wait_a_while_trace s :
  trace (wait_a_while os s) =
  trace s ++ [ELog INFO "Inspector scan not completed yet. Waiting 60 seconds."; ESleep 60].
Proof. cbn. now rewrite <- app_assoc. Qed.

Lemma await_loop_emits inspector arn day total_wait :
  emits p (await_loop os inspector arn day total_wait).
Proof.
  intros s. funelim (await_loop os inspector arn day total_wait s); intros s' o;
    clear Heqcall;
    match goal with
    | E : poll_once _ _ _ _ = _ |- _ =>
        destruct (poll_once_emits _ _ _ _ _ _ E) as (evs1 & T1 & F1)
    end.
  - intros [= <- <-]. now exists evs1.
  - intros [= <- <-]. now exists evs1.
  - intros [= <- <-]. now exists evs1.
  - unfold bind, log, emit, ret, record_event. intros [= <- <-].
    cbn [trace]. rewrite T1.
    eexists. rewrite <- !app_assoc. split; [reflexivity|].
    rewrite forallb_app, F1. cbn. now rewrite !p_log, p_sleep.
  - intros E.
    match goal with IH : forall s' o, _ -> exists _, _ |- _ =>
      destruct (IH _ _ E) as (evs2 & T2 & F2) end.
    rewrite wait_a_while_trace, T1 in T2.
    eexists. rewrite T2, <- !app_assoc. split; [reflexivity|].
    rewrite !forallb_app, F1, F2. cbn. now rewrite p_log, p_sleep.
Qed.

Lemma await_inspector_results_emits inspector arn day :
  emits p (await_inspector_results os inspector arn day).
Proof. apply await_loop_emits. Qed.

Lemma list_pages_emits fuel inspector arn ff acc tok :
  emits p (@list_pages World fuel inspector arn ff acc tok).
Proof.
  revert acc tok. induction fuel as [|fuel IH]; intros acc tok; cbn [list_pages]; emits_steps.
Qed.

Lemma retrieve_finding_arns_emits fuel inspector arn ff :
  emits p (@retrieve_finding_arns World fuel inspector arn ff).
Proof. apply list_pages_emits. Qed.

Lemma describe_each_emits inspector arns indices acc :
  emits p (@describe_each World inspector arns indices acc).
Proof.
  revert acc. induction indices as [|i rest IH]; intros acc; cbn [describe_each]; emits_steps.
Qed.

Lemma publish_finding_data_emits sns topic message :
  emits p (@publish_finding_data World sns topic message).
Proof. unfold publish_finding_data. emits_steps. Qed.

Hint Resolve fetch_amis_emits start_ec2_intances_emits terminate_ec2_instances_emits
  start_inspector_scan_emits await_inspector_results_emits retrieve_finding_arns_emits
  publish_finding_data_emits : emits.

Lemma alert_on_emits sns topic arn arns : emits p (@alert_on World sns topic arn arns).
Proof. unfold alert_on. emits_steps. Qed.

Lemma collect_and_alert_emits fuel inspector sns topic arn :
  emits p (@collect_and_alert World fuel inspector sns topic arn).
Proof. pose proof alert_on_emits. unfold collect_and_alert. emits_steps. Qed.

Lemma scan_and_alert_emits fuel ec2 inspector sns topic template ids :
  emits p (scan_and_alert os fuel ec2 inspector sns topic template ids).
Proof. pose proof collect_and_alert_emits. unfold scan_and_alert. emits_steps. Qed.

Lemma tear_down_emits ec2 ids : emits p (@tear_down World ec2 ids).
Proof. unfold tear_down. emits_steps. Qed.

Lemma main_emits fuel : emits p (main os fuel).
Proof.
  pose proof scan_and_alert_emits. pose proof tear_down_emits.
  unfold main, sys_exit. emits_steps.
Qed.

End Emits.

(** ** Stepping through a sequence *)

Lemma bind_run {World A B} (m : M World A) (k : A -> M World B) s s' o :
  bind m k s = (s', o) ->
  (exists s1 a, m s = (s1, Return a) /\ k a s1 = (s', o)) \/
  (exists e, m s = (s', Raise e) /\ o = Raise e) \/
  (m s = (s', OutOfFuel) /\ o = OutOfFuel).
Proof.
  unfold bind. destruct (m s) as [s1 [a|e|]].
  - intros E. left. now exists s1, a.
  - intros [= <- <-]. right; left. now exists e.
  - intros [= <- <-]. right; right. now split.
Qed.

Lemma log_run {World} l m (s : State World) :
  log l m s = (mk_state (world s) (trace s ++ [ELog l m]), Return tt).
Proof. reflexivity. Qed.

Lemma no_instance_change_launch_requests evs :
  forallb no_instance_change evs = true -> launch_requests evs = [].
Proof. apply flat_map_none. now intros []. Qed.

Lemma no_instance_change_launched_ids evs :
  forallb no_instance_change evs = true -> launched_ids evs = [].
Proof. apply flat_map_none. now intros []. Qed.

Lemma no_instance_change_terminate_calls evs :
  forallb no_instance_change evs = true -> terminate_calls evs = [].
Proof. apply flat_map_none. now intros []. Qed.

Lemma no_instance_change_launch_failed evs :
  forallb no_instance_change evs = true -> launch_failed evs = false.
Proof. apply existsb_none. now intros []. Qed.

(** *** Provisioning *)

Section Provisioning.

Context {World : Type}.
Variable ec2 : ec2_client World.

(** The launch loop appends launch events only.  It returns exactly when
    no launch was rejected, and then the responses it returns are the ones
    on the trace; a rejected launch ends it with that exception. *)
Lemma launch_each_spec ty amis ud tg sn sg acc s s' o :
  launch_each ec2 ty amis ud tg sn sg acc s = (s', o) ->
  exists evs, trace s' = trace s ++ evs /\
    terminate_calls evs = [] /\
    match o with
    | Return instances =>
        launch_failed evs = false /\
        flat_map (fun il => map InstanceId (launched il)) instances =
        flat_map (fun il => map InstanceId (launched il)) acc ++ launched_ids evs
    | Raise _ => launch_failed evs = true
    | OutOfFuel => False
    end.
Proof.
  revert acc s. induction amis as [|ami rest IH]; intros acc s; cbn [launch_each].
  - intros [= <- <-]. exists []. cbn. now rewrite !app_nil_r.
  - intros [(s1 & a & E1 & E2) | [(e & E1 & ->) | (E1 & ->)]]%bind_run;
      unfold call in E1;
      destruct (run_instances ec2 _ (world s)) as [w1 [r|e1]]; try discriminate;
      injection E1 as E1; subst.
    + destruct (IH _ _ E2) as (evs & T & Hterm & Ho). cbn [trace] in T.
      exists (ERunInstances (launch_request ty ami ud tg sn sg) (Ok a) :: evs).
      split; [now rewrite T, <- app_assoc|].
      cbn [app terminate_calls launch_failed launched_ids flat_map existsb orb].
      fold (terminate_calls evs). fold (launch_failed evs). fold (launched_ids evs).
      split; [exact Hterm|].
      destruct o as [instances|e|]; [|exact Ho|exact Ho].
      destruct Ho as [Hok Hids]. split; [exact Hok|].
      rewrite Hids, flat_map_app. cbn. now rewrite app_nil_r, <- app_assoc.
    + eexists [_]. cbn [trace]. split; [reflexivity|]. now cbn.
Qed.

(** Provisioning as a whole: when it returns, no launch was rejected and
    its result is every identifier the launches returned, in order; when a
    launch is rejected it raises, whatever was launched before. *)
Lemma start_ec2_intances_spec ty amis ud tg sn sg s s' o :
  start_ec2_intances ec2 ty amis ud tg sn sg s = (s', o) ->
  exists evs, trace s' = trace s ++ evs /\
    terminate_calls evs = [] /\
    match o with
    | Return instance_ids => launch_failed evs = false /\ instance_ids = launched_ids evs
    | Raise _ => launch_failed evs = true
    | OutOfFuel => False
    end.
Proof.
  unfold start_ec2_intances.
  intros [(s1 & instances & E1 & E2) | [(e & E1 & ->) | (E1 & ->)]]%bind_run;
    destruct (launch_each_spec _ _ _ _ _ _ _ _ _ _ E1) as (evs & T & Hterm & Ho).
  - cbn in E2. injection E2 as <- <-. unfold record_event. cbn [trace].
    exists (evs ++ [EPrint (Py.repr_list_str
              (flat_map (fun il => map InstanceId (launched il)) instances))]).
    rewrite T, app_assoc. split; [reflexivity|].
    destruct Ho as [Hok Hids].
    unfold terminate_calls, launch_failed, launched_ids in *.
    rewrite flat_map_app, existsb_app, flat_map_app, Hterm, Hok, Hids. cbn.
    now rewrite app_nil_r.
  - now exists evs.
  - now exists evs.
Qed.

End Provisioning.

Lemma bind_log {World A} l m (k : unit -> M World A) s :
  bind (log l m) k s = k tt (record_event (ELog l m) s).
Proof. reflexivity. Qed.

Lemma bind_returned {World A B} (m : M World A) (k : A -> M World B) s s1 a :
  m s = (s1, Return a) -> bind m k s = k a s1.
Proof. unfold bind. now intros ->. Qed.

Lemma bind_ret {World A B} (a : A) (k : A -> M World B) s : bind (ret a) k s = k a s.
Proof. reflexivity. Qed.

Lemma launch_requests_app a b : launch_requests (a ++ b) = launch_requests a ++ launch_requests b.
Proof. apply flat_map_app. Qed.

Lemma launched_ids_app a b : launched_ids (a ++ b) = launched_ids a ++ launched_ids b.
Proof. apply flat_map_app. Qed.

Lemma terminate_calls_app a b : terminate_calls (a ++ b) = terminate_calls a ++ terminate_calls b.
Proof. apply flat_map_app. Qed.

Lemma launch_failed_app a b : launch_failed (a ++ b) = launch_failed a || launch_failed b.
Proof. apply existsb_app. Qed.

(** *** The shape of a run of the entry point *)

Section MainShape.

Context {World : Type}.
Variable os : host World.

Lemma main_run_shape fuel w s' o :
  run (main os fuel) w = (s', o) -> main_shape (trace s') o.
Proof.
  unfold run, main. rewrite bind_log.
  set (ec2 := boto3_ec2 os (default_region os)).
  assert (Hfetch : emits no_instance_change (fetch_amis ec2))
    by (apply fetch_amis_emits; intros; reflexivity).
  intros [(s1 & amis & E1 & E) | [(e & E1 & ->) | (E1 & ->)]]%bind_run;
    destruct (Hfetch _ _ _ E1) as (evsF & TF & FF); cbn [trace record_event app] in TF.
  2,3: apply StoppedBeforeLaunch; rewrite TF; cbn; exact FF.
  destruct amis as [|ami amis].
  { cbn in E. injection E as <- <-. apply StoppedBeforeLaunch.
    unfold record_event. cbn [trace]. rewrite TF, forallb_app. cbn. now rewrite FF. }
  cbn [Py.truthy_list negb] in E. rewrite bind_ret, bind_log in E.
  apply bind_run in E as [(s2 & ids & E2 & E) | [(e & E2 & ->) | (E2 & ->)]];
    destruct (start_ec2_intances_spec _ _ _ _ _ _ _ _ _ _ E2) as (evsL & TL & HtL & HoL);
    cbn [trace record_event] in TL; rewrite TF in TL.
  3: contradiction.
  all: match type of TL with _ = ?X ++ _ => set (pre := X) in * end.
  all: assert (Fpre : forallb no_instance_change pre = true)
         by (subst pre; cbn; rewrite forallb_app, FF; reflexivity).
  2: { now apply LaunchRejected with (launches := evsL) (pre := pre). }
  destruct HoL as [HokL ->].
  unfold try_finally in E.
  match type of E with context [scan_and_alert ?a ?b ?c ?d ?e ?f ?g ?h s2] =>
    assert (Hbody : emits no_instance_change (scan_and_alert a b c d e f g h))
      by (apply scan_and_alert_emits; intros; reflexivity);
    destruct (scan_and_alert a b c d e f g h s2) as [s3 ob] eqn:E3
  end.
  destruct (Hbody _ _ _ E3) as (evsB & TB & FB).
  assert (Hshape : forall (s4 : State World) r,
            trace s4 = trace s3 ++ [ELog INFO "Tearing down EC2 instances";
                                    ETerminateInstances (launched_ids evsL) r] ->
            main_shape (trace s4) o).
  { intros s4 r T4.
    apply ToreDown with (pre := pre) (launches := evsL) (body := evsB) (r := r);
      [ | exact Fpre | exact HokL | exact HtL | exact FB].
    rewrite T4, TB, TL, <- !app_assoc. reflexivity. }
  unfold tear_down in E. rewrite bind_log in E.
  unfold terminate_ec2_instances, call in E. cbn [world record_event] in E.
  destruct (terminate_instances ec2 (launched_ids evsL) (world s3)) as [w4 r] eqn:E4.
  destruct ob as [[]|e|].
  3: { injection E as <- <-. now apply NeverFinished. }
  all: destruct r as [[]|e4]; injection E as <- <-; eapply Hshape; cbn [trace];
    rewrite <- app_assoc; reflexivity.
Qed.

End MainShape.

(** ** Teardown *)

(** X16.  On every run of the entry point that ends, in which
    at least one launch request was issued and none was rejected,
    [terminate_ec2_instances] is called exactly once, with all the
    instance identifiers the launches returned, however the body of the
    [try] ended (normally, or by an exception of the readiness wait, the
    scan start, the polling, the listing or the publishing). *)
Theorem teardown_once_when_provisioned {World} (os : host World) (fuel : nat) (w : World) :
  let r := run (main os fuel) w in
  snd r <> OutOfFuel ->
  launch_requests (trace (fst r)) <> [] ->
  launch_failed (trace (fst r)) = false ->
  terminate_calls (trace (fst r)) = [launched_ids (trace (fst r))].
Proof.
  intros r. subst r. destruct (run (main os fuel) w) as [s' o] eqn:E. cbn [fst snd].
  intros Hends Hlaunch Hok.
  destruct (main_run_shape os _ _ _ _ E)
    as [Hq | launches pre Htr Hpre Hrej | -> | pre launches body r Htr Hpre HokL HtL Hbody].
  - now rewrite (no_instance_change_launch_requests _ Hq) in Hlaunch.
  - rewrite Htr, launch_failed_app, Hrej, orb_true_r in Hok. discriminate.
  - contradiction.
  - rewrite Htr, !terminate_calls_app, !launched_ids_app.
    rewrite (no_instance_change_terminate_calls _ Hpre), (no_instance_change_launched_ids _ Hpre).
    rewrite (no_instance_change_terminate_calls _ Hbody), (no_instance_change_launched_ids _ Hbody).
    rewrite HtL. cbn. now rewrite app_nil_r.
Qed.

Lemma teardown_once_when_provisioned_witness :
  snd (run (main sim_host 5) sim_two_images) <> OutOfFuel /\
  launch_requests (trace (fst (run (main sim_host 5) sim_two_images))) <> [] /\
  launch_failed (trace (fst (run (main sim_host 5) sim_two_images))) = false /\
  terminate_calls (trace (fst (run (main sim_host 5) sim_two_images))) = [["i-0"; "i-1"]].
Proof.
  assert (H1 : snd (run (main sim_host 5) sim_two_images) <> OutOfFuel)
    by (vm_compute; discriminate).
  assert (H2 : launch_requests (trace (fst (run (main sim_host 5) sim_two_images))) <> [])
    by (vm_compute; discriminate).
  assert (H3 : launch_failed (trace (fst (run (main sim_host 5) sim_two_images))) = false)
    by (vm_compute; reflexivity).
  split; [exact H1|]. split; [exact H2|]. split; [exact H3|].
  rewrite (teardown_once_when_provisioned sim_host 5 sim_two_images H1 H2 H3).
  vm_compute. reflexivity.
Defined.

(** The readiness wait fails: the run ends with that exception, and the
    instances are terminated all the same. *)
Example teardown_after_failed_wait :
  let r := run (main sim_host 5) sim_never_ready in
  snd r = Raise (WaiterError "Max attempts exceeded") /\
  terminate_calls (trace (fst r)) = [["i-0"; "i-1"]].
Proof. vm_compute. split; reflexivity. Qed.

(** The alert cannot be published: the run ends with that exception,
    after the one termination call. *)
Example teardown_after_failed_publish :
  let r := run (main sim_host 5) sim_publish_refused in
  snd r = Raise (ClientError "AuthorizationError") /\
  exit_code (snd r) = Some 1 /\
  terminate_calls (trace (fst r)) = [["i-0"; "i-1"]].
Proof. vm_compute. repeat split. Qed.

(** C1, as stated, fails: a run with two launch requests of which the
    second is rejected makes no termination call, although one instance
    was launched. *)
Lemma teardown_missing_when_launch_rejected :
  let r := run (main sim_host 5) sim_second_launch_rejected in
  snd r = Raise (ClientError "InstanceLimitExceeded") /\
  List.length (launch_requests (trace (fst r))) = 2%nat /\
  launched_ids (trace (fst r)) = ["i-0"] /\
  terminate_calls (trace (fst r)) = [] /\
  terminate_calls (trace (fst r)) <> [launched_ids (trace (fst r))].
Proof. vm_compute. repeat split; try reflexivity. discriminate. Qed.

(** ** No images, no run *)

(** C9.  When image discovery finds no image, the script exits with
    status 1 before provisioning: no launch request and no termination
    call is made. *)
Theorem no_images_exit_without_provisioning {World} (os : host World) (fuel : nat)
    (w w1 : World) (response : describe_instances_response) :
  describe_instances (boto3_ec2 os (default_region os)) w = (w1, Ok response) ->
  distinct_images (Reservations response) = [] ->
  let r := run (main os fuel) w in
  fetch_amis (boto3_ec2 os (default_region os))
    (mk_state w [ELog INFO "Fetching AMIs in use"]) =
    (mk_state w1 [ELog INFO "Fetching AMIs in use"; EDescribeInstances (Ok response)], Return []) /\
  snd r = Raise (SystemExit 1) /\
  exit_code (snd r) = Some 1 /\
  launch_requests (trace (fst r)) = [] /\
  terminate_calls (trace (fst r)) = [] /\
  trace (fst r) = [ELog INFO "Fetching AMIs in use"; EDescribeInstances (Ok response);
                   ELog CRITICAL "No AMIs found"].
Proof.
  intros Hcall Hnone r. subst r.
  assert (Hfetch : fetch_amis (boto3_ec2 os (default_region os))
            (mk_state w [ELog INFO "Fetching AMIs in use"]) =
          (mk_state w1 [ELog INFO "Fetching AMIs in use"; EDescribeInstances (Ok response)],
           Return [])).
  { unfold fetch_amis, bind, call. cbn [world trace]. rewrite Hcall. cbn. now rewrite Hnone. }
  split; [exact Hfetch|].
  unfold run, main. rewrite bind_log. unfold record_event. cbn [world trace app].
  rewrite (bind_returned _ _ _ _ _ Hfetch). cbn. repeat split; reflexivity.
Qed.

Lemma no_images_exit_without_provisioning_witness :
  exit_code (snd (run (main sim_host 5) sim_no_images)) = Some 1 /\
  launch_requests (trace (fst (run (main sim_host 5) sim_no_images))) = [] /\
  terminate_calls (trace (fst (run (main sim_host 5) sim_no_images))) = [].
Proof.
  destruct (no_images_exit_without_provisioning sim_host 5 sim_no_images sim_no_images
              {| Reservations := [ {| Instances := [] |} ] |} eq_refl eq_refl)
    as (_ & _ & Hexit & Hlaunch & Hterm & _).
  exact (conj Hexit (conj Hlaunch Hterm)).
Defined.

(** ** The poll loop *)

Lemma geb_below a b : a < b -> (a >=? b) = false.
Proof. intros H. rewrite Z.geb_leb. now apply Z.leb_gt. Qed.

Lemma geb_reached a b : a >= b -> (a >=? b) = true.
Proof. intros H. rewrite Z.geb_leb. apply Z.leb_le. lia. Qed.

Section Polling.

Context {World : Type}.
Variable os : host World.
Variable inspector : inspector_client World.
Variable assessment_run_arn : string.
Variable day : date.

(** One round of the while loop, written out. *)
Lemma await_loop_round total_wait s :
  await_loop os inspector assessment_run_arn day total_wait s =
  match poll_once inspector assessment_run_arn day s with
  | (s1, Return (Some b)) => (s1, Return b)
  | (s1, Return None) =>
      if total_wait + sleep_time >=? max_total_wait
      then (log ERROR "Exceeded inspector max wait" ;; ret false) (wait_a_while os s1)
      else await_loop os inspector assessment_run_arn day (total_wait + sleep_time)
             (wait_a_while os s1)
  | (s1, Raise e) => (s1, Raise e)
  | (s1, OutOfFuel) => (s1, OutOfFuel)
  end.
Proof.
  funelim (await_loop os inspector assessment_run_arn day total_wait s); clear Heqcall;
    match goal with E : poll_once _ _ _ _ = _ |- _ => rewrite E end;
    try reflexivity;
    match goal with E : (_ >=? _) = _ |- _ => rewrite E end; reflexivity.
Qed.

Lemma for_run_in_run runs (s : State World) :
  for_run_in runs s =
  if existsb (fun x => is_terminal_state (state x)) runs
  then (record_event (ELog INFO "Inspector scan completed") s, Return (Some true))
  else (s, Return None).
Proof.
  induction runs as [|x rest IH]; cbn [for_run_in existsb]; [reflexivity|].
  destruct (is_terminal_state (state x)); cbn [orb]; [reflexivity|exact IH].
Qed.

Lemma existsb_filter {A} (f g : A -> bool) l :
  existsb g (List.filter f l) = existsb (fun x => f x && g x) l.
Proof.
  induction l as [|x l IH]; cbn; [reflexivity|].
  destruct (f x); cbn; now rewrite IH.
Qed.

(** One poll that is answered: the call is recorded, only the records
    created on [day] are looked at, and the poll returns [True] exactly
    when one of them is in a terminal state.  Nothing else is logged,
    whatever the filter left. *)
Lemma poll_once_answered w w1 response tr :
  describe_assessment_runs inspector [assessment_run_arn] w = (w1, Ok response) ->
  poll_once inspector assessment_run_arn day (mk_state w tr) =
  if existsb (completed_today day) (assessmentRuns response)
  then (mk_state w1 (tr ++ [EDescribeAssessmentRuns [assessment_run_arn] (Ok response);
                            ELog INFO "Inspector scan completed"]),
        Return (Some true))
  else (mk_state w1 (tr ++ [EDescribeAssessmentRuns [assessment_run_arn] (Ok response)]),
        Return None).
Proof.
  intros Hcall. unfold poll_once, bind, call. cbn [world trace]. rewrite Hcall.
  cbn [Py.truthy_filter negb ret Py.filter Py.filter_items].
  rewrite for_run_in_run, existsb_filter. fold (completed_today day).
  unfold completed_today at 1.
  destruct (existsb _ (assessmentRuns response)); [|reflexivity].
  unfold record_event. cbn [world trace]. now rewrite <- app_assoc.
Qed.

Lemma polls_app a b : polls (a ++ b) = (polls a + polls b)%nat.
Proof. unfold polls. now rewrite flat_map_app, length_app. Qed.

Lemma sleeps_app a b : sleeps (a ++ b) = (sleeps a + sleeps b)%nat.
Proof. unfold sleeps. now rewrite flat_map_app, length_app. Qed.

(** The loop from any round on, when the terminal state is first seen
    [k] rounds later and the budget is not used up before. *)
Lemma await_loop_completes k : forall total_wait w tr,
  total_wait + Z.of_nat k * sleep_time < max_total_wait ->
  (forall j, (j < k)%nat -> observed_at_poll os inspector assessment_run_arn day j w = Some false) ->
  observed_at_poll os inspector assessment_run_arn day k w = Some true ->
  exists s' evs,
    await_loop os inspector assessment_run_arn day total_wait (mk_state w tr) = (s', Return true) /\
    trace s' = tr ++ evs /\ polls evs = S k /\ sleeps evs = k /\ logged ERROR evs = [].
Proof.
  induction k as [|k IH]; intros total_wait w tr Hbudget Hbefore Hnow.
  - unfold observed_at_poll in Hnow. cbn [world_at_poll] in Hnow.
    destruct (describe_assessment_runs inspector [assessment_run_arn] w)
      as [w1 [response|e]] eqn:Hcall; [|discriminate].
    injection Hnow as Hnow.
    rewrite await_loop_round, (poll_once_answered _ _ _ _ Hcall), Hnow.
    eexists _, [_; _]. cbn [trace]. repeat split.
  - pose proof (Hbefore O ltac:(lia)) as H0.
    unfold observed_at_poll in H0. cbn [world_at_poll] in H0.
    destruct (describe_assessment_runs inspector [assessment_run_arn] w)
      as [w1 [response|e]] eqn:Hcall; [|discriminate].
    injection H0 as H0.
    rewrite await_loop_round, (poll_once_answered _ _ _ _ Hcall), H0.
    rewrite geb_below by (unfold sleep_time in *; lia).
    destruct (IH (total_wait + sleep_time) (sleep os sleep_time w1)
                (tr ++ [EDescribeAssessmentRuns [assessment_run_arn] (Ok response);
                        ELog INFO "Inspector scan not completed yet. Waiting 60 seconds.";
                        ESleep sleep_time]))
      as (s' & evs & Hrun & Htr & Hpolls & Hsleeps & Hlog).
    + unfold sleep_time in *. lia.
    + intros j Hj. specialize (Hbefore (S j) ltac:(lia)).
      unfold observed_at_poll in *. cbn [world_at_poll] in Hbefore.
      now rewrite Hcall in Hbefore.
    + unfold observed_at_poll in *. cbn [world_at_poll] in Hnow. now rewrite Hcall in Hnow.
    + exists s', ([EDescribeAssessmentRuns [assessment_run_arn] (Ok response);
                   ELog INFO "Inspector scan not completed yet. Waiting 60 seconds.";
                   ESleep sleep_time] ++ evs).
      split; [|split; [|split; [|split]]].
      * rewrite <- Hrun. f_equal. unfold wait_a_while. cbn. now rewrite <- !app_assoc.
      * now rewrite Htr, <- app_assoc.
      * rewrite polls_app, Hpolls. reflexivity.
      * rewrite sleeps_app, Hsleeps. reflexivity.
      * exact Hlog.
Qed.

(** The loop from any round on, when no poll sees a terminal state for
    as many rounds as the budget has left. *)
Lemma await_loop_exhausts n : forall total_wait w tr,
  n <> O ->
  total_wait + Z.of_nat n * sleep_time >= max_total_wait ->
  total_wait + Z.of_nat (pred n) * sleep_time < max_total_wait ->
  (forall j, (j < n)%nat -> observed_at_poll os inspector assessment_run_arn day j w = Some false) ->
  exists s' evs,
    await_loop os inspector assessment_run_arn day total_wait (mk_state w tr) = (s', Return false) /\
    trace s' = tr ++ evs /\ polls evs = n /\ sleeps evs = n /\
    logged ERROR evs = ["Exceeded inspector max wait"].
Proof.
  induction n as [|n IH]; intros total_wait w tr Hn Hover Hunder Hnever; [contradiction|].
  pose proof (Hnever O ltac:(lia)) as H0.
  unfold observed_at_poll in H0. cbn [world_at_poll] in H0.
  destruct (describe_assessment_runs inspector [assessment_run_arn] w)
    as [w1 [response|e]] eqn:Hcall; [|discriminate].
  injection H0 as H0.
  rewrite await_loop_round, (poll_once_answered _ _ _ _ Hcall), H0.
  destruct n as [|n].
  - rewrite geb_reached by (unfold sleep_time in *; lia).
    eexists _, [_; _; _; _]. split; [reflexivity|].
    cbn. rewrite <- !app_assoc. repeat split.
  - rewrite geb_below by (cbn [pred] in Hunder; unfold sleep_time in *; lia).
    destruct (IH (total_wait + sleep_time) (sleep os sleep_time w1)
                (tr ++ [EDescribeAssessmentRuns [assessment_run_arn] (Ok response);
                        ELog INFO "Inspector scan not completed yet. Waiting 60 seconds.";
                        ESleep sleep_time]))
      as (s' & evs & Hrun & Htr & Hpolls & Hsleeps & Hlog).
    + discriminate.
    + unfold sleep_time in *. lia.
    + cbn [pred] in *. unfold sleep_time in *. lia.
    + intros j Hj. specialize (Hnever (S j) ltac:(lia)).
      unfold observed_at_poll in *. cbn [world_at_poll] in Hnever.
      now rewrite Hcall in Hnever.
    + exists s', ([EDescribeAssessmentRuns [assessment_run_arn] (Ok response);
                   ELog INFO "Inspector scan not completed yet. Waiting 60 seconds.";
                   ESleep sleep_time] ++ evs).
      split; [|split; [|split; [|split]]].
      * rewrite <- Hrun. f_equal. unfold wait_a_while. cbn. now rewrite <- !app_assoc.
      * now rewrite Htr, <- app_assoc.
      * rewrite polls_app, Hpolls. reflexivity.
      * rewrite sleeps_app, Hsleeps. reflexivity.
      * exact Hlog.
Qed.

End Polling.

(** C2, as amended.  With the 60-second interval and the 7260-second
    budget: when the poll made after [k] sleeps is the first to see a
    record of the day in state COMPLETED or COMPLETED_WITH_ERRORS, and
    [k * 60 < 7260], [await_inspector_results] returns [True] after
    exactly [k + 1] polls and [k] sleeps; when none of the first 121 polls
    sees one, it returns [False] after exactly 121 polls, and polls no
    more. *)
Theorem poll_loop_counts {World} (os : host World) (inspector : inspector_client World)
    (assessment_run_arn : string) (day : date) (w : World) (tr : list event) :
  (forall k : nat,
     Z.of_nat k * 60 < 7260 ->
     (forall j, (j < k)%nat ->
        observed_at_poll os inspector assessment_run_arn day j w = Some false) ->
     observed_at_poll os inspector assessment_run_arn day k w = Some true ->
     exists s' evs,
       await_inspector_results os inspector assessment_run_arn day (mk_state w tr)
         = (s', Return true) /\
       trace s' = tr ++ evs /\ polls evs = S k /\ sleeps evs = k) /\
  ((forall j, (j < 121)%nat ->
      observed_at_poll os inspector assessment_run_arn day j w = Some false) ->
   exists s' evs,
     await_inspector_results os inspector assessment_run_arn day (mk_state w tr)
       = (s', Return false) /\
     trace s' = tr ++ evs /\ polls evs = 121%nat /\ sleeps evs = 121%nat).
Proof.
  split.
  - intros k Hk Hbefore Hnow.
    destruct (await_loop_completes os inspector assessment_run_arn day k 0 w tr)
      as (s' & evs & Hrun & Htr & Hpolls & Hsleeps & _);
      [unfold sleep_time, max_total_wait; lia | assumption | assumption | ].
    now exists s', evs.
  - intros Hnever.
    destruct (await_loop_exhausts os inspector assessment_run_arn day 121 0 w tr)
      as (s' & evs & Hrun & Htr & Hpolls & Hsleeps & _);
      [ discriminate
      | unfold sleep_time, max_total_wait; lia
      | unfold sleep_time, max_total_wait; cbn [pred]; lia
      | assumption | ].
    now exists s', evs.
Qed.

(** The simulated run is COMPLETED after two intervals: three polls. *)
Lemma poll_loop_counts_witness :
  (exists s' evs,
     await_inspector_results sim_host sim_inspector sim_arn sim_day
       (mk_state (sim_world ["ami-1"] (Some 120) 0) []) = (s', Return true) /\
     trace s' = [] ++ evs /\ polls evs = 3%nat /\ sleeps evs = 2%nat) /\
  (exists s' evs,
     await_inspector_results sim_host sim_inspector sim_arn sim_day
       (mk_state (sim_world ["ami-1"] None 0) []) = (s', Return false) /\
     trace s' = [] ++ evs /\ polls evs = 121%nat /\ sleeps evs = 121%nat).
Proof.
  split.
  - apply (proj1 (poll_loop_counts sim_host sim_inspector sim_arn sim_day
                    (sim_world ["ami-1"] (Some 120) 0) []) 2%nat).
    + lia.
    + intros j Hj. destruct j as [|[|j]]; [reflexivity|reflexivity|lia].
    + reflexivity.
  - apply (proj2 (poll_loop_counts sim_host sim_inspector sim_arn sim_day
                    (sim_world ["ami-1"] None 0) [])).
    intros j Hj.
    assert (Hall : forallb (fun j => match observed_at_poll sim_host sim_inspector sim_arn
                                            sim_day j (sim_world ["ami-1"] None 0) with
                                     | Some false => true
                                     | _ => false
                                     end) (seq 0 121) = true) by (vm_compute; reflexivity).
    rewrite forallb_forall in Hall. specialize (Hall j).
    rewrite in_seq in Hall. specialize (Hall ltac:(lia)).
    destruct (observed_at_poll _ _ _ _ j _) as [[|]|]; congruence.
Defined.

(** C2, as stated, fails: a run that is COMPLETED from the start (after 0
    intervals) is polled once, not 0 times, and one that is COMPLETED
    after 2 intervals is polled 3 times, not 2. *)
Lemma poll_count_is_not_interval_count :
  let r0 := await_inspector_results sim_host sim_inspector sim_arn sim_day
              (mk_state (sim_world ["ami-1"] (Some 0) 0) []) in
  let r2 := await_inspector_results sim_host sim_inspector sim_arn sim_day
              (mk_state (sim_world ["ami-1"] (Some 120) 0) []) in
  observed_at_poll sim_host sim_inspector sim_arn sim_day 0 (sim_world ["ami-1"] (Some 0) 0)
    = Some true /\
  snd r0 = Return true /\ polls (trace (fst r0)) = 1%nat /\ polls (trace (fst r0)) <> 0%nat /\
  observed_at_poll sim_host sim_inspector sim_arn sim_day 1 (sim_world ["ami-1"] (Some 120) 0)
    = Some false /\
  observed_at_poll sim_host sim_inspector sim_arn sim_day 2 (sim_world ["ami-1"] (Some 120) 0)
    = Some true /\
  snd r2 = Return true /\ polls (trace (fst r2)) = 3%nat /\ polls (trace (fst r2)) <> 2%nat.
Proof. vm_compute. repeat split; try reflexivity; discriminate. Qed.

Lemma logged_app l a b : logged l (a ++ b) = logged l a ++ logged l b.
Proof. apply flat_map_app. Qed.

(** No poll logs anything at CRITICAL level: the test [if not runs] is
    made on a filter object, which is always true. *)
Lemma poll_once_logs_no_anomaly {World} (inspector : inspector_client World) arn day s :
  logged CRITICAL (trace (fst (poll_once inspector arn day s))) = logged CRITICAL (trace s).
Proof.
  destruct s as [w tr].
  destruct (describe_assessment_runs inspector [arn] w) as [w1 [response|e]] eqn:Hcall.
  - rewrite (poll_once_answered _ _ _ _ _ _ _ Hcall).
    destruct (existsb _ _); cbn [fst trace]; rewrite logged_app; cbn; now rewrite app_nil_r.
  - unfold poll_once, bind, call. cbn [world trace]. rewrite Hcall. cbn [fst trace].
    rewrite logged_app. cbn. now rewrite app_nil_r.
Qed.

(** C5: the code does not log the anomaly.  A poll whose date-filtered
    record list is empty (no record at all, or only records of another
    day, even COMPLETED ones) records the call and nothing else, and the
    loop goes on; no poll of any service ever logs at CRITICAL level. *)
Theorem empty_run_list_is_not_logged :
  (let r := poll_once sim_inspector sim_arn sim_day (mk_state sim_run_not_listed []) in
   snd r = Return None /\
   trace (fst r) = [EDescribeAssessmentRuns [sim_arn] (Ok {| assessmentRuns := [] |})] /\
   logged CRITICAL (trace (fst r)) = []) /\
  (let r := poll_once sim_inspector sim_arn sim_day (mk_state sim_run_of_yesterday []) in
   snd r = Return None /\
   trace (fst r) =
     [EDescribeAssessmentRuns [sim_arn]
        (Ok {| assessmentRuns := [ {| createdAt := mk_datetime (mk_date 2021 3 8) 0;
                                      state := "COMPLETED" |} ] |})] /\
   logged CRITICAL (trace (fst r)) = []) /\
  (let r := await_inspector_results sim_host sim_inspector sim_arn sim_day
              (mk_state sim_run_not_listed []) in
   snd r = Return false /\ polls (trace (fst r)) = 121%nat /\
   logged CRITICAL (trace (fst r)) = []) /\
  (forall World (inspector : inspector_client World) arn day s,
     logged CRITICAL (trace (fst (poll_once inspector arn day s)))
     = logged CRITICAL (trace s)).
Proof.
  split; [|split; [|split]].
  - vm_compute. repeat split.
  - vm_compute. repeat split.
  - vm_compute. repeat split.
  - intros. apply poll_once_logs_no_anomaly.
Qed.

(** ** After the poll loop *)

Lemma bind_assoc {World A B C} (m : M World A) (k1 : A -> M World B) (k2 : B -> M World C) s :
  bind (bind m k1) k2 s = bind m (fun a => bind (k1 a) k2) s.
Proof. unfold bind. now destruct (m s) as [s1 [a|e|]]. Qed.

(** A sequence that starts with a client call starts with its event. *)
Lemma call_first {World A B} (f : api World A) mk (k : A -> M World B) s :
  (forall a, emits any_event (k a)) ->
  exists r rest, trace (fst (bind (call f mk) k s)) = trace s ++ mk r :: rest.
Proof.
  intros Hk. unfold bind, call. destruct (f (world s)) as [w1 [a|e]].
  - destruct (k a (mk_state w1 (trace s ++ [mk (Ok a)]))) as [s2 o] eqn:E.
    destruct (Hk _ _ _ _ E) as (rest & T & _). cbn [trace] in T.
    exists (Ok a), rest. cbn [fst]. now rewrite T, <- app_assoc.
  - exists (Err e), []. reflexivity.
Qed.

(** Result collection, given at least one round of fuel, starts by
    logging and then requests the first page, without a token. *)
Lemma collect_and_alert_starts {World} fuel (inspector : inspector_client World) sns topic arn s :
  exists r rest,
    trace (fst (collect_and_alert (S fuel) inspector sns topic arn s)) =
    trace s ++ ELog INFO "Retrieving findings"
            :: EListFindings (list_findings_page arn finding_filter None) r :: rest.
Proof.
  unfold collect_and_alert. rewrite bind_log.
  unfold retrieve_finding_arns. cbn [list_pages]. rewrite bind_assoc.
  match goal with |- context [bind (call ?f ?mk) ?k ?s0] =>
    destruct (call_first f mk k s0) as (r & rest & T) end.
  - intros response. apply emits_bind.
    + apply emits_if; [apply emits_ret|].
      apply list_pages_emits. reflexivity.
    + intros arns. apply alert_on_emits; reflexivity.
  - exists r, rest. rewrite T. unfold record_event. cbn [trace].
    now rewrite <- app_assoc.
Qed.

(** A run that never completes, on the whole script: 121 polls, then
    the listing, then the alert and the teardown. *)
Example never_completing_run :
  let r := run (main sim_host 5) (sim_world ["ami-1"; "ami-2"] None 3) in
  snd r = Return tt /\
  polls (trace (fst r)) = 121%nat /\
  logged ERROR (trace (fst r)) = ["Exceeded inspector max wait"] /\
  List.length (page_requests (trace (fst r))) = 1%nat /\
  List.length (publish_calls (trace (fst r))) = 1%nat /\
  terminate_calls (trace (fst r)) = [["i-0"; "i-1"]].
Proof. vm_compute. repeat split. Qed.

(** ** Listing the findings page by page *)

Section Pagination.

Context {World : Type}.
Variable inspector : inspector_client World.
Variable assessment_run_arn : string.
Variable ff : finding_filter_t.

Lemma list_pages_served rs : forall fuel tok w w' acc tr,
  served inspector assessment_run_arn ff tok w rs w' ->
  (List.length rs <= fuel)%nat ->
  list_pages fuel inspector assessment_run_arn ff acc tok (mk_state w tr) =
  (mk_state w' (tr ++ page_events assessment_run_arn ff tok rs), Return (acc ++ flat_map findingArns rs)).
Proof.
  induction rs as [|r rest IH]; intros fuel tok w w' acc tr Hserved Hfuel; [contradiction|].
  destruct fuel as [|fuel]; [cbn in Hfuel; lia|].
  destruct Hserved as (w1 & Hcall & Hrest).
  cbn [list_pages]. unfold bind at 1. unfold call. cbn [world trace]. rewrite Hcall.
  destruct rest as [|r2 rest].
  - destruct Hrest as [Hlast ->]. rewrite Hlast. cbn. now rewrite app_nil_r.
  - destruct Hrest as [Hmore Hrest]. rewrite Hmore. cbn [negb].
    rewrite (IH fuel (nextToken r) w1 w' _ _ Hrest) by (cbn in *; lia).
    cbn [page_events flat_map]. now rewrite <- !app_assoc.
Qed.

Lemma page_requests_served rs : forall tok w w',
  served inspector assessment_run_arn ff tok w rs w' ->
  page_requests (page_events assessment_run_arn ff tok rs) =
  list_findings_page assessment_run_arn ff tok :: map (request_after assessment_run_arn ff) (removelast rs).
Proof.
  induction rs as [|r rest IH]; intros tok w w' Hserved; [contradiction|].
  destruct Hserved as (w1 & Hcall & Hrest).
  cbn [page_events page_requests flat_map app]. fold (page_requests (page_events assessment_run_arn ff (nextToken r) rest)).
  f_equal. destruct rest as [|r2 rest]; [reflexivity|].
  destruct Hrest as [Hmore Hrest].
  rewrite (IH _ _ _ Hrest). cbn [removelast map]. f_equal.
  unfold list_findings_page, request_after. now rewrite Hmore.
Qed.

End Pagination.

(** C6.  [retrieve_finding_arns] asks for at most 500 identifiers per
    page; its first request carries no token and every later one carries
    the token of the response before it; it stops at the first response
    without a token, having made one request per response, and returns
    the identifiers of all pages in the order received.  For 1200
    identifiers served in pages of 500 that is 3 requests and the 1200
    identifiers in order. *)
Theorem retrieve_finding_arns_pages :
  (forall World (inspector : inspector_client World) arn ff fuel w w' tr rs,
     served inspector arn ff (Some "") w rs w' ->
     (List.length rs <= fuel)%nat ->
     exists evs,
       retrieve_finding_arns fuel inspector arn ff (mk_state w tr)
         = (mk_state w' (tr ++ evs), Return (flat_map findingArns rs)) /\
       evs = page_events arn ff (Some "") rs /\
       List.length (page_requests evs) = List.length rs /\
       page_requests evs =
         {| lf_assessmentRunArns := [arn]; lf_maxResults := 500; lf_filter := ff;
            lf_nextToken := None |} :: map (request_after arn ff) (removelast rs) /\
       Forall (fun req => lf_maxResults req = 500) (page_requests evs)) /\
  (let r := run (retrieve_finding_arns 3 sim_inspector sim_arn finding_filter)
                sim_1200_findings in
   snd r = Return (sim_arns 1200) /\
   List.length (sim_arns 1200) = 1200%nat /\
   List.length (page_requests (trace (fst r))) = 3%nat /\
   map lf_nextToken (page_requests (trace (fst r))) = [None; Some "x"; Some "xx"] /\
   map (fun ev => match ev with
                  | EListFindings _ (Ok p) => (List.length (findingArns p), nextToken p)
                  | _ => (O, None)
                  end) (trace (fst r))
     = [(500%nat, Some "x"); (500%nat, Some "xx"); (200%nat, None)]).
Proof.
  split.
  - intros World inspector arn ff fuel w w' tr rs Hserved Hfuel.
    exists (page_events arn ff (Some "") rs).
    pose proof (page_requests_served inspector arn ff rs _ _ _ Hserved) as Hreqs.
    split; [|split; [reflexivity|split; [|split]]].
    + unfold retrieve_finding_arns.
      now rewrite (list_pages_served inspector arn ff rs fuel _ _ _ _ _ Hserved Hfuel).
    + rewrite Hreqs. cbn [List.length]. rewrite length_map.
      destruct rs as [|r rest]; [contradiction|].
      clear. revert r. induction rest as [|r2 rest IH]; intros r; [reflexivity|].
      cbn [removelast List.length] in *. now rewrite IH.
    + exact Hreqs.
    + rewrite Hreqs. constructor; [reflexivity|].
      apply Forall_forall. intros req [r [<- _]]%in_map_iff. reflexivity.
  - vm_compute. repeat split.
Qed.

Lemma retrieve_finding_arns_pages_witness :
  exists evs,
    retrieve_finding_arns 3 sim_inspector sim_arn finding_filter (mk_state sim_1200_findings [])
      = (mk_state sim_1200_findings ([] ++ evs), Return (flat_map findingArns sim_three_pages)) /\
    List.length (page_requests evs) = 3%nat.
Proof.
  destruct (proj1 retrieve_finding_arns_pages sim sim_inspector sim_arn finding_filter 3%nat
              sim_1200_findings sim_1200_findings [] sim_three_pages)
    as (evs & Hrun & _ & Hlen & _).
  - cbn [served sim_three_pages].
    exists sim_1200_findings. split; [vm_compute; reflexivity|]. split; [reflexivity|].
    exists sim_1200_findings. split; [vm_compute; reflexivity|]. split; [reflexivity|].
    exists sim_1200_findings. split; [vm_compute; reflexivity|]. split; reflexivity.
  - cbn. lia.
  - exists evs. split; [exact Hrun | exact Hlen].
Defined.

(** ** Fetching the details in batches *)

Lemma detail_calls_app a b : detail_calls (a ++ b) = detail_calls a ++ detail_calls b.
Proof. apply flat_map_app. Qed.

Section Batches.

Context {World : Type}.
Variable inspector : inspector_client World.

(** The detail service answers every request. *)
Hypothesis describe_findings_answers :
  forall arns w, exists w1 response, describe_findings inspector arns w = (w1, Ok response).

(** One call per index, with the slice of that index, in order. *)
Lemma describe_each_calls finding_arns indices : forall acc s,
  exists s' result evs,
    describe_each inspector finding_arns indices acc s = (s', Return result) /\
    trace s' = trace s ++ evs /\
    detail_calls evs = map (batch_of finding_arns) indices.
Proof.
  induction indices as [|index rest IH]; intros acc s; cbn [describe_each].
  - exists s, acc, []. cbn. now rewrite app_nil_r.
  - destruct (describe_findings_answers (batch_of finding_arns index) (world s))
      as (w1 & response & Hcall).
    unfold bind at 1. unfold call. rewrite Hcall.
    destruct (IH (acc ++ findings response)
                (mk_state w1 (trace s ++ [EDescribeFindings (batch_of finding_arns index)
                                            (Ok response)])))
      as (s' & result & evs & Hrun & Htr & Hcalls).
    exists s', result, (EDescribeFindings (batch_of finding_arns index) (Ok response) :: evs).
    split; [exact Hrun|]. split.
    + cbn [trace] in Htr. now rewrite Htr, <- app_assoc.
    + cbn [detail_calls flat_map app map]. fold (detail_calls evs). now rewrite Hcalls.
Qed.

End Batches.

Lemma ceil_div_100 n : 0 <= n ->
  100 * (Py.ceil_div n 100 - 1) < n <= 100 * Py.ceil_div n 100.
Proof.
  intros Hn. unfold Py.ceil_div.
  pose proof (Z.div_mod (n + 100 - 1) 100 ltac:(lia)).
  pose proof (Z.mod_pos_bound (n + 100 - 1) 100 ltac:(lia)). lia.
Qed.

Lemma range0_length n : List.length (Py.range0 n) = Z.to_nat n.
Proof. unfold Py.range0. now rewrite length_map, length_seq. Qed.

(** C7.  When the detail service answers every request,
    [retrieve_findings] makes exactly [ceil(n / 100)] calls for a list of
    [n] identifiers, [ceil(n / 100)] being the least [c] with
    [n <= 100 * c]; for 250 identifiers it makes 3. *)
Theorem retrieve_findings_call_count :
  (forall World (inspector : inspector_client World) (finding_arns : list string) s,
     (forall arns w, exists w1 response, describe_findings inspector arns w = (w1, Ok response)) ->
     let n := Py.len finding_arns in
     exists c s' result evs,
       retrieve_findings inspector finding_arns s = (s', Return result) /\
       trace s' = trace s ++ evs /\
       Z.of_nat (List.length (detail_calls evs)) = c /\
       100 * (c - 1) < n <= 100 * c) /\
  (let r := run (retrieve_findings sim_inspector sim_250_arns) (sim_world [] None 0) in
   Py.len sim_250_arns = 250 /\
   List.length (detail_calls (trace (fst r))) = 3%nat).
Proof.
  split.
  - intros World inspector finding_arns s Hanswers n.
    unfold retrieve_findings.
    destruct (describe_each_calls inspector Hanswers finding_arns
                (Py.range0 (Py.ceil_div (Py.len finding_arns) 100)) [] s)
      as (s' & result & evs & Hrun & Htr & Hcalls).
    assert (Hn : 0 <= n) by (unfold n, Py.len; lia).
    pose proof (ceil_div_100 n Hn) as Hceil.
    exists (Py.ceil_div n 100), s', result, evs.
    split; [exact Hrun|]. split; [exact Htr|]. split; [|exact Hceil].
    rewrite Hcalls, length_map, range0_length. fold n. lia.
  - vm_compute. split; reflexivity.
Qed.

Lemma retrieve_findings_call_count_witness :
  exists s' result evs,
    retrieve_findings sim_inspector sim_250_arns (mk_state (sim_world [] None 0) [])
      = (s', Return result) /\
    trace s' = [] ++ evs /\
    List.length (detail_calls evs) = 3%nat.
Proof.
  destruct (proj1 retrieve_findings_call_count sim sim_inspector sim_250_arns
              (mk_state (sim_world [] None 0) []))
    as (c & s' & result & evs & Hrun & Htr & Hcount & Hlo & Hhi).
  - intros arns w. eexists _, _. reflexivity.
  - exists s', result, evs. split; [exact Hrun|]. split; [exact Htr|].
    change (Py.len sim_250_arns) with 250 in *. lia.
Defined.

(** *** What a batch holds *)

Lemma slice_inside {A} (l : list A) a b :
  0 <= a -> a <= b -> b <= Py.len l ->
  Py.slice l a b = firstn (Z.to_nat (b - a)) (skipn (Z.to_nat a) l).
Proof.
  intros Ha Hab Hb. unfold Py.slice, Py.slice_bound.
  destruct (a <? 0) eqn:Ea; [apply Z.ltb_lt in Ea; lia|].
  destruct (b <? 0) eqn:Eb; [apply Z.ltb_lt in Eb; lia|].
  now rewrite !Z.min_l by lia.
Qed.

(** A batch whose window [index * 100, index * 100 + 99] lies within the
    list holds the 99 identifiers at [index * 100], ...,
    [index * 100 + 98]: the slice excludes its end, so the identifier at
    [index * 100 + 99] is not sent. *)
Lemma full_window_batch (finding_arns : list string) index :
  0 <= index -> index * 100 + 99 <= Py.len finding_arns ->
  batch_of finding_arns index = firstn 99 (skipn (Z.to_nat (index * 100)) finding_arns).
Proof.
  intros Hi Hfit. unfold batch_of, pagination_end, pagination_start.
  destruct (index * 100 + 99 >? Py.len finding_arns) eqn:E; [apply Z.gtb_lt in E; lia|].
  rewrite slice_inside by lia.
  now replace (Z.to_nat (index * 100 + 99 - index * 100)) with 99%nat by lia.
Qed.

(** C4: the code drops the last identifier of every window, not only of
    the final one.  For 250 identifiers the three batches hold the
    identifiers 0..98, 100..198 and 200..248: the identifiers 99, 199 and
    249 are in no batch, and the first two of them close windows that are
    not the final one. *)
Theorem every_batch_drops_its_last_identifier :
  let r := run (retrieve_findings sim_inspector sim_250_arns) (sim_world [] None 0) in
  detail_calls (trace (fst r)) =
    [ firstn 99 sim_250_arns;
      firstn 99 (skipn 100 sim_250_arns);
      firstn 49 (skipn 200 sim_250_arns) ] /\
  map (@List.length string) (detail_calls (trace (fst r))) = [99; 99; 49]%nat /\
  nth_error sim_250_arns 99 = Some "arn-99" /\
  nth_error sim_250_arns 199 = Some "arn-199" /\
  nth_error sim_250_arns 249 = Some "arn-249" /\
  forallb (fun batch => negb (Py.str_in "arn-99" batch) && negb (Py.str_in "arn-199" batch)
                        && negb (Py.str_in "arn-249" batch))
          (detail_calls (trace (fst r))) = true /\
  List.length (match snd r with Return fs => fs | _ => [] end) = 247%nat.
Proof. vm_compute. repeat split. Qed.

(** ** Alerting *)

Lemma append_assoc (a b c : string) : (a +s+ b) +s+ c = a +s+ (b +s+ c).
Proof. induction a as [|ch a IH]; cbn; [reflexivity|now rewrite IH]. Qed.

Lemma append_empty_r (a : string) : a +s+ "" = a.
Proof. induction a as [|ch a IH]; cbn; [reflexivity|now rewrite IH]. Qed.

(** The message names the count and the filter. *)
Lemma alert_message_contents n :
  contains (alert_message n) (Py.str_int n) /\
  contains (alert_message n) (Py.repr_dict finding_filter) /\
  contains (alert_message n) "{'severities': ['High']}".
Proof.
  unfold alert_message, contains. split; [|split].
  - now exists "Inspector scan resulted in ", (" findings with filter " +s+ Py.repr_dict finding_filter).
  - exists ("Inspector scan resulted in " +s+ Py.str_int n +s+ " findings with filter "), "".
    now rewrite append_empty_r, !append_assoc.
  - exists ("Inspector scan resulted in " +s+ Py.str_int n +s+ " findings with filter "), "".
    now rewrite append_empty_r, !append_assoc.
Qed.

Lemma publish_calls_app a b : publish_calls (a ++ b) = publish_calls a ++ publish_calls b.
Proof. apply flat_map_app. Qed.

Lemma listed_arns_app a b : listed_arns (a ++ b) = listed_arns a ++ listed_arns b.
Proof. apply flat_map_app. Qed.

Lemma listing_done_app a b : listing_done (a ++ b) = listing_done a || listing_done b.
Proof. apply existsb_app. Qed.

Lemma quiet_publish_calls evs :
  forallb no_listing_or_publish evs = true -> publish_calls evs = [].
Proof. apply flat_map_none. now intros []. Qed.

Lemma quiet_listed_arns evs :
  forallb no_listing_or_publish evs = true -> listed_arns evs = [].
Proof. apply flat_map_none. now intros []. Qed.

Lemma quiet_listing_done evs :
  forallb no_listing_or_publish evs = true -> listing_done evs = false.
Proof. apply existsb_none. now intros []. Qed.

Section Alerting.

Context {World : Type}.
Variable topic : option string.

Lemma alert_rule_quiet evs : forallb no_listing_or_publish evs = true -> alert_rule topic evs.
Proof.
  intros H. unfold alert_rule. now rewrite (quiet_publish_calls _ H), (quiet_listing_done _ H).
Qed.

Lemma alert_rule_after pre evs :
  forallb no_listing_or_publish pre = true -> alert_rule topic evs -> alert_rule topic (pre ++ evs).
Proof.
  intros H Hr. unfold alert_rule in *.
  rewrite publish_calls_app, listing_done_app, listed_arns_app.
  now rewrite (quiet_publish_calls _ H), (quiet_listing_done _ H), (quiet_listed_arns _ H).
Qed.

Lemma alert_rule_before evs post :
  alert_rule topic evs -> forallb no_listing_or_publish post = true -> alert_rule topic (evs ++ post).
Proof.
  intros Hr H. unfold alert_rule in *.
  rewrite publish_calls_app, listing_done_app, listed_arns_app.
  rewrite (quiet_publish_calls _ H), (quiet_listing_done _ H), (quiet_listed_arns _ H).
  now rewrite !app_nil_r, orb_false_r.
Qed.

Lemma obeys_quiet {A} (m : M World A) : emits no_listing_or_publish m -> obeys topic m.
Proof.
  intros Hm s s' o E. destruct (Hm _ _ _ E) as (evs & T & F).
  exists evs. split; [exact T | now apply alert_rule_quiet].
Qed.

Lemma obeys_bind {A B} (m : M World A) (k : A -> M World B) :
  emits no_listing_or_publish m -> (forall a, obeys topic (k a)) -> obeys topic (bind m k).
Proof.
  intros Hm Hk s s' o [(s1 & a & E1 & E2) | [(e & E1 & ->) | (E1 & ->)]]%bind_run;
    destruct (Hm _ _ _ E1) as (evs1 & T1 & F1).
  - destruct (Hk a _ _ _ E2) as (evs2 & T2 & R2).
    exists (evs1 ++ evs2). rewrite T2, T1, app_assoc. split; [reflexivity|].
    now apply alert_rule_after.
  - exists evs1. split; [exact T1 | now apply alert_rule_quiet].
  - exists evs1. split; [exact T1 | now apply alert_rule_quiet].
Qed.

Lemma obeys_try_finally {A} (body : M World A) handler :
  obeys topic body -> emits no_listing_or_publish handler -> obeys topic (try_finally body handler).
Proof.
  intros Hb Hh s s' o. unfold try_finally.
  destruct (body s) as [s1 o1] eqn:E1. destruct (Hb _ _ _ E1) as (evs1 & T1 & R1).
  assert (Hrun : forall s2 (oh : outcome unit), handler s1 = (s2, oh) ->
            exists evs, trace s2 = trace s ++ evs /\ alert_rule topic evs).
  { intros s2 oh E2. destruct (Hh _ _ _ E2) as (evs2 & T2 & F2).
    exists (evs1 ++ evs2). rewrite T2, T1, app_assoc. split; [reflexivity|].
    now apply alert_rule_before. }
  destruct (handler s1) as [s2 oh] eqn:E2. specialize (Hrun _ _ eq_refl).
  destruct o1; [ | | intros [= <- <-]; now exists evs1];
    destruct oh; intros [= <- <-]; exact Hrun.
Qed.

(** The listing loop: it publishes nothing; it returns exactly when a
    page without token arrived, and then with all identifiers listed. *)
Lemma list_pages_listing fuel (inspector : inspector_client World) arn ff : forall acc tok s s' o,
  list_pages fuel inspector arn ff acc tok s = (s', o) ->
  exists evs, trace s' = trace s ++ evs /\
    publish_calls evs = [] /\
    match o with
    | Return arns => listing_done evs = true /\ arns = acc ++ listed_arns evs
    | _ => listing_done evs = false
    end.
Proof.
  induction fuel as [|fuel IH]; intros acc tok s s' o; cbn [list_pages].
  - intros [= <- <-]. exists []. now rewrite app_nil_r.
  - intros [(s1 & response & E1 & E2) | [(e & E1 & ->) | (E1 & ->)]]%bind_run;
      unfold call in E1;
      destruct (list_findings inspector _ (world s)) as [w1 [r|e1]]; try discriminate;
      injection E1 as E1; subst.
    + destruct (Py.truthy_opt_str (nextToken response)) eqn:Htok; cbn [negb] in E2.
      * destruct (IH _ _ _ _ _ E2) as (evs & T & Hpub & Ho). cbn [trace] in T.
        eexists (_ :: evs). split; [now rewrite T, <- app_assoc|].
        cbn [publish_calls listing_done listed_arns flat_map existsb app].
        fold (publish_calls evs). fold (listing_done evs). fold (listed_arns evs).
        rewrite Htok. cbn [negb orb]. split; [exact Hpub|].
        destruct o as [arns|e|]; [|exact Ho|exact Ho].
        destruct Ho as [Hdone ->]. split; [exact Hdone|now rewrite <- app_assoc].
      * injection E2 as <- <-. eexists [_]. cbn [trace]. split; [reflexivity|].
        cbn. rewrite Htok. cbn. now rewrite app_nil_r.
    + eexists [_]. cbn [trace]. split; [reflexivity|]. now cbn.
Qed.

Lemma collect_and_alert_obeys fuel (inspector : inspector_client World) sns arn :
  obeys topic (collect_and_alert fuel inspector sns topic arn).
Proof.
  intros s s' o. unfold collect_and_alert. rewrite bind_log. unfold retrieve_finding_arns.
  intros [(s1 & arns & E1 & E2) | [(e & E1 & ->) | (E1 & ->)]]%bind_run;
    destruct (list_pages_listing _ _ _ _ _ _ _ _ _ E1) as (evs & T & Hpub & Ho);
    unfold record_event in T; cbn [trace] in T.
  2,3: exists (ELog INFO "Retrieving findings" :: evs);
       (split; [now rewrite T, <- app_assoc|]);
       unfold alert_rule; cbn [publish_calls listing_done flat_map existsb app orb];
       fold (publish_calls evs); fold (listing_done evs); now rewrite Hpub, Ho.
  destruct Ho as [Hdone Harns]. cbn [app] in Harns. subst arns.
  unfold alert_on in E2. destruct (listed_arns evs) as [|a l] eqn:Hl; cbn [Py.truthy_list] in E2.
  - rewrite log_run in E2. injection E2 as <- <-. cbn [trace].
    eexists (ELog INFO "Retrieving findings" :: evs ++ [_]).
    split; [now rewrite T, <- !app_assoc|].
    unfold alert_rule. cbn [publish_calls listing_done listed_arns flat_map existsb app orb].
    fold (publish_calls (evs ++ [ELog INFO ("No findings found for assessment run " +s+ arn)])).
    fold (listing_done (evs ++ [ELog INFO ("No findings found for assessment run " +s+ arn)])).
    fold (listed_arns (evs ++ [ELog INFO ("No findings found for assessment run " +s+ arn)])).
    rewrite publish_calls_app, listed_arns_app, Hpub, Hl. cbn.
    now rewrite andb_false_r.
  - rewrite bind_log in E2. unfold publish_finding_data, call in E2.
    cbn [world trace record_event] in E2.
    destruct (publish sns topic _ (world s1)) as [w2 r].
    exists (ELog INFO "Retrieving findings" :: evs ++
            [ELog INFO "Publishing amount of high findings";
             EPublish topic (alert_message (Py.len (a :: l))) r]).
    split.
    + destruct r; injection E2 as <- <-; cbn [trace]; now rewrite T, <- !app_assoc.
    + unfold alert_rule. cbn [publish_calls listing_done listed_arns flat_map existsb app orb].
      match goal with |- context [evs ++ ?t] =>
        fold (publish_calls (evs ++ t)); fold (listing_done (evs ++ t));
        fold (listed_arns (evs ++ t)) end.
      rewrite publish_calls_app, listed_arns_app, listing_done_app, Hpub, Hl, Hdone. cbn.
      now rewrite app_nil_r.
Qed.

End Alerting.

Ltac quiet :=
  solve [ first
    [ apply log_emits | apply print_emits | apply today_date_emits | apply emits_ret
    | apply emits_raise | apply emits_call | apply fetch_amis_emits
    | apply start_ec2_intances_emits | apply start_inspector_scan_emits
    | apply await_inspector_results_emits | apply tear_down_emits ];
    intros; reflexivity ].

(** The whole script obeys the rule. *)
Lemma main_obeys {World} (os : host World) fuel :
  obeys (environ os "SNS_ALERT_TOPIC_ARN") (main os fuel).
Proof.
  unfold main.
  apply obeys_bind; [quiet|intros _].
  apply obeys_bind; [quiet|intros amis].
  apply obeys_bind.
  { apply emits_if; [|quiet]. apply emits_bind; [quiet|intros _]. unfold sys_exit. quiet. }
  intros _.
  apply obeys_bind; [quiet|intros _].
  apply obeys_bind; [quiet|intros instance_ids].
  apply obeys_try_finally; [|quiet].
  unfold scan_and_alert.
  apply obeys_bind; [quiet|intros _].
  apply obeys_bind; [quiet|intros _].
  apply obeys_bind; [quiet|intros _].
  apply obeys_bind; [quiet|intros _].
  apply obeys_bind; [quiet|intros arn].
  apply obeys_bind; [quiet|intros _].
  apply obeys_bind; [quiet|intros day].
  apply obeys_bind; [quiet|intros _].
  apply collect_and_alert_obeys.
Qed.

Lemma main_alert_rule {World} (os : host World) fuel w :
  alert_rule (environ os "SNS_ALERT_TOPIC_ARN") (trace (fst (run (main os fuel) w))).
Proof.
  destruct (run (main os fuel) w) as [s' o] eqn:E.
  destruct (main_obeys os fuel _ _ _ E) as (evs & T & R).
  cbn [fst]. cbn [trace app] in T. now rewrite T.
Qed.

(** C8.  On every run of the script: when the listing of finding
    identifiers was completed with 0 identifiers, no publish call is
    made; when it was completed with N > 0 identifiers, exactly one
    publish call is made, to the alert topic, and its message contains
    the decimal numeral of N and the description of the severity filter
    applied.  (When the listing was not completed, nothing is published
    either.) *)
Theorem alert_exactly_when_findings {World} (os : host World) (fuel : nat) (w : World) :
  let tr := trace (fst (run (main os fuel) w)) in
  let N := Py.len (listed_arns tr) in
  (listing_done tr = false -> publish_calls tr = []) /\
  (listing_done tr = true -> N = 0 -> publish_calls tr = []) /\
  (listing_done tr = true -> N > 0 ->
   exists message,
     publish_calls tr = [(environ os "SNS_ALERT_TOPIC_ARN", message)] /\
     message = alert_message N /\
     contains message (Py.str_int N) /\
     contains message (Py.repr_dict finding_filter) /\
     contains message "{'severities': ['High']}").
Proof.
  intros tr N. pose proof (main_alert_rule os fuel w) as R.
  fold tr in R. unfold alert_rule in R. fold N in R.
  split; [|split].
  - intros Hdone. now rewrite Hdone in R.
  - intros Hdone HN. rewrite Hdone in R.
    unfold N, Py.len in HN. destruct (listed_arns tr); [exact R|cbn in HN; lia].
  - intros Hdone HN. rewrite Hdone in R.
    unfold N, Py.len in HN. destruct (listed_arns tr) eqn:Hl; [cbn in HN; lia|].
    cbn [Py.truthy_list andb] in R.
    exists (alert_message N). split; [exact R|]. split; [reflexivity|].
    apply alert_message_contents.
Qed.

Lemma alert_exactly_when_findings_witness :
  let tr := trace (fst (run (main sim_host 5) sim_two_images)) in
  listing_done tr = true /\ Py.len (listed_arns tr) = 3 /\
  exists message,
    publish_calls tr = [(Some "arn:aws:sns:alerts", message)] /\
    message = "Inspector scan resulted in 3 findings with filter {'severities': ['High']}".
Proof.
  intros tr.
  assert (Hdone : listing_done tr = true) by (vm_compute; reflexivity).
  assert (HN : Py.len (listed_arns tr) = 3) by (vm_compute; reflexivity).
  split; [exact Hdone|]. split; [exact HN|].
  destruct (alert_exactly_when_findings sim_host 5 sim_two_images) as (_ & _ & Hsome).
  fold tr in Hsome. destruct (Hsome Hdone ltac:(rewrite HN; lia)) as (message & Hpub & Hmsg & _).
  exists message. split; [exact Hpub|]. rewrite Hmsg, HN. reflexivity.
Defined.

(** No findings: nothing is published. *)
Example no_findings_no_alert :
  let tr := trace (fst (run (main sim_host 5) (sim_world ["ami-1"; "ami-2"] (Some 60) 0))) in
  listing_done tr = true /\ listed_arns tr = [] /\ publish_calls tr = [] /\
  logged INFO tr <> [] /\ terminate_calls tr = [["i-0"; "i-1"]].
Proof. vm_compute. repeat split. discriminate. Qed.

(** ** No finding details in the entry point *)

(** C10.  No run of the entry point makes a [describe_findings] call;
    whether it publishes, and the count in the message, follow from the
    identifiers listed alone: a message, if there is one, is the message
    for the number of identifiers listed, and that number is not 0. *)
Theorem main_never_describes_findings {World} (os : host World) (fuel : nat) (w : World) :
  let tr := trace (fst (run (main os fuel) w)) in
  detail_calls tr = [] /\
  (forall topic message,
     In (topic, message) (publish_calls tr) ->
     message = alert_message (Py.len (listed_arns tr)) /\ listed_arns tr <> []) /\
  (listed_arns tr = [] -> publish_calls tr = []).
Proof.
  intros tr. split; [|split].
  - subst tr. destruct (run (main os fuel) w) as [s' o] eqn:E.
    assert (Hmain : emits no_details (main os fuel))
      by (apply main_emits; intros; reflexivity).
    destruct (Hmain _ _ _ E) as (evs & T & F). cbn [fst]. cbn [trace app] in T.
    rewrite T. revert F. apply flat_map_none. now intros [].
  - intros topic message Hin.
    pose proof (main_alert_rule os fuel w) as R. fold tr in R. unfold alert_rule in R.
    destruct (listing_done tr && Py.truthy_list (listed_arns tr)) eqn:Hcond;
      rewrite R in Hin; [|contradiction].
    destruct Hin as [[= _ <-]|[]]. split; [reflexivity|].
    apply andb_prop in Hcond as [_ Hne]. now destruct (listed_arns tr).
  - intros Hnone.
    pose proof (main_alert_rule os fuel w) as R. fold tr in R. unfold alert_rule in R.
    now rewrite Hnone, andb_false_r in R.
Qed.

(** ** A whole run *)

(** Two images in use, the scan is completed at the second poll, three
    findings of high severity: two launches, two polls, one page
    request, one alert that names the count, and both instances
    terminated. *)
Example end_to_end :
  let r := run (main sim_host 5) sim_two_images in
  let tr := trace (fst r) in
  snd r = Return tt /\
  exit_code (snd r) = Some 0 /\
  map req_ImageId (launch_requests tr) = ["ami-1"; "ami-2"] /\
  launched_ids tr = ["i-0"; "i-1"] /\
  polls tr = 2%nat /\
  List.length (page_requests tr) = 1%nat /\
  listed_arns tr = ["arn-0"; "arn-1"; "arn-2"] /\
  detail_calls tr = [] /\
  publish_calls tr =
    [(Some "arn:aws:sns:alerts",
      "Inspector scan resulted in 3 findings with filter {'severities': ['High']}")] /\
  terminate_calls tr = [["i-0"; "i-1"]].
Proof. vm_compute. repeat split. Qed.

(** * Further properties *)

(** ** Image discovery *)

Lemma str_in_In x l : Py.str_in x l = true <-> In x l.
Proof.
  unfold Py.str_in. rewrite existsb_exists. split.
  - intros (y & Hy & Heq). apply String.eqb_eq in Heq. now subst.
  - intros Hin. exists x. split; [exact Hin | apply String.eqb_refl].
Qed.

(** The two nested loops of [fetch_amis] are one loop over the images of
    all instances. *)
Lemma nested_loops_flat reservations : forall acc,
  fold_left (fun amis reservation =>
    fold_left (fun amis instance =>
      let ami := ImageId instance in
      if negb (Py.str_in ami amis) then amis ++ [ami] else amis)
      (Instances reservation) amis)
    reservations acc =
  fold_left (fun amis ami => if negb (Py.str_in ami amis) then amis ++ [ami] else amis)
            (images_of reservations) acc.
Proof.
  induction reservations as [|r rest IH]; intros acc; cbn [fold_left images_of flat_map];
    [reflexivity|].
  fold (images_of rest). rewrite fold_left_app, IH. f_equal.
  revert acc. induction (Instances r) as [|i others IHi]; intros acc; cbn; [reflexivity|].
  apply IHi.
Qed.

Lemma distinct_images_flat reservations :
  distinct_images reservations =
  fold_left (fun amis ami => if negb (Py.str_in ami amis) then amis ++ [ami] else amis)
            (images_of reservations) [].
Proof. apply nested_loops_flat. Qed.

Lemma collect_distinct l : forall acc,
  NoDup acc ->
  let result := fold_left (fun amis ami => if negb (Py.str_in ami amis) then amis ++ [ami] else amis)
                          l acc in
  NoDup result /\
  (forall x, In x result <-> In x acc \/ In x l) /\
  exists more, result = acc ++ more /\ forall x, In x more -> ~ In x acc.
Proof.
  induction l as [|a l IH]; intros acc Hnd; cbn [fold_left].
  - split; [exact Hnd|]. split; [intros x; cbn; tauto|].
    exists []. split; [now rewrite app_nil_r | intros x []].
  - destruct (Py.str_in a acc) eqn:Hin; cbn [negb].
    + apply str_in_In in Hin.
      destruct (IH acc Hnd) as (Hnd' & Hmem & more & Heq & Hnew).
      split; [exact Hnd'|]. split.
      * intros x. rewrite Hmem. cbn. intuition (subst; auto).
      * now exists more.
    + assert (Hnot : ~ In a acc) by (rewrite <- str_in_In; congruence).
      assert (Hnd1 : NoDup (acc ++ [a])).
      { apply NoDup_app; [exact Hnd | repeat constructor; intros [] | ].
        intros x Hx [<-|[]]. contradiction. }
      destruct (IH (acc ++ [a]) Hnd1) as (Hnd' & Hmem & more & Heq & Hnew).
      split; [exact Hnd'|]. split.
      * intros x. rewrite Hmem, in_app_iff. cbn. tauto.
      * exists (a :: more). split; [now rewrite Heq, <- app_assoc|].
        intros x [<-|Hx]; [exact Hnot|].
        intros Hacc. apply (Hnew x Hx). apply in_app_iff. now left.
Qed.

(** X1.  When [fetch_amis] returns, it made one [describe_instances]
    call, and its result holds every image of the answer exactly once:
    it has no repetition, and an image is in it exactly when some
    instance of some reservation runs it. *)
Theorem fetch_amis_each_image_once {World} (ec2 : ec2_client World) s s' amis :
  fetch_amis ec2 s = (s', Return amis) ->
  exists response,
    trace s' = trace s ++ [EDescribeInstances (Ok response)] /\
    NoDup amis /\
    forall x, In x amis <-> In x (images_of (Reservations response)).
Proof.
  unfold fetch_amis, bind, call.
  destruct (describe_instances ec2 (world s)) as [w1 [response|e]]; [|discriminate].
  cbn. intros [= <- <-]. exists response. split; [reflexivity|].
  rewrite distinct_images_flat.
  destruct (collect_distinct (images_of (Reservations response)) [] (NoDup_nil _))
    as (Hnd & Hmem & _).
  split; [exact Hnd|]. intros x. rewrite Hmem. cbn. tauto.
Qed.

Lemma fetch_amis_each_image_once_witness :
  exists response,
    trace (fst (fetch_amis sim_ec2 (mk_state sim_shared_images []))) =
      [] ++ [EDescribeInstances (Ok response)] /\
    NoDup ["ami-1"; "ami-2"; "ami-3"] /\
    forall x, In x ["ami-1"; "ami-2"; "ami-3"] <-> In x (images_of (Reservations response)).
Proof.
  exact (fetch_amis_each_image_once sim_ec2 (mk_state sim_shared_images [])
           (fst (fetch_amis sim_ec2 (mk_state sim_shared_images [])))
           ["ami-1"; "ami-2"; "ami-3"] eq_refl).
Defined.

(** X2.  The images come in first-seen order: what was collected from
    the first reservations keeps its place when more reservations
    follow, and what those add is new. *)
Theorem distinct_images_first_seen (first later : list reservation) :
  exists more,
    distinct_images (first ++ later) = distinct_images first ++ more /\
    (forall x, In x more -> ~ In x (distinct_images first)) /\
    (forall x, In x more -> In x (images_of later)).
Proof.
  rewrite !distinct_images_flat. unfold images_of at 1. rewrite flat_map_app, fold_left_app.
  fold (images_of first). fold (images_of later).
  destruct (collect_distinct (images_of first) [] (NoDup_nil _)) as (Hnd & _ & _).
  destruct (collect_distinct (images_of later) _ Hnd) as (Hnd2 & Hmem & more & Heq & Hnew).
  exists more. split; [exact Heq|]. split; [exact Hnew|].
  intros x Hx.
  assert (Hin : In x (fold_left
            (fun amis ami => if negb (Py.str_in ami amis) then amis ++ [ami] else amis)
            (images_of later)
            (fold_left (fun amis ami => if negb (Py.str_in ami amis) then amis ++ [ami] else amis)
               (images_of first) [])))
    by (rewrite Heq; apply in_app_iff; now right).
  apply Hmem in Hin as [Hold|Hl]; [|exact Hl]. now apply Hnew in Hx.
Qed.

(** ** The poll loop, for any service *)

Lemma slept_app a b : slept (a ++ b) = slept a + slept b.
Proof.
  unfold slept. rewrite flat_map_app.
  induction (flat_map _ a) as [|z l IH]; cbn; [reflexivity|]. rewrite IH. lia.
Qed.

Section AnyService.

Context {World : Type}.
Variable os : host World.
Variable inspector : inspector_client World.
Variable arn : string.
Variable day : date.

(** The three ways one poll can go. *)
Lemma poll_once_cases s s1 o1 :
  poll_once inspector arn day s = (s1, o1) ->
  (exists e, o1 = Raise e /\
     trace s1 = trace s ++ [EDescribeAssessmentRuns [arn] (Err e)]) \/
  (exists response, o1 = Return (Some true) /\
     existsb (completed_today day) (assessmentRuns response) = true /\
     trace s1 = trace s ++ [EDescribeAssessmentRuns [arn] (Ok response);
                            ELog INFO "Inspector scan completed"]) \/
  (exists response, o1 = Return None /\
     existsb (completed_today day) (assessmentRuns response) = false /\
     trace s1 = trace s ++ [EDescribeAssessmentRuns [arn] (Ok response)]).
Proof.
  destruct s as [w tr].
  destruct (describe_assessment_runs inspector [arn] w) as [w1 [response|e]] eqn:Hcall.
  - rewrite (poll_once_answered _ _ _ _ _ _ _ Hcall).
    destruct (existsb _ _) eqn:Hseen; intros [= <- <-]; [right; left | right; right];
      exists response; repeat split; assumption.
  - unfold poll_once, bind, call. cbn [world trace]. rewrite Hcall.
    intros [= <- <-]. left. exists e. split; reflexivity.
Qed.

(** The loop with [rounds] rounds of budget left. *)
Lemma await_loop_any_service rounds : forall total_wait s s' o,
  rounds <> O ->
  total_wait = max_total_wait - Z.of_nat rounds * sleep_time ->
  await_loop os inspector arn day total_wait s = (s', o) ->
  exists evs, trace s' = trace s ++ evs /\
    poll_loop_outcome arn day rounds evs o /\
    slept evs = sleep_time * Z.of_nat (sleeps evs) /\
    Forall (poll_event arn) evs.
Proof.
  induction rounds as [|rounds IH]; intros total_wait s s' o Hpos Htw; [contradiction|].
  rewrite await_loop_round.
  destruct (poll_once inspector arn day s) as [s1 o1] eqn:Hpoll.
  destruct (poll_once_cases _ _ _ Hpoll)
    as [(e & -> & T1) | [(response & -> & Hseen & T1) | (response & -> & Hseen & T1)]].
  - intros [= <- <-]. eexists. split; [exact T1|].
    split; [|split; [reflexivity|repeat constructor]].
    cbn. repeat split; try lia. exists []. split; [reflexivity|constructor].
  - intros [= <- <-]. eexists. split; [exact T1|].
    split; [|split; [reflexivity|repeat constructor]].
    cbn. repeat split; try lia. exists [], response.
    split; [reflexivity|]. split; [exact Hseen|constructor].
  - assert (Twait : trace (wait_a_while os s1) =
              trace s ++ [EDescribeAssessmentRuns [arn] (Ok response);
                          ELog INFO "Inspector scan not completed yet. Waiting 60 seconds.";
                          ESleep sleep_time]).
    { rewrite wait_a_while_trace, T1, <- app_assoc. reflexivity. }
    remember (wait_a_while os s1) as sw eqn:Hsw. clear Hsw.
    destruct rounds as [|rounds].
    + rewrite geb_reached by (unfold sleep_time, max_total_wait in *; lia).
      unfold bind, log, emit, ret, record_event. intros [= <- <-]. cbn [trace].
      rewrite Twait, <- app_assoc. eexists. split; [reflexivity|].
      split; [|split; [reflexivity|repeat constructor]].
      split; [reflexivity|]. split; [reflexivity|]. split; [reflexivity|].
      exists [EDescribeAssessmentRuns [arn] (Ok response);
              ELog INFO "Inspector scan not completed yet. Waiting 60 seconds.";
              ESleep sleep_time].
      split; [reflexivity|]. repeat constructor. exact Hseen.
    + rewrite geb_below by (unfold sleep_time, max_total_wait in *; lia).
      intros Hrest.
      destruct (IH (total_wait + sleep_time) sw s' o ltac:(discriminate)
                  ltac:(unfold sleep_time, max_total_wait in *; lia) Hrest)
        as (evs & T & Hout & Hslept & Hkind).
      set (round := [EDescribeAssessmentRuns [arn] (Ok response);
                     ELog INFO "Inspector scan not completed yet. Waiting 60 seconds.";
                     ESleep sleep_time]) in *.
      assert (Hp : polls (round ++ evs) = S (polls evs)) by reflexivity.
      assert (Hs : sleeps (round ++ evs) = S (sleeps evs)) by reflexivity.
      assert (Hl : logged ERROR (round ++ evs) = logged ERROR evs) by reflexivity.
      assert (Hz : slept (round ++ evs) = sleep_time + slept evs) by reflexivity.
      exists (round ++ evs). split; [now rewrite T, Twait, <- app_assoc|].
      split.
      * assert (Hround : Forall (poll_unfinished day) round)
          by (unfold round; repeat constructor; exact Hseen).
        destruct o as [[|]|e|]; unfold poll_loop_outcome in *; [| | |contradiction].
        -- destruct Hout as (Hp' & Hs' & Hl' & pre & response' & Hevs & Hseen' & Hpre).
           rewrite Hp, Hs, Hl. split; [lia|]. split; [lia|]. split; [exact Hl'|].
           exists (round ++ pre), response'.
           split; [now rewrite Hevs, <- app_assoc|]. split; [exact Hseen'|].
           apply Forall_app. now split.
        -- destruct Hout as (Hp' & Hs' & Hl' & pre & Hevs & Hpre).
           rewrite Hp, Hs, Hl, Hp', Hs', Hl'.
           split; [reflexivity|]. split; [reflexivity|]. split; [reflexivity|].
           exists (round ++ pre). split; [now rewrite Hevs, <- app_assoc|].
           apply Forall_app. now split.
        -- destruct Hout as (Hp' & Hs' & Hl' & pre & Hevs & Hpre).
           rewrite Hp, Hs, Hl. split; [lia|]. split; [lia|]. split; [exact Hl'|].
           exists (round ++ pre). split; [now rewrite Hevs, <- app_assoc|].
           apply Forall_app. now split.
      * split; [rewrite Hz, Hs, Hslept; lia|].
        apply Forall_app. split; [repeat constructor | exact Hkind].
Qed.

End AnyService.

(** X3.  Whatever the service answers, [await_inspector_results] ends,
    after at most 121 polls, all of the run it was given, and 7260
    seconds of sleep.  Every round but the last is a poll that was
    answered without a completed run of the day, the log line and a
    sleep of 60 seconds.  It returns [True] right after the first poll
    whose answer lists a run created on the day in state COMPLETED or
    COMPLETED_WITH_ERRORS, and raises right after a poll that raised, in
    both cases with one sleep less than polls; it returns [False] only
    after exactly 121 such rounds, the one ERROR line being its last
    event. *)
Theorem await_inspector_results_any_service {World} (os : host World)
    (inspector : inspector_client World) (arn : string) (day : date) (s : State World) :
  exists evs,
    trace (fst (await_inspector_results os inspector arn day s)) = trace s ++ evs /\
    poll_loop_outcome arn day 121 evs (snd (await_inspector_results os inspector arn day s)) /\
    (polls evs <= 121)%nat /\
    slept evs = 60 * Z.of_nat (sleeps evs) /\
    slept evs <= 7260 /\
    Forall (poll_event arn) evs.
Proof.
  destruct (await_inspector_results os inspector arn day s) as [s' o] eqn:Hrun.
  destruct (await_loop_any_service os inspector arn day 121 0 s s' o
              ltac:(discriminate) ltac:(reflexivity) Hrun)
    as (evs & T & Hout & Hslept & Hkind).
  exists evs. cbn [fst snd]. split; [exact T|]. split; [exact Hout|].
  assert (Hbound : (polls evs <= 121)%nat /\ (sleeps evs <= 121)%nat).
  { destruct o as [[|]|e|]; cbn in Hout; [| | |contradiction].
    - destruct Hout as (Hp & Hs & _). lia.
    - destruct Hout as (Hp & Hs & _). lia.
    - destruct Hout as (Hp & Hs & _). lia. }
  split; [tauto|]. unfold sleep_time in Hslept. split; [exact Hslept|].
  split; [lia | exact Hkind].
Qed.

(** The third poll raises: the loop raises that exception after three
    polls and two sleeps. *)
Example await_inspector_results_poll_raises :
  let r := await_inspector_results sim_host sim_flaky_inspector sim_arn sim_day
             (mk_state (sim_world ["ami-1"] None 0) []) in
  snd r = Raise (ClientError "ThrottlingException") /\
  polls (trace (fst r)) = 3%nat /\ sleeps (trace (fst r)) = 2%nat /\
  slept (trace (fst r)) = 120.
Proof. vm_compute. repeat split. Qed.

(** ** The listing loop, for any service *)

Lemma page_requests_app a b : page_requests (a ++ b) = page_requests a ++ page_requests b.
Proof. apply flat_map_app. Qed.

Lemma list_pages_any_service {World} fuel (inspector : inspector_client World) arn ff :
  forall acc tok s s' o,
  list_pages fuel inspector arn ff acc tok s = (s', o) ->
  exists evs, trace s' = trace s ++ evs /\
    Forall (page_event arn ff) evs /\
    List.length (page_requests evs) = List.length evs /\
    (List.length evs <= fuel)%nat /\
    match o with
    | Return finding_arns =>
        finding_arns = acc ++ listed_arns evs /\
        exists pre req r,
          evs = pre ++ [EListFindings req (Ok r)] /\
          Py.truthy_opt_str (nextToken r) = false /\ listing_done pre = false
    | Raise e =>
        exists pre req, evs = pre ++ [EListFindings req (Err e)] /\ listing_done pre = false
    | OutOfFuel => listing_done evs = false /\ List.length evs = fuel
    end.
Proof.
  induction fuel as [|fuel IH]; intros acc tok s s' o; cbn [list_pages].
  - intros [= <- <-]. exists []. rewrite app_nil_r. repeat split; try reflexivity.
    constructor.
  - intros [(s1 & response & E1 & E2) | [(e & E1 & ->) | (E1 & ->)]]%bind_run;
      unfold call in E1;
      destruct (list_findings inspector _ (world s)) as [w1 [r|e1]]; try discriminate;
      injection E1 as E1; subst.
    + destruct (Py.truthy_opt_str (nextToken response)) eqn:Htok; cbn [negb] in E2.
      * destruct (IH _ _ _ _ _ E2) as (evs & T & Hkind & Hreq & Hlen & Ho). cbn [trace] in T.
        set (first := EListFindings (list_findings_page arn ff tok) (Ok response)) in *.
        assert (Hd : forall l, listing_done (first :: l) = listing_done l)
          by (intros l; cbn; now rewrite Htok).
        assert (Hq : forall l, page_requests (first :: l)
                               = list_findings_page arn ff tok :: page_requests l)
          by reflexivity.
        assert (Hl : forall l, listed_arns (first :: l) = findingArns response ++ listed_arns l)
          by reflexivity.
        exists (first :: evs). split; [now rewrite T, <- app_assoc|].
        split; [constructor; [now exists tok | exact Hkind]|].
        split; [rewrite Hq; cbn [List.length]; now rewrite Hreq|].
        split; [cbn [List.length]; lia|].
        destruct o as [arns|e|].
        -- destruct Ho as (-> & pre & req & r & -> & Hlast & Hpre).
           split; [rewrite Hl; now rewrite <- app_assoc|].
           exists (first :: pre), req, r. repeat split; [assumption|]. now rewrite Hd.
        -- destruct Ho as (pre & req & -> & Hpre).
           exists (first :: pre), req. split; [reflexivity|]. now rewrite Hd.
        -- destruct Ho as [Hnot Hall].
           split; [now rewrite Hd | cbn [List.length]; now rewrite Hall].
      * injection E2 as <- <-. eexists [_]. cbn [trace]. split; [reflexivity|].
        split; [repeat constructor; now exists tok|].
        split; [reflexivity|]. split; [cbn; lia|].
        split; [cbn; now rewrite app_nil_r|].
        exists [], (list_findings_page arn ff tok), response. repeat split. exact Htok.
    + eexists [_]. cbn [trace]. split; [reflexivity|].
      split; [repeat constructor; now exists tok|].
      split; [reflexivity|]. split; [cbn; lia|].
      exists [], (list_findings_page arn ff tok). split; reflexivity.
Qed.


(** The second page request is refused: the exception of that request
    is the outcome, and the first page is lost. *)
Example retrieve_finding_arns_second_page_refused :
  let r := retrieve_finding_arns 5 sim_refusing_inspector sim_arn finding_filter
             (mk_state sim_1200_findings []) in
  snd r = Raise (ClientError "AccessDeniedException") /\
  List.length (page_requests (trace (fst r))) = 2%nat /\
  List.length (listed_arns (trace (fst r))) = 500%nat.
Proof. vm_compute. repeat split. Qed.

(** X5.  Nothing in [retrieve_finding_arns] bounds the loop: when every
    response carries a continuation token, the loop uses up any number
    of rounds it is given, with one request per round, and returns
    nothing. *)
Theorem retrieve_finding_arns_never_ends {World} (inspector : inspector_client World)
    (arn : string) (ff : finding_filter_t) :
  (forall req w, exists w1 r,
     list_findings inspector req w = (w1, Ok r) /\ Py.truthy_opt_str (nextToken r) = true) ->
  forall fuel s,
    snd (retrieve_finding_arns fuel inspector arn ff s) = OutOfFuel /\
    List.length (page_requests (trace (fst (retrieve_finding_arns fuel inspector arn ff s))))
      = (List.length (page_requests (trace s)) + fuel)%nat.
Proof.
  intros Hmore fuel. unfold retrieve_finding_arns.
  generalize (@nil string) as acc. generalize (Some "") as tok.
  induction fuel as [|fuel IH]; intros tok acc s; cbn [list_pages].
  - cbn. split; [reflexivity | lia].
  - destruct (Hmore (list_findings_page arn ff tok) (world s)) as (w1 & r & Hcall & Htok).
    unfold bind at 1 2. unfold call. rewrite Hcall, Htok. cbn [negb].
    destruct (IH (nextToken r) (acc ++ findingArns r)
                (mk_state w1 (trace s ++ [EListFindings (list_findings_page arn ff tok) (Ok r)])))
      as [Hout Hlen].
    split; [exact Hout|]. rewrite Hlen. cbn [trace]. rewrite page_requests_app. cbn.
    rewrite length_app. cbn. lia.
Qed.

Lemma retrieve_finding_arns_never_ends_witness :
  snd (retrieve_finding_arns 40 sim_endless_inspector sim_arn finding_filter
         (mk_state sim_1200_findings [])) = OutOfFuel /\
  List.length (page_requests (trace (fst
    (retrieve_finding_arns 40 sim_endless_inspector sim_arn finding_filter
       (mk_state sim_1200_findings []))))) = 40%nat.
Proof.
  apply (retrieve_finding_arns_never_ends sim_endless_inspector sim_arn finding_filter).
  intros req w. eexists _, _. split; reflexivity.
Defined.

(** ** The batches of the detail retrieval *)

Lemma batch_length (finding_arns : list string) index :
  0 <= index -> 100 * index < Py.len finding_arns ->
  Z.of_nat (List.length (batch_of finding_arns index)) =
  if 100 * index + 99 >? Py.len finding_arns
  then Py.len finding_arns - 1 - 100 * index
  else 99.
Proof.
  intros Hi Hin. unfold batch_of, pagination_end, pagination_start.
  replace (index * 100) with (100 * index) by lia.
  destruct (100 * index + 99 >? Py.len finding_arns) eqn:E.
  - rewrite slice_inside by lia. rewrite length_firstn, length_skipn.
    unfold Py.len in *. lia.
  - assert (100 * index + 99 <= Py.len finding_arns)
      by (destruct (Z.gtb_spec (100 * index + 99) (Py.len finding_arns)); [discriminate|lia]).
    rewrite slice_inside by lia. rewrite length_firstn, length_skipn.
    unfold Py.len in *. lia.
Qed.

Lemma full_batches_length (finding_arns : list string) (k : nat) :
  100 * Z.of_nat k <= Py.len finding_arns - 1 ->
  Z.of_nat (List.length (List.concat (map (batch_of finding_arns) (map Z.of_nat (seq 0 k)))))
  = 99 * Z.of_nat k.
Proof.
  induction k as [|k IH]; intros Hk; [reflexivity|].
  rewrite seq_S, !map_app, concat_app, length_app. cbn [map List.concat plus].
  rewrite app_nil_r, Nat2Z.inj_add, IH by lia.
  rewrite batch_length by lia.
  destruct (100 * Z.of_nat k + 99 >? Py.len finding_arns) eqn:E; [|lia].
  apply Z.gtb_lt in E. lia.
Qed.

(** X6.  [retrieve_findings] never sends a full window.  For [n]
    identifiers it forms [c = ceil(n / 100)] batches (none for an empty
    list), each of at most 99 identifiers, and they hold [n - c]
    identifiers in all, or [n - c + 1] when [n mod 100 = 99]: every
    identifier is sent only when [n] is 0 or 99. *)
Theorem retrieve_findings_sends_fewer (finding_arns : list string) :
  let n := Py.len finding_arns in
  let c := Py.ceil_div n 100 in
  Z.of_nat (List.length (batches finding_arns)) = c /\
  Forall (fun batch => (List.length batch <= 99)%nat) (batches finding_arns) /\
  Z.of_nat (List.length (List.concat (batches finding_arns)))
    = n - c + (if n mod 100 =? 99 then 1 else 0) /\
  (List.length (List.concat (batches finding_arns)) = List.length finding_arns
   <-> n = 0 \/ n = 99).
Proof.
  intros n c.
  assert (Hn : 0 <= n) by (unfold n, Py.len; lia).
  pose proof (ceil_div_100 n Hn) as Hc. fold c in Hc.
  pose proof (Z.div_mod n 100 ltac:(lia)) as Hdm.
  pose proof (Z.mod_pos_bound n 100 ltac:(lia)) as Hmod.
  assert (Hsize : Forall (fun batch => (List.length batch <= 99)%nat) (batches finding_arns)).
  { unfold batches. apply Forall_forall. intros batch [index [<- Hin]]%in_map_iff.
    unfold Py.range0 in Hin. apply in_map_iff in Hin as (i & <- & Hi%in_seq).
    fold n c in Hi.
    assert (Z.of_nat i < c) by lia.
    pose proof (batch_length finding_arns (Z.of_nat i) ltac:(lia) ltac:(fold n; lia)) as Hlen.
    fold n in Hlen. destruct (100 * Z.of_nat i + 99 >? n) eqn:E; [|lia].
    apply Z.gtb_lt in E. lia. }
  assert (Htotal : Z.of_nat (List.length (List.concat (batches finding_arns)))
                   = n - c + (if n mod 100 =? 99 then 1 else 0)).
  { unfold batches, Py.range0. fold n c.
    destruct (Z.to_nat c) as [|k] eqn:Hk.
    - cbn. assert (c = 0) by lia. assert (n = 0) by lia.
      replace n with 0 by lia. replace c with 0 by lia. reflexivity.
    - assert (Hck : c = Z.of_nat k + 1) by lia.
      rewrite seq_S, !map_app, concat_app, length_app. cbn [map List.concat plus].
      rewrite app_nil_r, Nat2Z.inj_add.
      rewrite full_batches_length by (fold n; lia).
      rewrite batch_length by (fold n; lia). fold n.
      destruct (Z.eqb_spec (n mod 100) 99) as [H99|H99];
        destruct (100 * Z.of_nat k + 99 >? n) eqn:E;
        try apply Z.gtb_lt in E;
        try (assert (100 * Z.of_nat k + 99 <= n)
               by (destruct (Z.gtb_spec (100 * Z.of_nat k + 99) n); [discriminate|lia]));
        lia. }
  split; [unfold batches; rewrite length_map, range0_length; fold n c; lia|].
  split; [exact Hsize|]. split; [exact Htotal|].
  unfold n, Py.len in *.
  destruct (Z.eqb_spec (Z.of_nat (List.length finding_arns) mod 100) 99); split; intros; lia.
Qed.



(** The second of three calls is refused: two calls, and the 99 findings
    of the first are lost. *)
Example retrieve_findings_second_call_refused :
  let r := run (retrieve_findings sim_refusing_details sim_250_arns) (sim_world [] None 0) in
  snd r = Raise (ClientError "InternalException") /\
  List.length (detail_calls (trace (fst r))) = 2%nat /\
  List.length (detail_findings (trace (fst r))) = 99%nat.
Proof. vm_compute. repeat split. Qed.

(** ** Provisioning, for any service *)

Lemma launch_each_requests {World} (ec2 : ec2_client World) ty amis ud tg sn sg :
  forall acc s s' o,
  launch_each ec2 ty amis ud tg sn sg acc s = (s', o) ->
  exists evs (n : nat), trace s' = trace s ++ evs /\
    (n <= List.length amis)%nat /\
    forallb launch_or_print evs = true /\
    launch_requests evs = map (fun ami => launch_request ty ami ud tg sn sg) (firstn n amis) /\
    match o with
    | Return instances =>
        n = List.length amis /\ launch_failed evs = false /\
        flat_map (fun il => map InstanceId (launched il)) instances =
        flat_map (fun il => map InstanceId (launched il)) acc ++ launched_ids evs
    | Raise e =>
        exists accepted req,
          evs = accepted ++ [ERunInstances req (Err e)] /\ launch_failed accepted = false
    | OutOfFuel => False
    end.
Proof.
  induction amis as [|ami rest IH]; intros acc s s' o; cbn [launch_each].
  - intros [= <- <-]. exists [], O. cbn. rewrite !app_nil_r. repeat split. lia.
  - intros [(s1 & a & E1 & E2) | [(e & E1 & ->) | (E1 & ->)]]%bind_run;
      unfold call in E1;
      destruct (run_instances ec2 _ (world s)) as [w1 [r|e1]]; try discriminate;
      injection E1 as E1; subst.
    + destruct (IH _ _ _ _ E2) as (evs & n & T & Hn & Hkind & Hreq & Ho). cbn [trace] in T.
      set (first := ERunInstances (launch_request ty ami ud tg sn sg) (Ok a)) in *.
      assert (Hq : forall l, launch_requests (first :: l)
                             = launch_request ty ami ud tg sn sg :: launch_requests l)
        by reflexivity.
      assert (Hf : forall l, launch_failed (first :: l) = launch_failed l) by reflexivity.
      assert (Hi : forall l, launched_ids (first :: l)
                             = map InstanceId (launched a) ++ launched_ids l) by reflexivity.
      exists (first :: evs), (S n). split; [now rewrite T, <- app_assoc|].
      split; [cbn [List.length]; lia|]. split; [exact Hkind|].
      split; [rewrite Hq, Hreq; reflexivity|].
      destruct o as [instances|e|]; [| |exact Ho].
      * destruct Ho as (-> & Hok & Hids). split; [reflexivity|]. split; [now rewrite Hf|].
        rewrite Hids, Hi, flat_map_app. cbn. now rewrite app_nil_r, <- app_assoc.
      * destruct Ho as (accepted & req & -> & Hok).
        exists (first :: accepted), req. split; [reflexivity|]. now rewrite Hf.
    + exists [ERunInstances (launch_request ty ami ud tg sn sg) (Err e)], 1%nat.
      cbn [trace]. split; [reflexivity|]. split; [cbn; lia|]. split; [reflexivity|].
      split; [reflexivity|]. now exists [], (launch_request ty ami ud tg sn sg).
Qed.

Lemma start_ec2_intances_requests {World} (ec2 : ec2_client World) ty amis ud tg sn sg s s' o :
  start_ec2_intances ec2 ty amis ud tg sn sg s = (s', o) ->
  exists evs (n : nat), trace s' = trace s ++ evs /\
    (n <= List.length amis)%nat /\
    forallb launch_or_print evs = true /\
    launch_requests evs = map (fun ami => launch_request ty ami ud tg sn sg) (firstn n amis) /\
    match o with
    | Return instance_ids =>
        n = List.length amis /\ launch_failed evs = false /\ instance_ids = launched_ids evs
    | Raise e =>
        exists accepted req,
          evs = accepted ++ [ERunInstances req (Err e)] /\ launch_failed accepted = false
    | OutOfFuel => False
    end.
Proof.
  unfold start_ec2_intances.
  intros [(s1 & instances & E1 & E2) | [(e & E1 & ->) | (E1 & ->)]]%bind_run;
    destruct (launch_each_requests _ _ _ _ _ _ _ _ _ _ _ E1)
      as (evs & n & T & Hn & Hkind & Hreq & Ho).
  - cbn in E2. injection E2 as <- <-. unfold record_event. cbn [trace].
    destruct Ho as (-> & Hok & Hids). cbn [app flat_map] in Hids.
    exists (evs ++ [EPrint (Py.repr_list_str
              (flat_map (fun il => map InstanceId (launched il)) instances))]),
           (List.length amis).
    split; [now rewrite T, app_assoc|]. split; [lia|].
    split; [rewrite forallb_app, Hkind; reflexivity|].
    split; [rewrite launch_requests_app, Hreq; cbn; now rewrite app_nil_r|].
    split; [reflexivity|].
    split; [rewrite launch_failed_app, Hok; reflexivity|].
    rewrite launched_ids_app, Hids. cbn. now rewrite app_nil_r.
  - now exists evs, n.
  - contradiction.
Qed.

(** X8.  [start_ec2_intances] asks for one instance per image, in the
    order of the images, each request with [MinCount = MaxCount = 1], and
    stops at the first request that is rejected.  When no request is
    rejected it returns the identifiers of all answers, in order; when
    one is, it raises that exception, after no further request, and the
    identifiers of the instances launched before are not returned. *)
Theorem start_ec2_intances_one_request_per_image {World} (ec2 : ec2_client World)
    (ty : string) (amis : list string) (ud : string) (tg : list tag)
    (sn sg : option string) (s : State World) :
  exists evs (n : nat),
    trace (fst (start_ec2_intances ec2 ty amis ud tg sn sg s)) = trace s ++ evs /\
    (n <= List.length amis)%nat /\
    map req_ImageId (launch_requests evs) = firstn n amis /\
    Forall (fun req => req_MinCount req = 1 /\ req_MaxCount req = 1 /\ req_DryRun req = false)
           (launch_requests evs) /\
    match snd (start_ec2_intances ec2 ty amis ud tg sn sg s) with
    | Return instance_ids =>
        n = List.length amis /\ launch_failed evs = false /\ instance_ids = launched_ids evs
    | Raise e =>
        exists accepted req,
          evs = accepted ++ [ERunInstances req (Err e)] /\ launch_failed accepted = false
    | OutOfFuel => False
    end.
Proof.
  destruct (start_ec2_intances ec2 ty amis ud tg sn sg s) as [s' o] eqn:Hrun.
  destruct (start_ec2_intances_requests _ _ _ _ _ _ _ _ _ _ Hrun)
    as (evs & n & T & Hn & _ & Hreq & Ho).
  exists evs, n. cbn [fst snd]. split; [exact T|]. split; [exact Hn|].
  split; [rewrite Hreq, map_map; cbn; apply map_id|].
  split; [|exact Ho].
  rewrite Hreq. apply Forall_forall. intros req [ami [<- _]]%in_map_iff. now cbn.
Qed.

(** ** The phases of a run *)

Lemma main_run_phases {World} (os : host World) fuel w s' o :
  run (main os fuel) w = (s', o) -> main_phases os fuel (trace s') o.
Proof.
  unfold run, main. rewrite bind_log.
  set (ec2 := boto3_ec2 os (default_region os)).
  unfold fetch_amis. rewrite bind_assoc. unfold bind at 1. unfold call, record_event.
  cbn [world trace app].
  destruct (describe_instances ec2 w) as [w1 [response|e]].
  2: { intros [= <- <-]. now apply DiscoveryRaised with (e := e). }
  rewrite bind_ret.
  destruct (distinct_images (Reservations response)) as [|ami amis] eqn:Hamis.
  { cbn. intros [= <- <-]. now apply NothingToScan with (response := response). }
  cbn [Py.truthy_list negb]. rewrite bind_ret, bind_log. unfold record_event.
  cbn [world trace app].
  intros [(s2 & ids & E2 & E) | [(e & E2 & ->) | (E2 & ->)]]%bind_run;
    destruct (start_ec2_intances_requests _ _ _ _ _ _ _ _ _ _ E2)
      as (launches & n & TL & Hn & Hkind & Hreq & HoL);
    cbn [trace] in TL.
  3: contradiction.
  2: { destruct HoL as (accepted & req & Hl & Hok).
       apply LaunchRaised with (response := response) (launches := launches)
         (accepted := accepted) (req := req) (e := e) (n := n); rewrite ?Hamis; try assumption;
         try reflexivity. discriminate. }
  destruct HoL as (-> & HokL & ->). rewrite firstn_all in Hreq.
  unfold try_finally in E.
  match type of E with context [scan_and_alert ?a ?b ?c ?d ?e ?f ?g ?h s2] =>
    assert (Hbody : emits any_event (scan_and_alert a b c d e f g h))
      by (apply scan_and_alert_emits; intros; reflexivity);
    destruct (scan_and_alert a b c d e f g h s2) as [s3 ob] eqn:E3
  end.
  destruct (Hbody _ _ _ E3) as (body & TB & _).
  assert (Hcase : forall after,
            trace s' = trace s3 ++ after ->
            (ob = OutOfFuel /\ after = [] /\ o = OutOfFuel \/
             ob <> OutOfFuel /\
             exists r, after = [ELog INFO "Tearing down EC2 instances";
                                ETerminateInstances (launched_ids launches) r] /\
                       o = match r with Ok _ => ob | Err e => Raise e end) ->
            main_phases os fuel (trace s') o).
  { intros after Tafter Hafter.
    apply BodyEntered with (response := response) (launches := launches) (body := body)
      (ob := ob) (s2 := s2) (s3 := s3) (after := after); rewrite ?Hamis; try assumption.
    - discriminate.
    - rewrite Tafter, TB, TL, <- !app_assoc. reflexivity. }
  unfold tear_down in E. rewrite bind_log in E.
  unfold terminate_ec2_instances, call in E. cbn [world record_event trace] in E.
  destruct (terminate_instances ec2 (launched_ids launches) (world s3)) as [w4 r].
  destruct ob as [[]|e|].
  3: { injection E as <- <-. apply (Hcase []); [now rewrite app_nil_r|]. left. now repeat split. }
  all: destruct r as [[]|e4]; injection E as <- <-.
  1,3: apply (Hcase [ELog INFO "Tearing down EC2 instances";
                     ETerminateInstances (launched_ids launches) (Ok tt)]);
    [ cbn [trace]; now rewrite <- app_assoc
    | right; split; [discriminate|]; eexists; split; reflexivity ].
  all: apply (Hcase [ELog INFO "Tearing down EC2 instances";
                     ETerminateInstances (launched_ids launches) (Err e4)]);
    [ cbn [trace]; now rewrite <- app_assoc
    | right; split; [discriminate|]; eexists; split; reflexivity ].
Qed.

Lemma discovered_app a b : discovered (a ++ b) = discovered a ++ discovered b.
Proof. apply flat_map_app. Qed.

Lemma terminate_replies_app a b :
  terminate_replies (a ++ b) = terminate_replies a ++ terminate_replies b.
Proof. apply flat_map_app. Qed.

(** Events of the body of the [try]: no discovery, launch or
    termination. *)
Lemma body_events_quiet (body : list event) :
  forallb (fun ev => match ev with
                     | EDescribeInstances _ | ERunInstances _ _ | ETerminateInstances _ _ => false
                     | _ => true
                     end) body = true ->
  discovered body = [] /\ launch_requests body = [] /\ launch_failed body = false /\
  launched_ids body = [] /\ terminate_replies body = [] /\ terminate_calls body = [].
Proof.
  intros H. repeat split.
  1,2,4,5,6: revert H; apply flat_map_none; now intros [].
  revert H; apply existsb_none; now intros [].
Qed.

Lemma launch_events_quiet (launches : list event) :
  forallb launch_or_print launches = true ->
  discovered launches = [] /\ terminate_replies launches = [] /\ terminate_calls launches = [].
Proof.
  intros H. repeat split; revert H; apply flat_map_none; now intros [].
Qed.

Lemma NoDup_firstn {A} (l : list A) n : NoDup l -> NoDup (firstn n l).
Proof.
  revert n. induction l as [|a l IH]; intros [|n] Hnd; cbn; try constructor.
  - inversion Hnd as [|? ? Hnot Hrest]; subst. intros Hin. apply Hnot.
    rewrite <- (firstn_skipn n l). apply in_app_iff. now left.
  - inversion Hnd; subst. now apply IH.
Qed.

Lemma distinct_images_NoDup reservations : NoDup (distinct_images reservations).
Proof.
  rewrite distinct_images_flat.
  now destruct (collect_distinct (images_of reservations) [] (NoDup_nil _)) as (H & _).
Qed.

(** The body of the [try] makes no discovery, launch or termination
    call. *)
Lemma scan_and_alert_quiet {World} (os : host World) fuel ec2 inspector sns topic template ids
    s2 s3 ob body :
  scan_and_alert os fuel ec2 inspector sns topic template ids s2 = (s3, ob) ->
  trace s3 = trace s2 ++ body ->
  discovered body = [] /\ launch_requests body = [] /\ launch_failed body = false /\
  launched_ids body = [] /\ terminate_replies body = [] /\ terminate_calls body = [].
Proof.
  intros Hrun T.
  assert (Hq : emits (fun ev => match ev with
                                | EDescribeInstances _ | ERunInstances _ _
                                | ETerminateInstances _ _ => false
                                | _ => true
                                end)
                 (scan_and_alert os fuel ec2 inspector sns topic template ids))
    by (apply scan_and_alert_emits; intros; reflexivity).
  destruct (Hq _ _ _ Hrun) as (evs & T' & F).
  rewrite T in T'. apply app_inv_head in T'. subst evs.
  now apply body_events_quiet.
Qed.

(** X9.  In every run of the script the launch requests name distinct
    images: they follow the images discovered, in first-seen order, one
    request per image and none twice; and when no request was rejected,
    every discovered image has its request. *)
Theorem main_launches_each_image_once {World} (os : host World) (fuel : nat) (w : World) :
  let tr := trace (fst (run (main os fuel) w)) in
  NoDup (map req_ImageId (launch_requests tr)) /\
  (exists n, map req_ImageId (launch_requests tr) = firstn n (discovered tr)) /\
  (launch_failed tr = false -> map req_ImageId (launch_requests tr) = discovered tr).
Proof.
  intros tr. subst tr. destruct (run (main os fuel) w) as [s' o] eqn:E. cbn [fst].
  destruct (main_run_phases os _ _ _ _ E)
    as [e -> _ | response Hnone -> _
        | response launches accepted req e n Hsome -> Hl Hok Hkind Hreq _
        | response launches body ob s2 s3 after Hsome -> Hok Hkind Hreq Hrun TB Hafter Tall].
  - cbn. split; [constructor|]. split; [now exists O|reflexivity].
  - cbn. rewrite Hnone. split; [constructor|]. split; [now exists O|reflexivity].
  - destruct (launch_events_quiet _ Hkind) as (Hd & _).
    match goal with |- context [?pre ++ launches] => set (before := pre) end.
    assert (Hb : launch_requests before = [] /\
                 discovered before = distinct_images (Reservations response))
      by (split; [reflexivity | cbn; now rewrite app_nil_r]).
    destruct Hb as [Hbq Hbd].
    rewrite launch_requests_app, discovered_app, launch_failed_app, Hd, Hbq, Hbd, Hreq.
    cbn [app]. rewrite ?app_nil_r, map_map. cbn [req_ImageId launch_request]. rewrite map_id.
    split; [apply NoDup_firstn, distinct_images_NoDup|]. split; [now exists n|].
    subst launches. rewrite launch_failed_app. cbn. rewrite !orb_true_r. discriminate.
  - destruct (launch_events_quiet _ Hkind) as (Hd & _).
    destruct (scan_and_alert_quiet _ _ _ _ _ _ _ _ _ _ _ _ Hrun TB)
      as (HdB & HqB & HfB & _).
    assert (Hq : launch_requests after = [] /\ discovered after = [])
      by (destruct Hafter as [(_ & -> & _) | (_ & r & -> & _)]; split; reflexivity).
    destruct Hq as [HqA HdA].
    match goal with |- context [?pre ++ launches ++ _] => set (before := pre) end.
    assert (Hb : launch_requests before = [] /\
                 discovered before = distinct_images (Reservations response))
      by (split; [reflexivity | cbn; now rewrite app_nil_r]).
    destruct Hb as [Hbq Hbd].
    rewrite !launch_requests_app, !discovered_app, Hd, HdB, HqB, HqA, HdA, Hbq, Hbd, Hreq.
    cbn [app]. rewrite !app_nil_r, map_map. cbn [req_ImageId launch_request]. rewrite map_id.
    split; [apply distinct_images_NoDup|]. split; [|reflexivity].
    exists (List.length (distinct_images (Reservations response))). now rewrite firstn_all.
Qed.

(** X10.  The termination call and the outcome.  A run makes at most
    one termination call.  When that call raises, its exception is the
    outcome of the run, whatever the body of the [try] did; a run that
    returns normally made the call and had it answered; and a run that
    never ends (the listing loop going on for ever) never makes it. *)
Theorem main_teardown_and_outcome {World} (os : host World) (fuel : nat) (w : World) :
  let tr := trace (fst (run (main os fuel) w)) in
  let o := snd (run (main os fuel) w) in
  (List.length (terminate_replies tr) <= 1)%nat /\
  (forall e, terminate_replies tr = [Err e] -> o = Raise e) /\
  (o = Return tt -> terminate_replies tr = [Ok tt] /\ launch_failed tr = false /\
                    terminate_calls tr = [launched_ids tr]) /\
  (o = OutOfFuel -> terminate_replies tr = []).
Proof.
  intros tr o. subst tr o. destruct (run (main os fuel) w) as [s' o] eqn:E. cbn [fst snd].
  destruct (main_run_phases os _ _ _ _ E)
    as [e -> -> | response Hnone -> ->
        | response launches accepted req e n Hsome -> Hl Hok Hkind Hreq ->
        | response launches body ob s2 s3 after Hsome -> Hok Hkind Hreq Hrun TB Hafter Tall].
  - cbn. repeat split; try discriminate; lia.
  - cbn. repeat split; try discriminate; lia.
  - destruct (launch_events_quiet _ Hkind) as (_ & Hr & _).
    rewrite terminate_replies_app, Hr. cbn. repeat split; try discriminate; lia.
  - destruct (launch_events_quiet _ Hkind) as (_ & Hr & Hc).
    destruct (scan_and_alert_quiet _ _ _ _ _ _ _ _ _ _ _ _ Hrun TB)
      as (_ & _ & HfB & HiB & HrB & HcB).
    rewrite !terminate_replies_app, !launch_failed_app, !terminate_calls_app,
      !launched_ids_app, Hr, Hc, HrB, HcB, HfB, HiB, Hok.
    cbn [terminate_replies terminate_calls launched_ids launch_failed flat_map existsb app orb].
    destruct Hafter as [(Hob & Hnil & Ho) | (Hends & r & Hteardown & Ho)].
    + subst ob after o. cbn. repeat split; try discriminate; lia.
    + subst after. cbn. rewrite !app_nil_r. split; [lia|].
      split; [intros e [= ->]; exact Ho|].
      split.
      * destruct r as [[]|e]; [|subst o; discriminate]. intros _. repeat split.
      * intros Hdiv. rewrite Hdiv in Ho.
        destruct r as [[]|e]; [now symmetry in Ho | discriminate].
Qed.

(** The termination call is refused after a run that found and alerted
    on three findings: the run ends with that exception. *)
Example teardown_refused :
  let host_refusing := {|
    environ := sim_environ;
    boto3_ec2 := fun _ => {|
      describe_instances := describe_instances sim_ec2;
      run_instances := run_instances sim_ec2;
      terminate_instances := fun ids w => (w, Err (ClientError "UnauthorizedOperation"));
      wait_instance_status_ok := wait_instance_status_ok sim_ec2 |};
    boto3_inspector := fun _ => sim_inspector;
    boto3_sns := fun _ => sim_sns;
    today := sim_today;
    sleep := sleep sim_host |} in
  let r := run (main host_refusing 5) sim_two_images in
  snd r = Raise (ClientError "UnauthorizedOperation") /\
  List.length (publish_calls (trace (fst r))) = 1%nat /\
  terminate_replies (trace (fst r)) = [Err (ClientError "UnauthorizedOperation")].
Proof. vm_compute. repeat split. Qed.

(** ** A rejected launch *)

(** C1 does not hold of the code.  [start_ec2_intances] runs before the
    [try] and keeps the answers of the launches in a local list.  When a
    launch request is rejected, in whatever run and after whatever
    launches, the rejected request is the last event of the run, the run
    ends with its exception, and no termination call is made: the
    instances launched before it are left running. *)
Theorem rejected_launch_skips_teardown {World} (os : host World) (fuel : nat) (w : World) :
  let tr := trace (fst (run (main os fuel) w)) in
  let o := snd (run (main os fuel) w) in
  launch_failed tr = true ->
  terminate_calls tr = [] /\
  exists pre req e,
    tr = pre ++ [ERunInstances req (Err e)] /\
    o = Raise e /\
    launched_ids tr = launched_ids pre.
Proof.
  intros tr o. subst tr o. destruct (run (main os fuel) w) as [s' o] eqn:E. cbn [fst snd].
  destruct (main_run_phases os _ _ _ _ E)
    as [e -> -> | response Hnone -> ->
        | response launches accepted req e n Hsome -> Hl Hok Hkind Hreq ->
        | response launches body ob s2 s3 after Hsome -> Hok Hkind Hreq Hrun TB Hafter Tall].
  - cbn. discriminate.
  - cbn. discriminate.
  - intros _. destruct (launch_events_quiet _ Hkind) as (_ & _ & Hc).
    match goal with |- context [?pre ++ launches] => set (before := pre) end.
    split; [rewrite terminate_calls_app, Hc; reflexivity|].
    exists (before ++ accepted), req, e.
    split; [now rewrite Hl, app_assoc|]. split; [reflexivity|].
    rewrite Hl, app_assoc, launched_ids_app. cbn [launched_ids flat_map app].
    now rewrite app_nil_r.
  - destruct (scan_and_alert_quiet _ _ _ _ _ _ _ _ _ _ _ _ Hrun TB) as (_ & _ & HfB & _).
    match goal with |- context [?pre ++ launches ++ _] => set (before := pre) end.
    assert (Hb : launch_failed before = false) by reflexivity.
    assert (Ha : launch_failed after = false)
      by (destruct Hafter as [(_ & -> & _) | (_ & r & -> & _)]; reflexivity).
    rewrite !launch_failed_app, Hb, Hok, HfB, Ha. discriminate.
Qed.

(** The second of two launch requests is rejected: the first instance
    was launched, and nothing terminates it. *)
Lemma rejected_launch_skips_teardown_witness :
  launch_failed (trace (fst (run (main sim_host 5) sim_second_launch_rejected))) = true /\
  launched_ids (trace (fst (run (main sim_host 5) sim_second_launch_rejected))) = ["i-0"] /\
  terminate_calls (trace (fst (run (main sim_host 5) sim_second_launch_rejected))) = [].
Proof.
  assert (H : launch_failed (trace (fst (run (main sim_host 5) sim_second_launch_rejected)))
              = true) by (vm_compute; reflexivity).
  split; [exact H|]. split; [vm_compute; reflexivity|].
  exact (proj1 (rejected_launch_skips_teardown sim_host 5 sim_second_launch_rejected H)).
Defined.

(** ** No retry: the first exception ends the work *)

Lemma errors_app a b : errors (a ++ b) = errors a ++ errors b.
Proof. apply flat_map_app. Qed.

Section FailsFast.

Context {World : Type}.
Variable os : host World.

Lemma fails_fast_ret {A} (a : A) : fails_fast (World := World) (ret a).
Proof. intros s s' o [= <- <-]. exists []. now rewrite app_nil_r. Qed.

Lemma fails_fast_out_of_fuel {A} : fails_fast (@out_of_fuel World A).
Proof. intros s s' o [= <- <-]. exists []. now rewrite app_nil_r. Qed.

Lemma fails_fast_emit ev : reply_error ev = None -> fails_fast (@emit World ev).
Proof.
  intros Hev s s' o [= <- <-]. exists [ev]. split; [reflexivity|]. cbn. now rewrite Hev.
Qed.

Lemma fails_fast_log l m : fails_fast (@log World l m).
Proof. now apply fails_fast_emit. Qed.

Lemma fails_fast_time_sleep z : fails_fast (time_sleep os z).
Proof. intros s s' o [= <- <-]. exists [ESleep z]. split; reflexivity. Qed.

Lemma fails_fast_today_date : fails_fast (today_date os).
Proof. intros s s' o [= <- <-]. exists []. now rewrite app_nil_r. Qed.

Lemma fails_fast_call {A} (f : api World A) mk :
  (forall a, reply_error (mk (Ok a)) = None) ->
  (forall e, reply_error (mk (Err e)) = Some e) ->
  fails_fast (call f mk).
Proof.
  intros Hok Herr s s' o. unfold call. destruct (f (world s)) as [w [a|e]];
    intros [= <- <-]; cbn [trace].
  - exists [mk (Ok a)]. split; [reflexivity|]. cbn. now rewrite Hok.
  - exists [mk (Err e)]. split; [reflexivity|]. exists [], (mk (Err e)). repeat split.
    apply Herr.
Qed.

Lemma fails_fast_bind {A B} (m : M World A) (k : A -> M World B) :
  fails_fast m -> (forall a, fails_fast (k a)) -> fails_fast (bind m k).
Proof.
  intros Hm Hk s s' o [(s1 & a & E1 & E2) | [(e & E1 & ->) | (E1 & ->)]]%bind_run;
    destruct (Hm _ _ _ E1) as (evs1 & T1 & H1).
  - destruct (Hk a _ _ _ E2) as (evs2 & T2 & H2).
    exists (evs1 ++ evs2). split; [now rewrite T2, T1, app_assoc|].
    destruct o as [b|e|].
    + now rewrite errors_app, H1, H2.
    + destruct H2 as (pre & ev & -> & Hev & Hpre).
      exists (evs1 ++ pre), ev. rewrite app_assoc. repeat split; [exact Hev|].
      now rewrite errors_app, H1, Hpre.
    + now rewrite errors_app, H1, H2.
  - now exists evs1.
  - now exists evs1.
Qed.

Lemma fails_fast_if {A} (b : bool) (m1 m2 : M World A) :
  fails_fast m1 -> fails_fast m2 -> fails_fast (if b then m1 else m2).
Proof. now destruct b. Qed.

Lemma fails_fast_start_inspector_scan inspector template :
  fails_fast (start_inspector_scan os inspector template).
Proof.
  unfold start_inspector_scan. apply fails_fast_bind; [apply fails_fast_today_date|intros d].
  now apply fails_fast_call.
Qed.

Lemma fails_fast_poll_once inspector arn day : fails_fast (@poll_once World inspector arn day).
Proof.
  intros s s1 o1 Hpoll.
  destruct (poll_once_cases _ _ _ _ _ _ Hpoll)
    as [(e & -> & T1) | [(response & -> & _ & T1) | (response & -> & _ & T1)]];
    eexists; (split; [exact T1|]); try reflexivity.
  now exists [], (EDescribeAssessmentRuns [arn] (Err e)).
Qed.

Lemma fails_fast_await_loop inspector arn day total_wait :
  fails_fast (await_loop os inspector arn day total_wait).
Proof.
  intros s. funelim (await_loop os inspector arn day total_wait s); intros s' o;
    clear Heqcall;
    match goal with
    | E : poll_once _ _ _ _ = _ |- _ =>
        destruct (fails_fast_poll_once _ _ _ _ _ _ E) as (evs1 & Tpoll & Hpoll)
    end.
  - intros [= <- <-]. now exists evs1.
  - intros [= <- <-]. now exists evs1.
  - intros [= <- <-]. now exists evs1.
  - unfold bind, log, emit, ret, record_event. intros [= <- <-]. cbn [trace]. rewrite Tpoll.
    eexists. rewrite <- !app_assoc. split; [reflexivity|].
    rewrite errors_app, Hpoll. reflexivity.
  - intros E.
    match goal with IH : forall s' o, _ -> exists _, _ |- _ =>
      destruct (IH _ _ E) as (evs2 & T2 & Hrest) end.
    rewrite wait_a_while_trace, Tpoll in T2.
    eexists. rewrite T2, <- !app_assoc. split; [reflexivity|].
    destruct o as [ret_value|exc|].
    + rewrite errors_app, Hpoll. exact Hrest.
    + destruct Hrest as (pre & ev & -> & Hev & Hpre).
      eexists (evs1 ++ _ :: _ :: pre), ev. rewrite <- !app_assoc. cbn [app].
      repeat split; [exact Hev|]. rewrite errors_app, Hpoll. exact Hpre.
    + rewrite errors_app, Hpoll. exact Hrest.
Qed.

Lemma fails_fast_await_inspector_results inspector arn day :
  fails_fast (await_inspector_results os inspector arn day).
Proof. apply fails_fast_await_loop. Qed.

Lemma fails_fast_list_pages fuel inspector arn ff acc tok :
  fails_fast (@list_pages World fuel inspector arn ff acc tok).
Proof.
  revert acc tok. induction fuel as [|fuel IH]; intros acc tok; cbn [list_pages].
  - apply fails_fast_out_of_fuel.
  - apply fails_fast_bind; [now apply fails_fast_call|intros response].
    apply fails_fast_if; [apply fails_fast_ret | apply IH].
Qed.

Lemma fails_fast_alert_on sns topic arn arns : fails_fast (@alert_on World sns topic arn arns).
Proof.
  unfold alert_on. apply fails_fast_if; [|apply fails_fast_log].
  apply fails_fast_bind; [apply fails_fast_log|intros _].
  unfold publish_finding_data. now apply fails_fast_call.
Qed.

Lemma fails_fast_scan_and_alert fuel ec2 inspector sns topic template ids :
  fails_fast (scan_and_alert os fuel ec2 inspector sns topic template ids).
Proof.
  unfold scan_and_alert.
  apply fails_fast_bind; [apply fails_fast_log|intros _].
  apply fails_fast_bind; [apply fails_fast_log|intros _].
  apply fails_fast_bind; [now apply fails_fast_call|intros _].
  apply fails_fast_bind; [apply fails_fast_log|intros _].
  apply fails_fast_bind; [apply fails_fast_start_inspector_scan|intros arn].
  apply fails_fast_bind; [apply fails_fast_log|intros _].
  apply fails_fast_bind; [apply fails_fast_today_date|intros day].
  apply fails_fast_bind; [apply fails_fast_await_inspector_results|intros _].
  unfold collect_and_alert.
  apply fails_fast_bind; [apply fails_fast_log|intros _].
  apply fails_fast_bind; [apply fails_fast_list_pages|intros arns].
  apply fails_fast_alert_on.
Qed.

End FailsFast.

Lemma calls_after_clean a b :
  errors a = [] -> calls_after_first_error (a ++ b) = calls_after_first_error b.
Proof.
  induction a as [|ev a IH]; cbn [app calls_after_first_error]; [reflexivity|].
  unfold errors. cbn [flat_map]. fold (errors a).
  destruct (reply_error ev); [discriminate|]. exact IH.
Qed.

Lemma calls_after_error pre ev e post :
  errors pre = [] -> reply_error ev = Some e ->
  calls_after_first_error (pre ++ ev :: post) = List.filter is_call post.
Proof.
  intros Hpre Hev. rewrite calls_after_clean by exact Hpre. cbn. now rewrite Hev.
Qed.

Lemma accepted_launches_clean launches :
  forallb launch_or_print launches = true -> launch_failed launches = false ->
  errors launches = [].
Proof.
  induction launches as [|ev rest IH]; [reflexivity|].
  cbn [forallb launch_failed existsb]. intros [Hk Hrest]%andb_prop [Hf Hfrest]%orb_false_elim.
  unfold errors. cbn [flat_map]. fold (errors rest). rewrite (IH Hrest Hfrest), app_nil_r.
  destruct ev as [| req [r|e] | | | | | | | | | |]; try discriminate; reflexivity.
Qed.

Lemma same_last {A} (l l' : list A) x y : l ++ [x] = l' ++ [y] -> x = y.
Proof. now intros [_ H]%app_inj_tail. Qed.

(** X11.  The script never retries and never goes on after a failure.
    After the first call that raised, the only call a run still makes is
    the one termination call of the [finally] block (and none when
    provisioning itself failed).  At most two calls raise in a run, and
    when one did, the outcome of the run is the exception of the last
    one; when none did, the run returned, or exited for want of images,
    or never ended. *)
Theorem main_no_retry {World} (os : host World) (fuel : nat) (w : World) :
  let tr := trace (fst (run (main os fuel) w)) in
  let o := snd (run (main os fuel) w) in
  (calls_after_first_error tr = [] \/
   exists ids r, calls_after_first_error tr = [ETerminateInstances ids r]) /\
  (List.length (errors tr) <= 2)%nat /\
  (forall l e, errors tr = l ++ [e] -> o = Raise e) /\
  (errors tr = [] -> o = Return tt \/ o = Raise (SystemExit 1) \/ o = OutOfFuel).
Proof.
  intros tr o. subst tr o. destruct (run (main os fuel) w) as [s' o] eqn:E. cbn [fst snd].
  destruct (main_run_phases os _ _ _ _ E)
    as [e -> -> | response Hnone -> ->
        | response launches accepted req e n Hsome -> Hl Hok Hkind Hreq ->
        | response launches body ob s2 s3 after Hsome -> Hok Hkind Hreq Hrun TB Hafter Tall].
  - cbn. split; [now left|]. split; [lia|]. split; [|discriminate].
    intros l e' H. change [e] with ([] ++ [e]) in H. now rewrite (same_last _ _ _ _ H).
  - cbn. split; [now left|]. split; [lia|]. split; [|auto].
    intros [|? ?] e' H; discriminate.
  - assert (Hacc : errors accepted = []).
    { apply accepted_launches_clean; [|exact Hok].
      subst launches. rewrite forallb_app in Hkind. now apply andb_prop in Hkind. }
    subst launches.
    match goal with |- context [?pre ++ accepted ++ _] => set (before := pre) end.
    assert (Hb : errors before = []) by reflexivity.
    assert (Herr : errors (before ++ accepted ++ [ERunInstances req (Err e)]) = [e])
      by (rewrite !errors_app, Hb, Hacc; reflexivity).
    rewrite Herr. split.
    + left. rewrite app_assoc. apply (calls_after_error _ _ e).
      * now rewrite errors_app, Hb, Hacc.
      * reflexivity.
    + split; [cbn; lia|]. split; [|discriminate].
      intros l e' H. change [e] with ([] ++ [e]) in H. now rewrite (same_last _ _ _ _ H).
  - pose proof (accepted_launches_clean _ Hkind Hok) as Hacc.
    destruct (fails_fast_scan_and_alert os _ _ _ _ _ _ _ _ _ _ Hrun) as (body' & TB' & Hfast).
    rewrite TB in TB'. apply app_inv_head in TB'. subst body'.
    match goal with |- context [?pre ++ launches ++ _] => set (before := pre) end.
    assert (Hb : errors before = []) by reflexivity.
    destruct Hafter as [(Hob & Hnil & Ho) | (Hends & r & Hteardown & Ho)].
    + subst ob after o. cbn in Hfast. rewrite app_nil_r.
      assert (Hclean : errors (before ++ launches ++ body) = [])
        by (rewrite !errors_app, Hb, Hacc, Hfast; reflexivity).
      rewrite Hclean. split.
      * left. rewrite <- (app_nil_r (before ++ launches ++ body)).
        now rewrite calls_after_clean.
      * split; [cbn; lia|]. split; [intros [|? ?] e' H; discriminate|auto].
    + subst after.
      assert (Hteardown : forall l, errors l = [] ->
                errors (l ++ [ELog INFO "Tearing down EC2 instances";
                              ETerminateInstances (launched_ids launches) r])
                = match r with Ok _ => [] | Err e => [e] end /\
                calls_after_first_error
                  (l ++ [ELog INFO "Tearing down EC2 instances";
                         ETerminateInstances (launched_ids launches) r]) = []).
      { intros l Hclean. rewrite errors_app, Hclean, calls_after_clean by exact Hclean.
        destruct r as [[]|e]; split; reflexivity. }
      destruct ob as [[]|e|]; [| |contradiction].
      * replace (before ++ launches ++ body ++
                 [ELog INFO "Tearing down EC2 instances";
                  ETerminateInstances (launched_ids launches) r])
          with ((before ++ launches ++ body) ++
                [ELog INFO "Tearing down EC2 instances";
                 ETerminateInstances (launched_ids launches) r])
          by (now rewrite <- !app_assoc).
        destruct (Hteardown (before ++ launches ++ body)) as [Herr Hcalls];
          [rewrite !errors_app, Hb, Hacc, Hfast; reflexivity|].
        rewrite Herr, Hcalls. split; [now left|].
        destruct r as [[]|e]; subst o.
        -- split; [cbn; lia|]. split; [intros [|? ?] e' H; discriminate|auto].
        -- split; [cbn; lia|]. split; [|discriminate].
           intros l e' H. change [e] with ([] ++ [e]) in H.
           now rewrite (same_last _ _ _ _ H).
      * destruct Hfast as (pre & ev & -> & Hev & Hpre).
        replace (before ++ launches ++ (pre ++ [ev]) ++
                 [ELog INFO "Tearing down EC2 instances";
                  ETerminateInstances (launched_ids launches) r])
          with ((before ++ launches ++ pre) ++ ev ::
                [ELog INFO "Tearing down EC2 instances";
                 ETerminateInstances (launched_ids launches) r])
          by (now rewrite <- !app_assoc).
        assert (Hclean : errors (before ++ launches ++ pre) = [])
          by (rewrite !errors_app, Hb, Hacc, Hpre; reflexivity).
        rewrite (calls_after_error _ _ e _ Hclean Hev).
        split; [right; now exists (launched_ids launches), r|].
        replace ((before ++ launches ++ pre) ++ ev ::
                 [ELog INFO "Tearing down EC2 instances";
                  ETerminateInstances (launched_ids launches) r])
          with ((before ++ launches ++ pre) ++ [ev] ++
                [ELog INFO "Tearing down EC2 instances";
                 ETerminateInstances (launched_ids launches) r])
          by reflexivity.
        rewrite errors_app, Hclean, errors_app. cbn [app].
        assert (Hone : errors [ev] = [e]) by (unfold errors; cbn; now rewrite Hev).
        rewrite Hone.
        destruct r as [[]|e4]; subst o; cbn.
        -- split; [lia|]. split; [|discriminate].
           intros l e' H. change [e] with ([] ++ [e]) in H.
           now rewrite (same_last _ _ _ _ H).
        -- split; [lia|]. split; [|discriminate].
           intros l e' H. change [e; e4] with ([e] ++ [e4]) in H.
           now rewrite (same_last _ _ _ _ H).
Qed.

(** The readiness wait fails and then the termination is refused too:
    two calls raised, and the run reports the second. *)
Example main_two_failures :
  let host_refusing := {|
    environ := sim_environ;
    boto3_ec2 := fun _ => {|
      describe_instances := describe_instances sim_ec2;
      run_instances := run_instances sim_ec2;
      terminate_instances := fun ids w => (w, Err (ClientError "UnauthorizedOperation"));
      wait_instance_status_ok := wait_instance_status_ok sim_ec2 |};
    boto3_inspector := fun _ => sim_inspector;
    boto3_sns := fun _ => sim_sns;
    today := sim_today;
    sleep := sleep sim_host |} in
  let r := run (main host_refusing 5) sim_never_ready in
  errors (trace (fst r)) =
    [WaiterError "Max attempts exceeded"; ClientError "UnauthorizedOperation"] /\
  snd r = Raise (ClientError "UnauthorizedOperation") /\
  calls_after_first_error (trace (fst r)) =
    [ETerminateInstances ["i-0"; "i-1"] (Err (ClientError "UnauthorizedOperation"))].
Proof. vm_compute. repeat split. Qed.

(** ** The order of the calls *)

Lemma in_order_app lo a b :
  in_order lo (a ++ b) = in_order lo a && in_order (last_phase lo a) b.
Proof.
  revert lo. induction a as [|ev a IH]; intros lo; cbn [app in_order last_phase];
    [reflexivity|].
  destruct (phase ev) as [p|]; [|apply IH]. now rewrite IH, andb_assoc.
Qed.

Lemma last_phase_app lo a b : last_phase lo (a ++ b) = last_phase (last_phase lo a) b.
Proof.
  revert lo. induction a as [|ev a IH]; intros lo; cbn [app last_phase]; [reflexivity|].
  destruct (phase ev); apply IH.
Qed.

Lemma in_order_lower lo lo' evs :
  (lo' <= lo)%nat -> in_order lo evs = true -> in_order lo' evs = true.
Proof.
  revert lo lo'. induction evs as [|ev evs IH]; intros lo lo' Hle; cbn [in_order];
    [reflexivity|].
  destruct (phase ev) as [p|]; [|now apply IH].
  intros [Hp Hrest]%andb_prop. rewrite Hrest, andb_true_r.
  apply orb_prop in Hp as [Hlt | [Heq Hrep]%andb_prop].
  - apply Nat.ltb_lt in Hlt. apply orb_true_intro. left. apply Nat.ltb_lt. lia.
  - apply Nat.eqb_eq in Heq. subst p.
    destruct (Nat.eq_dec lo' lo) as [->|Hne].
    + now rewrite Nat.eqb_refl, Hrep, orb_true_r.
    + apply orb_true_intro. left. apply Nat.ltb_lt. lia.
Qed.

Lemma last_phase_mono lo lo' evs :
  (lo' <= lo)%nat -> (last_phase lo' evs <= last_phase lo evs)%nat.
Proof.
  revert lo lo'. induction evs as [|ev evs IH]; intros lo lo' Hle; cbn [last_phase];
    [exact Hle|].
  destruct (phase ev); [lia | now apply IH].
Qed.

Section Order.

Context {World : Type}.
Variable os : host World.

Lemma within_wider {A} lo hi lo' hi' (m : M World A) :
  (lo' <= lo)%nat -> (hi <= hi')%nat -> within lo hi m -> within lo' hi' m.
Proof.
  intros Hlo Hhi Hm s s' o E. destruct (Hm _ _ _ E) as (evs & T & Hord & Hlast).
  exists evs. split; [exact T|]. split; [now apply (in_order_lower lo)|].
  pose proof (last_phase_mono lo lo' evs Hlo). lia.
Qed.

Lemma within_silent {A} lo (m : M World A) :
  emits (fun ev => match phase ev with None => true | Some _ => false end) m ->
  within lo lo m.
Proof.
  intros Hm s s' o E. destruct (Hm _ _ _ E) as (evs & T & F).
  exists evs. split; [exact T|].
  clear T. induction evs as [|ev evs IH]; [split; [reflexivity|cbn; lia]|].
  cbn [forallb] in F. apply andb_prop in F as [Hev Hrest].
  cbn [in_order last_phase]. destruct (phase ev); [discriminate|]. now apply IH.
Qed.

Lemma within_log lo l m : within lo lo (@log World l m).
Proof. apply within_silent. now apply emits_emit. Qed.

Lemma within_ret {A} lo (a : A) : within (World := World) lo lo (ret a).
Proof. apply within_silent. apply emits_ret. Qed.

Lemma within_today_date lo : within lo lo (today_date os).
Proof. apply within_silent. intros s s' o [= <- <-]. exists []. now rewrite app_nil_r. Qed.

Lemma within_call {A} lo p (f : api World A) mk :
  (forall r, phase (mk r) = Some p) ->
  (Nat.ltb lo p || (Nat.eqb lo p && repeatable p)) = true ->
  within lo p (call f mk).
Proof.
  intros Hmk Hp s s' o. unfold call. destruct (f (world s)) as [w1 r].
  intros E. exists [mk r]. split.
  - destruct r; injection E as <- <-; reflexivity.
  - cbn [in_order last_phase]. rewrite Hmk, Hp. split; [reflexivity|lia].
Qed.

Lemma within_bind {A B} lo mid hi (m : M World A) (k : A -> M World B) :
  (mid <= hi)%nat ->
  within lo mid m -> (forall a, within mid hi (k a)) -> within lo hi (bind m k).
Proof.
  intros Hmid Hm Hk s s' o [(s1 & a & E1 & E2) | [(e & E1 & ->) | (E1 & ->)]]%bind_run;
    destruct (Hm _ _ _ E1) as (evs1 & T1 & O1 & L1).
  - destruct (Hk a _ _ _ E2) as (evs2 & T2 & O2 & L2).
    exists (evs1 ++ evs2). split; [now rewrite T2, T1, app_assoc|].
    rewrite in_order_app, last_phase_app, O1.
    split; [now apply (in_order_lower mid)|].
    pose proof (last_phase_mono mid (last_phase lo evs1) evs2 L1). lia.
  - exists evs1. repeat split; [assumption..|lia].
  - exists evs1. repeat split; [assumption..|lia].
Qed.

Lemma within_try_finally {A} lo mid hi (body : M World A) handler :
  (mid <= hi)%nat ->
  within lo mid body -> within mid hi handler -> within lo hi (try_finally body handler).
Proof.
  intros Hmid Hb Hh s s' o. unfold try_finally.
  destruct (body s) as [s1 o1] eqn:E1. destruct (Hb _ _ _ E1) as (evs1 & T1 & O1 & L1).
  assert (Hrun : forall s2 (oh : outcome unit), handler s1 = (s2, oh) ->
            exists evs, trace s2 = trace s ++ evs /\
              in_order lo evs = true /\ (last_phase lo evs <= hi)%nat).
  { intros s2 oh E2. destruct (Hh _ _ _ E2) as (evs2 & T2 & O2 & L2).
    exists (evs1 ++ evs2). split; [now rewrite T2, T1, app_assoc|].
    rewrite in_order_app, last_phase_app, O1.
    split; [now apply (in_order_lower mid)|].
    pose proof (last_phase_mono mid (last_phase lo evs1) evs2 L1). lia. }
  destruct (handler s1) as [s2 oh] eqn:E2. specialize (Hrun _ _ eq_refl).
  destruct o1; [ | | intros [= <- <-]; exists evs1; repeat split; [assumption..|lia]];
    destruct oh; intros [= <- <-]; exact Hrun.
Qed.

Lemma within_launch_each ec2 ty amis ud tg sn sg acc :
  within 2 2 (@launch_each World ec2 ty amis ud tg sn sg acc).
Proof.
  revert acc. induction amis as [|ami rest IH]; intros acc; cbn [launch_each].
  - apply within_ret.
  - apply (within_bind 2 2 2); [lia | now apply within_call | intros instance; apply IH].
Qed.

Lemma within_await_loop inspector arn day total_wait :
  within 5 5 (await_loop os inspector arn day total_wait).
Proof.
  apply within_wider with (lo := 5%nat) (hi := 5%nat); [lia..|].
  intros s s' o E.
  assert (Hq : emits (fun ev => match phase ev with Some 5%nat | None => true | _ => false end)
                 (await_loop os inspector arn day total_wait))
    by (apply await_loop_emits; intros; reflexivity).
  destruct (Hq _ _ _ E) as (evs & T & F). exists evs. split; [exact T|].
  clear T. induction evs as [|ev evs IH]; [split; [reflexivity|cbn; lia]|].
  cbn [forallb] in F. apply andb_prop in F as [Hev Hrest].
  cbn [in_order last_phase].
  destruct (phase ev) as [[|[|[|[|[|[|p]]]]]]|]; try discriminate; now apply IH.
Qed.

Lemma within_list_pages fuel inspector arn ff acc tok :
  within 6 6 (@list_pages World fuel inspector arn ff acc tok).
Proof.
  revert acc tok. induction fuel as [|fuel IH]; intros acc tok; cbn [list_pages].
  - apply within_silent. apply emits_out_of_fuel.
  - apply (within_bind 6 6 6); [lia | now apply within_call | intros response].
    destruct (negb _); [apply within_ret | apply IH].
Qed.

Lemma within_scan_and_alert fuel ec2 inspector sns topic template ids :
  within 2 7 (scan_and_alert os fuel ec2 inspector sns topic template ids).
Proof.
  unfold scan_and_alert.
  apply (within_bind 2 2 7); [lia | apply within_log | intros _].
  apply (within_bind 2 2 7); [lia | apply within_log | intros _].
  apply (within_bind 2 3 7); [lia | now apply within_call | intros _].
  apply (within_bind 3 3 7); [lia | apply within_log | intros _].
  apply (within_bind 3 4 7); [lia | | intros arn].
  { unfold start_inspector_scan.
    apply (within_bind 3 3 4); [lia | apply within_today_date | intros d].
    now apply within_call. }
  apply (within_bind 4 4 7); [lia | apply within_log | intros _].
  apply (within_bind 4 4 7); [lia | apply within_today_date | intros day].
  apply (within_bind 4 5 7); [lia | | intros _].
  { apply within_wider with (lo := 5%nat) (hi := 5%nat); [lia..|]. apply within_await_loop. }
  unfold collect_and_alert.
  apply (within_bind 5 5 7); [lia | apply within_log | intros _].
  apply (within_bind 5 6 7); [lia | | intros arns].
  { apply within_wider with (lo := 6%nat) (hi := 6%nat); [lia..|]. apply within_list_pages. }
  unfold alert_on. destruct (Py.truthy_list arns).
  - apply (within_bind 6 6 7); [lia | apply within_log | intros _].
    unfold publish_finding_data. now apply within_call.
  - apply within_wider with (lo := 6%nat) (hi := 6%nat); [lia..|]. apply within_log.
Qed.

Lemma within_main fuel : within 0 8 (main os fuel).
Proof.
  unfold main.
  apply (within_bind 0 0 8); [lia | apply within_log | intros _].
  apply (within_bind 0 1 8); [lia | | intros amis].
  { unfold fetch_amis. apply (within_bind 0 1 1); [lia | now apply within_call | intros r].
    apply within_ret. }
  apply (within_bind 1 1 8); [lia | | intros _].
  { destruct (negb _); [|apply within_ret].
    apply (within_bind 1 1 1); [lia | apply within_log | intros _].
    apply within_silent. apply emits_raise. }
  apply (within_bind 1 1 8); [lia | apply within_log | intros _].
  apply (within_bind 1 2 8); [lia | | intros instance_ids].
  { unfold start_ec2_intances.
    apply (within_bind 1 2 2); [lia | | intros instances].
    - apply within_wider with (lo := 2%nat) (hi := 2%nat); [lia..|]. apply within_launch_each.
    - apply (within_bind 2 2 2); [lia | | intros _; apply within_ret].
      apply within_silent. now apply emits_emit. }
  apply (within_try_finally 2 7 8); [lia | apply within_scan_and_alert |].
  unfold tear_down. apply (within_bind 7 7 8); [lia | apply within_log | intros _].
  unfold terminate_ec2_instances. now apply within_call.
Qed.

End Order.

(** X12.  In every run of the script the calls come in the order of the
    phases: image discovery, launches, readiness wait, scan start, polls
    and sleeps, page requests, publish, termination.  Discovery, the
    readiness wait, the scan start, the publish and the termination
    occur at most once each, and no phase is returned to. *)
Theorem main_calls_in_phase_order {World} (os : host World) (fuel : nat) (w : World) :
  in_order 0 (trace (fst (run (main os fuel) w))) = true.
Proof.
  destruct (run (main os fuel) w) as [s' o] eqn:E.
  destruct (within_main os fuel _ _ _ E) as (evs & T & Hord & _).
  cbn [fst]. cbn [trace app] in T. now rewrite T.
Qed.

(** ** The steps of the body of the [try] *)

Lemma scan_and_alert_run_phases {World} (os : host World) fuel ec2 inspector sns topic template
    ids s s' o :
  scan_and_alert os fuel ec2 inspector sns topic template ids s = (s', o) ->
  exists evs, trace s' = trace s ++ evs /\ body_phases fuel template topic ids evs o.
Proof.
  unfold scan_and_alert. rewrite !bind_log. unfold bind at 1. unfold call, record_event.
  cbn [world trace].
  destruct (wait_instance_status_ok ec2 ids (world s)) as [w1 [[]|e]].
  2: { intros [= <- <-]. cbn [trace]. eexists. rewrite <- !app_assoc. cbn [app].
       split; [reflexivity|]. now apply WaitRaised with (e := e). }
  rewrite bind_log. unfold start_inspector_scan. rewrite bind_assoc.
  unfold bind at 1. unfold today_date, record_event. cbn [world trace].
  set (d := today os w1). unfold bind at 1. unfold call. cbn [world trace].
  fold (scan_name d).
  destruct (start_assessment_run inspector template (scan_name d) w1) as [w2 [arn|e]].
  2: { intros [= <- <-]. cbn [trace]. eexists. rewrite <- !app_assoc. cbn [app].
       split; [reflexivity|]. now apply StartRaised with (d := d) (e := e). }
  rewrite bind_log. unfold bind at 1. unfold today_date, record_event. cbn [world trace].
  set (day := today os w2).
  match goal with |- context [{| world := w2; trace := ?t |}] =>
    assert (Hstarted : t = trace s ++ started template ids d arn)
      by (unfold started, waited; now rewrite <- !app_assoc);
    rewrite Hstarted; clear Hstarted
  end.
  intros [(s3 & polled & E3 & E) | [(e & E3 & ->) | (E3 & ->)]]%bind_run;
    destruct (await_loop_any_service os inspector arn day 121 0 _ _ _
                ltac:(discriminate) ltac:(reflexivity) E3)
      as (pollevs & T3 & Hout & _ & Hkind);
    cbn [trace] in T3.
  3: contradiction.
  2: { exists (started template ids d arn ++ pollevs). split; [now rewrite T3, app_assoc|].
       now apply PollRaised with (d := d) (arn := arn) (day := day) (pollevs := pollevs)
         (e := e). }
  unfold collect_and_alert in E. rewrite bind_log in E.
  assert (Hshape : forall listevs listing alertevs,
            trace s' = (trace s3 ++ [ELog INFO "Retrieving findings"]) ++ listevs ++ alertevs ->
            Forall (page_event arn finding_filter) listevs ->
            listing_outcome fuel listevs listing ->
            alert_outcome topic arn listing alertevs o ->
            exists evs, trace s' = trace s ++ evs /\ body_phases fuel template topic ids evs o).
  { intros listevs listing alertevs T Hpages Hlisting Halert.
    exists (started template ids d arn ++ pollevs
            ++ ELog INFO "Retrieving findings" :: listevs ++ alertevs).
    split; [rewrite T, T3, <- !app_assoc; reflexivity|].
    now apply Collected with (d := d) (arn := arn) (day := day) (pollevs := pollevs)
      (polled := polled) (listevs := listevs) (listing := listing) (alertevs := alertevs). }
  apply bind_run in E as [(s4 & arns & E4 & E) | [(e & E4 & ->) | (E4 & ->)]];
    unfold retrieve_finding_arns in E4;
    destruct (list_pages_any_service _ _ _ _ _ _ _ _ _ E4)
      as (listevs & T4 & Hpages & Hreq & _ & Hlist);
    unfold record_event in T4; cbn [trace] in T4.
  - assert (Hlisting : listing_outcome fuel listevs (Return arns)) by exact Hlist.
    unfold alert_on in E. destruct arns as [|a l]; cbn [Py.truthy_list] in E.
    + rewrite log_run in E. injection E as <- <-. cbn [trace].
      apply (Hshape listevs (Return [])
               [ELog INFO ("No findings found for assessment run " +s+ arn)]);
        [now rewrite T4, <- !app_assoc | assumption | assumption | now split].
    + rewrite bind_log in E. unfold publish_finding_data, call in E.
      cbn [world trace record_event] in E.
      destruct (publish sns topic _ (world s4)) as [w5 r].
      apply (Hshape listevs (Return (a :: l))
               [ELog INFO "Publishing amount of high findings";
                EPublish topic (alert_message (Py.len (a :: l))) r]);
        [ | assumption | assumption | ].
      * destruct r; injection E as <- <-; cbn [trace]; now rewrite T4, <- !app_assoc.
      * exists r. split; [reflexivity|]. destruct r as [[]|e']; now injection E as <- <-.
  - apply (Hshape listevs (Raise e) []);
      [now rewrite T4, app_nil_r | assumption | exact Hlist | now split].
  - apply (Hshape listevs OutOfFuel []);
      [now rewrite T4, app_nil_r | assumption | | now split].
    cbn. now rewrite Hreq.
Qed.

Lemma logged_In l m evs : In m (logged l evs) -> In (ELog l m) evs.
Proof.
  induction evs as [|ev evs IH]; [intros []|].
  unfold logged. cbn [flat_map]. fold (logged l evs). rewrite in_app_iff.
  intros [Hhere | Hlater]; [|right; now apply IH].
  left. destruct ev as [| | | | | | | | | | l' m' |]; try contradiction.
  destruct l', l; try contradiction; destruct Hhere as [->|[]]; reflexivity.
Qed.

(** The poll loop has returned: one of its two closing lines is on the
    trace. *)
Lemma poll_loop_returned_logged arn day evs polled :
  poll_loop_outcome arn day 121 evs (Return polled) ->
  In (ELog INFO "Inspector scan completed") evs \/
  In (ELog ERROR "Exceeded inspector max wait") evs.
Proof.
  destruct polled; unfold poll_loop_outcome.
  - intros (_ & _ & _ & pre & response & -> & _). left. apply in_app_iff. right. cbn. tauto.
  - intros (_ & _ & Hlog & _). right. apply logged_In. rewrite Hlog. now left.
Qed.

Ltac split_in H :=
  repeat first [ rewrite in_app_iff in H | progress cbn [In] in H ].

(** Case analysis on a membership in a list given piece by piece. *)
Ltac members H :=
  split_in H;
  repeat match type of H with _ \/ _ => destruct H as [H|H] end;
  try contradiction; try discriminate H.

Ltac of_kind H Hkind :=
  let Hk := fresh "Hk" in
  pose proof (proj1 (Forall_forall _ _) Hkind _ H) as Hk; cbn in Hk; try contradiction.

Lemma alert_events topic arn listing alertevs o ev :
  alert_outcome topic arn listing alertevs o -> In ev alertevs ->
  match ev with ELog _ _ | EPublish _ _ _ => True | _ => False end.
Proof.
  intros Halert Hin. destruct listing as [[|a l]|e|]; cbn in Halert.
  - destruct Halert as [-> _]. destruct Hin as [<-|[]]. exact I.
  - destruct Halert as (r & -> & _). destruct Hin as [<-|[<-|[]]]; exact I.
  - destruct Halert as [-> _]. destruct Hin.
  - destruct Halert as [-> _]. destruct Hin.
Qed.

(** What each step of the body presupposes. *)
Lemma body_gates fuel template topic ids evs o :
  body_phases fuel template topic ids evs o ->
  (forall ids' r, In (EWaitStatusOk ids' r) evs -> ids' = ids) /\
  (forall t n r, In (EStartAssessmentRun t n r) evs ->
     In (EWaitStatusOk ids (Ok tt)) evs /\ t = template /\ exists d, n = scan_name d) /\
  (forall arns r, In (EDescribeAssessmentRuns arns r) evs ->
     exists t n arn, In (EStartAssessmentRun t n (Ok arn)) evs /\ arns = [arn]) /\
  (forall req r, In (EListFindings req r) evs ->
     exists t n arn tok,
       In (EStartAssessmentRun t n (Ok arn)) evs /\
       req = list_findings_page arn finding_filter tok /\
       (In (ELog INFO "Inspector scan completed") evs \/
        In (ELog ERROR "Exceeded inspector max wait") evs)).
Proof.
  intros [e -> _ | d e -> _ | d arn day pollevs e -> Hpoll Hout _
          | d arn day pollevs polled listevs listing alertevs
              -> Hpoll Hout Hpages Hlisting Halert].
  - split; [|split; [|split]].
    + intros ids' r H. members H. now injection H.
    + intros t n r H. members H.
    + intros arns r H. members H.
    + intros req r H. members H.
  - unfold waited. split; [|split; [|split]].
    + intros ids' r H. members H. now injection H.
    + intros t n r H. members H. injection H as <- <- <-.
      split; [cbn; tauto|]. split; [reflexivity|]. now exists d.
    + intros arns r H. members H.
    + intros req r H. members H.
  - assert (Hstart : In (EStartAssessmentRun template (scan_name d) (Ok arn))
                        (started template ids d arn ++ pollevs))
      by (apply in_app_iff; left; unfold started, waited; cbn; tauto).
    assert (Hwait : In (EWaitStatusOk ids (Ok tt)) (started template ids d arn ++ pollevs))
      by (apply in_app_iff; left; unfold started, waited; cbn; tauto).
    split; [|split; [|split]].
    + intros ids' r H. unfold started, waited in H. members H.
      * now injection H.
      * of_kind H Hpoll.
    + intros t n r H. unfold started, waited in H. members H.
      * injection H as <- <- <-. split; [exact Hwait|]. split; [reflexivity|]. now exists d.
      * of_kind H Hpoll.
    + intros arns r H. unfold started, waited in H. members H.
      of_kind H Hpoll. subst arns. now exists template, (scan_name d), arn.
    + intros req r H. unfold started, waited in H. members H. of_kind H Hpoll.
  - set (evs := started template ids d arn ++ pollevs
                ++ ELog INFO "Retrieving findings" :: listevs ++ alertevs).
    assert (Hstart : In (EStartAssessmentRun template (scan_name d) (Ok arn)) evs)
      by (apply in_app_iff; left; unfold started, waited; cbn; tauto).
    assert (Hwait : In (EWaitStatusOk ids (Ok tt)) evs)
      by (apply in_app_iff; left; unfold started, waited; cbn; tauto).
    assert (Hdone : In (ELog INFO "Inspector scan completed") evs \/
                    In (ELog ERROR "Exceeded inspector max wait") evs).
    { destruct (poll_loop_returned_logged _ _ _ _ Hout) as [H|H]; [left|right];
        apply in_app_iff; right; apply in_app_iff; now left. }
    split; [|split; [|split]].
    + intros ids' r H. unfold evs, started, waited in H. members H.
      * now injection H.
      * of_kind H Hpoll.
      * of_kind H Hpages.
      * now apply (alert_events _ _ _ _ _ _ Halert) in H.
    + intros t n r H. unfold evs, started, waited in H. members H.
      * injection H as <- <- <-. split; [exact Hwait|]. split; [reflexivity|]. now exists d.
      * of_kind H Hpoll.
      * of_kind H Hpages.
      * now apply (alert_events _ _ _ _ _ _ Halert) in H.
    + intros arns r H. unfold evs, started, waited in H. members H.
      * of_kind H Hpoll. subst arns. now exists template, (scan_name d), arn.
      * of_kind H Hpages.
      * now apply (alert_events _ _ _ _ _ _ Halert) in H.
    + intros req r H. unfold evs, started, waited in H. members H.
      * of_kind H Hpoll.
      * of_kind H Hpages. destruct Hk as [tok ->].
        now exists template, (scan_name d), arn, tok.
      * now apply (alert_events _ _ _ _ _ _ Halert) in H.
Qed.

(** The order is a real constraint: a sleep after the termination, or a
    second termination, is out of order. *)
Example in_order_rejects :
  in_order 0 [ETerminateInstances ["i-1"] (Ok tt); ESleep 60] = false /\
  in_order 0 [ETerminateInstances ["i-1"] (Ok tt); ETerminateInstances ["i-1"] (Ok tt)] = false /\
  in_order 0 [ESleep 60; ESleep 60; ETerminateInstances ["i-1"] (Ok tt)] = true.
Proof. repeat split. Qed.

Lemma launch_kind launches ev :
  forallb launch_or_print launches = true -> In ev launches -> launch_or_print ev = true.
Proof. intros H Hin. rewrite forallb_forall in H. now apply H. Qed.

(** X13.  Every step of a run presupposes the steps before it.  The
    readiness wait is for exactly the instances that were launched, all
    launches having been accepted.  A scan is started only after that
    wait has succeeded, with the template of the environment and the
    name of the day.  Every poll and every page request is about the
    run that the scan start returned; and page requests, with the High
    severity filter, are made only after the poll loop has returned,
    with or without completion. *)
Theorem main_steps_are_gated {World} (os : host World) (fuel : nat) (w : World) :
  let tr := trace (fst (run (main os fuel) w)) in
  (forall ids r, In (EWaitStatusOk ids r) tr ->
     ids = launched_ids tr /\ launch_failed tr = false) /\
  (forall t n r, In (EStartAssessmentRun t n r) tr ->
     In (EWaitStatusOk (launched_ids tr) (Ok tt)) tr /\
     t = environ os "INSPECTOR_ASSESSMENT_TEMPLATE" /\
     exists d, n = scan_name d) /\
  (forall arns r, In (EDescribeAssessmentRuns arns r) tr ->
     exists t n arn, In (EStartAssessmentRun t n (Ok arn)) tr /\ arns = [arn]) /\
  (forall req r, In (EListFindings req r) tr ->
     exists t n arn tok,
       In (EStartAssessmentRun t n (Ok arn)) tr /\
       req = list_findings_page arn finding_filter tok /\
       (In (ELog INFO "Inspector scan completed") tr \/
        In (ELog ERROR "Exceeded inspector max wait") tr)).
Proof.
  intros tr. subst tr. destruct (run (main os fuel) w) as [s' o] eqn:E. cbn [fst].
  destruct (main_run_phases os _ _ _ _ E)
    as [e -> _ | response Hnone -> _
        | response launches accepted req e n Hsome -> Hl Hok Hkind Hreq _
        | response launches body ob s2 s3 after Hsome -> Hok Hkind Hreq Hrun TB Hafter Tall].
  - repeat split; intros; members H.
  - repeat split; intros; members H.
  - repeat split; intros; members H; apply (launch_kind _ _ Hkind) in H; discriminate.
  - destruct (scan_and_alert_run_phases os _ _ _ _ _ _ _ _ _ _ Hrun) as (body' & TB' & Hbody).
    rewrite TB in TB'. apply app_inv_head in TB'. subst body'.
    destruct (body_gates _ _ _ _ _ _ Hbody) as (Gwait & Gstart & Gpoll & Glist).
    destruct (scan_and_alert_quiet os _ _ _ _ _ _ _ _ _ _ _ Hrun TB)
      as (_ & _ & HfB & HiB & _ & _).
    match goal with |- context [?pre ++ launches ++ body ++ after] => set (before := pre) end.
    assert (Hafter' : after = [] \/
              exists r, after = [ELog INFO "Tearing down EC2 instances";
                                 ETerminateInstances (launched_ids launches) r])
      by (destruct Hafter as [(_ & -> & _) | (_ & r & -> & _)]; [now left | right; now exists r]).
    assert (Hids : launched_ids (before ++ launches ++ body ++ after) = launched_ids launches).
    { rewrite !launched_ids_app, HiB.
      destruct Hafter' as [-> | (r & ->)]; cbn; now rewrite !app_nil_r. }
    assert (Hnofail : launch_failed (before ++ launches ++ body ++ after) = false).
    { rewrite !launch_failed_app, HfB, Hok.
      destruct Hafter' as [-> | (r & ->)]; reflexivity. }
    assert (Hin : forall ev, In ev body -> In ev (before ++ launches ++ body ++ after))
      by (intros ev H; rewrite !in_app_iff; tauto).
    assert (Hbody_only : forall ev,
              match ev with
              | EWaitStatusOk _ _ | EStartAssessmentRun _ _ _
              | EDescribeAssessmentRuns _ _ | EListFindings _ _ => True
              | _ => False
              end ->
              In ev (before ++ launches ++ body ++ after) -> In ev body).
    { intros ev Hev H. rewrite !in_app_iff in H. destruct H as [H|[H|[H|H]]].
      - subst before. members H; subst ev; contradiction.
      - apply (launch_kind _ _ Hkind) in H. destruct ev; try discriminate; contradiction.
      - exact H.
      - destruct Hafter' as [-> | (r & ->)]; members H; subst ev; contradiction. }
    rewrite Hids, Hnofail.
    split; [|split; [|split]].
    + intros ids r H. apply Hbody_only in H; [|exact I]. split; [|reflexivity].
      now apply Gwait in H.
    + intros t n r H. apply Hbody_only in H; [|exact I].
      destruct (Gstart _ _ _ H) as (Hw & -> & Hn). auto.
    + intros arns r H. apply Hbody_only in H; [|exact I].
      destruct (Gpoll _ _ H) as (t & n & arn & Hs & ->). exists t, n, arn. auto.
    + intros req r H. apply Hbody_only in H; [|exact I].
      destruct (Glist _ _ H) as (t & n & arn & tok & Hs & -> & Hdone).
      exists t, n, arn, tok. split; [auto|]. split; [reflexivity|].
      destruct Hdone; [left|right]; auto.
Qed.

(** ** A scan that does not complete *)

Lemma date_eqb_eq a b : date_eqb a b = true <-> a = b.
Proof.
  unfold date_eqb. rewrite !andb_true_iff, !Z.eqb_eq. destruct a, b; cbn. split.
  - intros [[-> ->] ->]. reflexivity.
  - intros [= -> -> ->]. auto.
Qed.

Lemma is_terminal_state_iff st :
  is_terminal_state st = true <-> st = "COMPLETED" \/ st = "COMPLETED_WITH_ERRORS".
Proof. unfold is_terminal_state. now rewrite orb_true_iff, !String.eqb_eq. Qed.

Lemma none_completed_today day runs :
  Forall (fun x => dt_date (createdAt x) <> day \/
                   (state x <> "COMPLETED" /\ state x <> "COMPLETED_WITH_ERRORS")) runs ->
  existsb (completed_today day) runs = false.
Proof.
  intros H. apply not_true_is_false. intros [x [Hin Hx]]%existsb_exists.
  rewrite Forall_forall in H. specialize (H x Hin).
  unfold completed_today in Hx. apply andb_prop in Hx as [Hd Hs].
  apply date_eqb_eq in Hd. apply is_terminal_state_iff in Hs.
  destruct H as [H | [H1 H2]]; [now apply H | destruct Hs; contradiction].
Qed.

(** X14.  Only the states COMPLETED and COMPLETED_WITH_ERRORS of a run
    created on the day given end the wait.  When every answer lists only
    runs of another day or in another state (a run that FAILED, say, or
    one created before midnight), [await_inspector_results] polls 121
    times, sleeps 7260 seconds in all and returns [False]. *)
Theorem await_inspector_results_waits_out {World} (os : host World)
    (inspector : inspector_client World) (arn : string) (day : date) (s : State World) :
  (forall arns w, exists w1 response,
     describe_assessment_runs inspector arns w = (w1, Ok response) /\
     Forall (fun x => dt_date (createdAt x) <> day \/
                      (state x <> "COMPLETED" /\ state x <> "COMPLETED_WITH_ERRORS"))
            (assessmentRuns response)) ->
  exists s' evs,
    await_inspector_results os inspector arn day s = (s', Return false) /\
    trace s' = trace s ++ evs /\
    polls evs = 121%nat /\ sleeps evs = 121%nat /\ slept evs = 7260 /\
    logged ERROR evs = ["Exceeded inspector max wait"].
Proof.
  intros Hnever. destruct s as [w tr].
  assert (Hobs : forall j, (j < 121)%nat -> observed_at_poll os inspector arn day j w = Some false).
  { intros j _. unfold observed_at_poll.
    destruct (Hnever [arn] (world_at_poll os inspector arn j w)) as (w1 & response & -> & Hruns).
    now rewrite (none_completed_today _ _ Hruns). }
  destruct (await_loop_exhausts os inspector arn day 121 0 w tr)
    as (s' & evs & Hrun & Htr & Hpolls & Hsleeps & Hlog);
    [ discriminate
    | unfold sleep_time, max_total_wait; lia
    | unfold sleep_time, max_total_wait; cbn [pred]; lia
    | exact Hobs | ].
  destruct (await_loop_any_service os inspector arn day 121 0 _ _ _
              ltac:(discriminate) ltac:(reflexivity) Hrun) as (evs' & T' & _ & Hslept & _).
  cbn [trace] in T'. rewrite Htr in T'. apply app_inv_head in T'. subst evs'.
  exists s', evs. unfold await_inspector_results. split; [exact Hrun|].
  split; [exact Htr|]. split; [exact Hpolls|]. split; [exact Hsleeps|].
  split; [|exact Hlog]. rewrite Hslept, Hsleeps. reflexivity.
Qed.

Lemma await_inspector_results_waits_out_witness :
  exists s' evs,
    await_inspector_results sim_host sim_failed_inspector sim_arn sim_day
      (mk_state (sim_world ["ami-1"] (Some 0) 0) []) = (s', Return false) /\
    trace s' = [] ++ evs /\ polls evs = 121%nat /\ slept evs = 7260.
Proof.
  destruct (await_inspector_results_waits_out sim_host sim_failed_inspector sim_arn sim_day
              (mk_state (sim_world ["ami-1"] (Some 0) 0) []))
    as (s' & evs & Hrun & Htr & Hpolls & _ & Hslept & _).
  - intros arns w. eexists _, _. split; [reflexivity|].
    constructor; [|constructor]. right. split; discriminate.
  - exists s', evs. repeat split; assumption.
Defined.

(** ** With and without instances *)

Lemma distinct_images_nil_iff reservations :
  distinct_images reservations = [] <-> Forall (fun r => Instances r = []) reservations.
Proof.
  rewrite distinct_images_flat.
  destruct (collect_distinct (images_of reservations) [] (NoDup_nil _)) as (_ & Hmem & _).
  cbv zeta in Hmem. split.
  - intros Hnil. rewrite Hnil in Hmem. apply Forall_forall. intros r Hr.
    destruct (Instances r) as [|i rest] eqn:Hi; [reflexivity|].
    exfalso. apply (proj2 (Hmem (ImageId i))). right.
    unfold images_of. apply in_flat_map. exists r. split; [exact Hr|]. rewrite Hi. now left.
  - intros Hall.
    assert (Himages : images_of reservations = []).
    { clear Hmem. unfold images_of. induction Hall as [|r rest Hr Hrest IH]; [reflexivity|].
      cbn [flat_map]. rewrite Hr. exact IH. }
    now rewrite Himages.
Qed.

(** X15.  The script launches something exactly when discovery reports
    an instance.  When the answer has no instance in any reservation,
    the run is those three lines and exit status 1; when it has one, at
    least one launch request follows. *)
Theorem main_launches_iff_instances {World} (os : host World) (fuel : nat) (w : World)
    (response : describe_instances_response) :
  let tr := trace (fst (run (main os fuel) w)) in
  let o := snd (run (main os fuel) w) in
  In (EDescribeInstances (Ok response)) tr ->
  (Forall (fun r => Instances r = []) (Reservations response) ->
   tr = [ELog INFO "Fetching AMIs in use"; EDescribeInstances (Ok response);
         ELog CRITICAL "No AMIs found"] /\
   o = Raise (SystemExit 1) /\ exit_code o = Some 1) /\
  (~ Forall (fun r => Instances r = []) (Reservations response) ->
   launch_requests tr <> []).
Proof.
  intros tr o. subst tr o. destruct (run (main os fuel) w) as [s' o] eqn:E. cbn [fst snd].
  rewrite <- distinct_images_nil_iff.
  destruct (main_run_phases os _ _ _ _ E)
    as [e -> -> | response' Hnone -> ->
        | response' launches accepted req e n Hsome -> Hl Hok Hkind Hreq ->
        | response' launches body ob s2 s3 after Hsome -> Hok Hkind Hreq Hrun TB Hafter Tall].
  - intros H. members H.
  - intros H. members H. injection H as ->. split; [auto|]. intros Hne. contradiction.
  - intros H.
    assert (response = response').
    { members H; [now injection H|]. apply (launch_kind _ _ Hkind) in H. discriminate. }
    subst response'. split; [intros Hnil; contradiction|]. intros _.
    rewrite launch_requests_app. cbn [launch_requests flat_map app].
    subst launches. rewrite launch_requests_app. cbn. intros Hnil.
    now apply app_eq_nil in Hnil as [_ Hnil].
  - intros H.
    destruct (scan_and_alert_quiet os _ _ _ _ _ _ _ _ _ _ _ Hrun TB) as (HdB & _).
    assert (Hemits : emits (fun ev => match ev with
                                      | EDescribeInstances _ => false
                                      | _ => true
                                      end)
                       (scan_and_alert os fuel (boto3_ec2 os (default_region os))
                          (boto3_inspector os (default_region os))
                          (boto3_sns os (default_region os))
                          (environ os "SNS_ALERT_TOPIC_ARN")
                          (environ os "INSPECTOR_ASSESSMENT_TEMPLATE")
                          (launched_ids launches)))
      by (apply scan_and_alert_emits; intros; reflexivity).
    destruct (Hemits _ _ _ Hrun) as (body' & TB' & Fbody).
    rewrite TB in TB'. apply app_inv_head in TB'. subst body'.
    assert (Hafter' : after = [] \/
              exists r, after = [ELog INFO "Tearing down EC2 instances";
                                 ETerminateInstances (launched_ids launches) r])
      by (destruct Hafter as [(_ & -> & _) | (_ & r & -> & _)]; [now left | right; now exists r]).
    assert (response = response').
    { members H.
      - now injection H.
      - apply (launch_kind _ _ Hkind) in H. discriminate.
      - rewrite forallb_forall in Fbody. apply Fbody in H. discriminate.
      - destruct Hafter' as [-> | (r & ->)]; members H. }
    subst response'. split; [intros Hnil; contradiction|]. intros _.
    rewrite !launch_requests_app, Hreq. cbn [launch_requests flat_map app].
    destruct (distinct_images (Reservations response)); [contradiction|]. discriminate.
Qed.

Lemma main_launches_iff_instances_witness :
  launch_requests (trace (fst (run (main sim_host 5) sim_shared_images))) <> [].
Proof.
  apply (main_launches_iff_instances sim_host 5 sim_shared_images
           {| Reservations :=
                [ {| Instances := map (fun i => {| ImageId := i |})
                                      ["ami-1"; "ami-2"; "ami-1"; "ami-3"; "ami-2"] |} ] |}).
  - vm_compute. tauto.
  - intros Hall. inversion Hall as [|? ? Hnil _]. discriminate.
Defined.

(** ** After the poll loop *)

(** The body of the [try] once the scan has been started: the poll loop
    runs in the state reached after the log line, and what follows does
    not look at what it returned. *)
Lemma scan_and_alert_polling {World} (os : host World) fuel ec2 inspector sns topic template
    ids s s' o body t n arn :
  scan_and_alert os (S fuel) ec2 inspector sns topic template ids s = (s', o) ->
  trace s' = trace s ++ body ->
  In (EStartAssessmentRun t n (Ok arn)) body ->
  exists sa pre,
    trace sa = pre ++ [EStartAssessmentRun t n (Ok arn);
                       ELog INFO "Awaiting Inspector results"] /\
    (exists post, trace s' = trace sa ++ post) /\
    match await_inspector_results os inspector arn (today os (world sa)) sa with
    | (sb, Return b) =>
        exists r rest,
          trace s' = trace sb ++ ELog INFO "Retrieving findings"
                     :: EListFindings (list_findings_page arn finding_filter None) r :: rest
    | (sb, Raise e) => s' = sb /\ o = Raise e
    | (sb, OutOfFuel) => False
    end.
Proof.
  unfold scan_and_alert. rewrite !bind_log. unfold bind at 1. unfold call, record_event.
  cbn [world trace].
  destruct (wait_instance_status_ok ec2 ids (world s)) as [w1 [[]|e]].
  2: { intros [= <- <-] T H. cbn [trace] in T. rewrite <- !app_assoc in T.
       apply app_inv_head in T. subst body. members H. }
  rewrite bind_log. unfold start_inspector_scan. rewrite bind_assoc.
  unfold bind at 1. unfold today_date, record_event. cbn [world trace].
  set (d := today os w1). unfold bind at 1. unfold call. cbn [world trace].
  fold (scan_name d).
  destruct (start_assessment_run inspector template (scan_name d) w1) as [w2 [arn0|e]].
  2: { intros [= <- <-] T H. cbn [trace] in T. rewrite <- !app_assoc in T.
       apply app_inv_head in T. subst body. members H. }
  rewrite bind_log. unfold bind at 1. unfold today_date, record_event. cbn [world trace].
  set (day := today os w2).
  match goal with |- context [{| world := w2; trace := ?t |}] =>
    assert (Hstarted : t = trace s ++ started template ids d arn0)
      by (unfold started, waited; now rewrite <- !app_assoc);
    rewrite Hstarted; clear Hstarted
  end.
  set (sa := {| world := w2; trace := trace s ++ started template ids d arn0 |}).
  intros E T H.
  assert (Hpolled : exists s3 o3 pollevs,
            await_inspector_results os inspector arn0 day sa = (s3, o3) /\
            trace s3 = trace sa ++ pollevs /\ Forall (poll_event arn0) pollevs /\
            o3 <> OutOfFuel /\
            match o3 with
            | Return _ => collect_and_alert (S fuel) inspector sns topic arn0 s3 = (s', o)
            | Raise e => s' = s3 /\ o = Raise e
            | OutOfFuel => True
            end).
  { apply bind_run in E as [(s3 & polled & E3 & E) | [(e & E3 & ->) | (E3 & ->)]];
      destruct (await_loop_any_service os inspector arn0 day 121 0 _ _ _
                  ltac:(discriminate) ltac:(reflexivity) E3)
        as (pollevs & T3 & Hout & _ & Hkind).
    - exists s3, (Return polled), pollevs. repeat split; try assumption. discriminate.
    - exists s', (Raise e), pollevs. repeat split; try assumption. discriminate.
    - contradiction. }
  destruct Hpolled as (s3 & o3 & pollevs & E3 & T3 & Hkind & Hends & Hnext).
  assert (Hcollected : exists cevs, trace s' = trace s3 ++ cevs /\
            forallb (fun ev => match ev with EStartAssessmentRun _ _ _ => false | _ => true end)
                    cevs = true).
  { destruct o3 as [polled|e|]; [| |contradiction].
    - apply (collect_and_alert_emits
               (fun ev => match ev with EStartAssessmentRun _ _ _ => false | _ => true end))
        in Hnext; [exact Hnext | | |]; intros; reflexivity.
    - destruct Hnext as [-> _]. exists []. now rewrite app_nil_r. }
  destruct Hcollected as (cevs & Tc & Hc).
  assert (Hbody : body = started template ids d arn0 ++ pollevs ++ cevs).
  { apply (app_inv_head (trace s)). rewrite <- T, Tc, T3. unfold sa. cbn [trace].
    now rewrite <- !app_assoc. }
  assert (Hsame : t = template /\ n = scan_name d /\ arn = arn0).
  { rewrite Hbody in H. unfold started, waited in H. members H.
    - now injection H.
    - of_kind H Hkind.
    - rewrite forallb_forall in Hc. apply Hc in H. discriminate. }
  destruct Hsame as (-> & -> & ->).
  exists sa, (trace s ++ waited ids ++ [ELog INFO "Starting Inspector run"]).
  split; [unfold sa, started; cbn [trace]; now rewrite <- !app_assoc|].
  split; [exists (pollevs ++ cevs); now rewrite Tc, T3, app_assoc|].
  change (today os (world sa)) with day. rewrite E3.
  destruct o3 as [polled|e|]; [| exact Hnext | contradiction].
  destruct (collect_and_alert_starts fuel inspector sns topic arn0 s3) as (r & rest & Tr).
  rewrite Hnext in Tr. now exists r, rest.
Qed.

(** C3.  When none of the 121 polls the budget allows sees a terminal
    state, [await_inspector_results] returns [False]; it does not raise.
    And in every run of the script that has started a scan, the poll
    loop runs in the state reached after the log line that follows the
    start, and whatever it returns there, [True] or [False], the script
    goes on the same way: it logs and requests the first page of finding
    identifiers of that run.  Only when the poll loop raises is there no
    listing: what follows is the termination call. *)
Theorem budget_exhausted_then_collect {World} (os : host World) (fuel : nat) (w : World) :
  let inspector := boto3_inspector os (default_region os) in
  let tr := trace (fst (run (main os (S fuel)) w)) in
  (forall arn day w0 tr0,
     (forall j, (j < 121)%nat -> observed_at_poll os inspector arn day j w0 = Some false) ->
     exists s1 evs,
       await_inspector_results os inspector arn day (mk_state w0 tr0) = (s1, Return false) /\
       trace s1 = tr0 ++ evs /\
       logged ERROR evs = ["Exceeded inspector max wait"]) /\
  (forall t n arn,
     In (EStartAssessmentRun t n (Ok arn)) tr ->
     exists sa pre,
       trace sa = pre ++ [EStartAssessmentRun t n (Ok arn);
                          ELog INFO "Awaiting Inspector results"] /\
       (exists post, tr = trace sa ++ post) /\
       match await_inspector_results os inspector arn (today os (world sa)) sa with
       | (sb, Return b) =>
           exists r rest,
             tr = trace sb ++ ELog INFO "Retrieving findings"
                  :: EListFindings (list_findings_page arn finding_filter None) r :: rest
       | (sb, Raise e) =>
           exists ids r,
             tr = trace sb ++ [ELog INFO "Tearing down EC2 instances";
                               ETerminateInstances ids r]
       | (sb, OutOfFuel) => False
       end).
Proof.
  intros inspector tr. split.
  - intros arn day w0 tr0 Hnever.
    destruct (await_loop_exhausts os inspector arn day 121 0 w0 tr0)
      as (s1 & evs & Hrun & Htr & _ & _ & Hlog);
      [ discriminate
      | unfold sleep_time, max_total_wait; lia
      | unfold sleep_time, max_total_wait; cbn [pred]; lia
      | assumption | ].
    now exists s1, evs.
  - intros t n arn Hin. subst tr.
    destruct (run (main os (S fuel)) w) as [s' o] eqn:E. cbn [fst] in *.
    destruct (main_run_phases os _ _ _ _ E)
      as [e Htr _ | response Hnone Htr _
          | response launches accepted req e k Hsome Htr Hl Hok Hkind Hreq _
          | response launches body ob s2 s3 after Hsome Htr Hok Hkind Hreq Hrun TB Hafter Tall].
    + rewrite Htr in Hin. members Hin.
    + rewrite Htr in Hin. members Hin.
    + rewrite Htr in Hin. members Hin.
      apply (launch_kind _ _ Hkind) in Hin. discriminate.
    + assert (Hbody : In (EStartAssessmentRun t n (Ok arn)) body).
      { rewrite Htr in Hin. members Hin.
        - apply (launch_kind _ _ Hkind) in Hin. discriminate.
        - exact Hin.
        - destruct Hafter as [(_ & -> & _) | (_ & r & -> & _)]; members Hin. }
      destruct (scan_and_alert_polling os _ _ _ _ _ _ _ _ _ _ _ _ _ _ Hrun TB Hbody)
        as (sa & pre & Hsa & (post & Hpost) & Hnext).
      exists sa, pre. split; [exact Hsa|].
      split; [exists (post ++ after); now rewrite Tall, Hpost, app_assoc|].
      fold inspector in Hnext.
      destruct (await_inspector_results os inspector arn (today os (world sa)) sa)
        as [sb [b|e|]]; [| |contradiction].
      * destruct Hnext as (r & rest & Tr). exists r, (rest ++ after).
        rewrite Tall, Tr, <- app_assoc. reflexivity.
      * destruct Hnext as [-> ->].
        destruct Hafter as [(Hdiv & _) | (_ & r & -> & _)]; [discriminate|].
        exists (launched_ids launches), r. exact Tall.
Qed.

(** The simulated scan never completes: the poll loop gives up with
    [False], and the run of the script, having started the scan, goes on
    to the first page of findings. *)
Lemma budget_exhausted_then_collect_witness :
  let w := sim_world ["ami-1"; "ami-2"] None 3 in
  let tr := trace (fst (run (main sim_host 5) w)) in
  (exists s1, await_inspector_results sim_host sim_inspector sim_arn sim_day (mk_state w [])
              = (s1, Return false)) /\
  In (EStartAssessmentRun (Some "arn:aws:inspector:template/0-sim")
        (scan_name sim_day) (Ok sim_arn)) tr /\
  exists sa pre,
    trace sa = pre ++ [EStartAssessmentRun (Some "arn:aws:inspector:template/0-sim")
                         (scan_name sim_day) (Ok sim_arn);
                       ELog INFO "Awaiting Inspector results"] /\
    match await_inspector_results sim_host sim_inspector sim_arn (today sim_host (world sa)) sa
    with
    | (sb, Return b) =>
        exists r rest,
          tr = trace sb ++ ELog INFO "Retrieving findings"
               :: EListFindings (list_findings_page sim_arn finding_filter None) r :: rest
    | (sb, Raise e) =>
        exists ids r,
          tr = trace sb ++ [ELog INFO "Tearing down EC2 instances"; ETerminateInstances ids r]
    | (sb, OutOfFuel) => False
    end.
Proof.
  intros w tr.
  pose proof (budget_exhausted_then_collect sim_host 4 w) as [Hfalse Hnext].
  assert (Hstart : In (EStartAssessmentRun (Some "arn:aws:inspector:template/0-sim")
                         (scan_name sim_day) (Ok sim_arn)) tr)
    by (apply (nth_error_In tr 10); vm_compute; reflexivity).
  cbv zeta in Hfalse, Hnext.
  change (boto3_inspector sim_host (default_region sim_host)) with sim_inspector
    in Hfalse, Hnext.
  split; [|split; [exact Hstart|]].
  - destruct (Hfalse sim_arn sim_day w []) as (s1 & evs & Hrun & _).
    + clear Hnext Hstart Hfalse. intros j Hj.
      assert (Hall : forallb (fun j => match observed_at_poll sim_host sim_inspector sim_arn
                                              sim_day j w with
                                       | Some false => true
                                       | _ => false
                                       end) (seq 0 121) = true) by (vm_compute; reflexivity).
      rewrite forallb_forall in Hall. specialize (Hall j).
      rewrite in_seq in Hall. specialize (Hall ltac:(lia)).
      destruct (observed_at_poll sim_host sim_inspector sim_arn sim_day j w) as [[|]|];
        [discriminate Hall | reflexivity | discriminate Hall].
    + exists s1. exact Hrun.
  - destruct (Hnext _ _ _ Hstart) as (sa & pre & Hsa & _ & Hgoes).
    exists sa, pre. split; [exact Hsa | exact Hgoes].
Defined.
